(** * Classroom Allocator: adjacency graph, allocation, conflicts and log queue

    A shallow embedding of the browser application's core
    ([buildRoomsGraph], [allocateRoom], [checkAvailability],
    [detectConflicts], [addLog], [loadLogs], the two submit handlers) and of
    [RoomGraphVisualizer.buildGraph], followed by the properties the
    specification states about them.

    Conventions of the embedding.
    - The module-level variables [allRooms], [roomsGraph], [schedulesArray],
      [logsQueue] and the three [localStorage] items form one explicit
      [State] record that every mutating function takes and returns.
    - Numeric fields are integers ([Z]), as the data model has them; a
      form field that [parseInt] turns into NaN is outside the model.
    - Identifiers, buildings, dates and times are JavaScript strings of
      one-byte characters; [===] on them is equality, [<=] and [>=] the
      lexicographic comparison of code units, here [String.leb].
    - The clock ([new Date().toISOString()]) and [generateBookingId()] are
      inputs of the functions that call them.
    - A JavaScript [Map] is an association list in insertion order with
      unique keys.
    - [localStorage] holds the values themselves: [JSON.parse] gives back
      what [JSON.stringify] was given.  It outlives the page: a page load
      resets the four variables and finds the three items as they were
      left. *)

From Stdlib Require Import List String Ascii Bool ZArith QArith Lia Arith PeanoNat.
Import ListNotations.

Local Open Scope string_scope.
Local Open Scope Z_scope.

(** ** JavaScript comparisons *)

(** [a <= b] on two strings. *)
Definition str_le (a b : string) : bool := String.leb a b.

(** [a >= b] on two strings: the order is total, so this is [b <= a]. *)
Definition str_ge (a b : string) : bool := String.leb b a.

(** [a < b] on two strings. *)
Definition str_lt (a b : string) : bool := String.ltb a b.

(** Truthiness of a string: every string but the empty one. *)
Definition truthy (s : string) : bool :=
  match s with
  | EmptyString => false
  | String _ _ => true
  end.

(** ** Data model *)

Inductive Facility : Type :=
  | projector | lab | accessible | whiteboard | audio | smartboard.

Module Facilities.
Record t : Type := mk {
  has_projector : bool;
  has_lab : bool;
  has_accessible : bool;
  has_whiteboard : bool;
  has_audio : bool;
  has_smartboard : bool
}.

(** [facilities[facility]] *)
Definition get (fs : t) (f : Facility) : bool :=
  match f with
  | projector => has_projector fs
  | lab => has_lab fs
  | accessible => has_accessible fs
  | whiteboard => has_whiteboard fs
  | audio => has_audio fs
  | smartboard => has_smartboard fs
  end.

(** [Object.entries(facilities)]: the keys in the order the object
    literals of the two submit handlers list them. *)
Definition entries (fs : t) : list (Facility * bool) :=
  map (fun f => (f, get fs f))
      [projector; lab; accessible; whiteboard; audio; smartboard].
End Facilities.

Module Room.
Record t : Type := mk {
  room_id : string;
  building : string;
  capacity : Z;
  floor : Z;
  facilities : Facilities.t
}.
End Room.

(** A node of [roomsGraph]: [{...room, adjacentRooms: []}]. *)
Module Node.
Record t : Type := mk {
  room : Room.t;
  adjacentRooms : list string
}.

Definition push (x : string) (n : t) : t :=
  mk (room n) (adjacentRooms n ++ [x])%list.

Definition includes (x : string) (n : t) : bool :=
  existsb (String.eqb x) (adjacentRooms n).
End Node.

(** The form data of an allocation request. *)
Module Req.
Record t : Type := mk {
  course_name : string;
  instructor : string;
  date : string;
  start_time : string;
  end_time : string;
  capacity : Z;
  building : string;
  facilities : Facilities.t
}.
End Req.

(** An entry of [schedulesArray]:
    [{...formData, room, booking_id, timestamp}].  Of the stored room only
    the room record is kept; no function reads the adjacency of a booked
    room. *)
Module Booking.
Record t : Type := mk {
  course_name : string;
  instructor : string;
  date : string;
  start_time : string;
  end_time : string;
  capacity : Z;
  building : string;
  facilities : Facilities.t;
  room : Room.t;
  booking_id : string;
  timestamp : string
}.
End Booking.

Module Log.
Record t : Type := mk {
  type : string;
  message : string;
  timestamp : string
}.
End Log.

(** ** The JavaScript Map *)

Module JsMap.
Section WithValue.
Context {V : Type}.

Definition t : Type := list (string * V).

Definition empty : t := [].

(** [m.set(k, v)]: an existing key keeps its place and takes the new
    value, a new key goes to the end. *)
Fixpoint set (k : string) (v : V) (m : t) : t :=
  match m with
  | [] => [(k, v)]
  | (k', v') :: m' =>
      if String.eqb k' k then (k', v) :: m' else (k', v') :: set k v m'
  end.

(** [m.get(k)] *)
Fixpoint get (k : string) (m : t) : option V :=
  match m with
  | [] => None
  | (k', v') :: m' => if String.eqb k' k then Some v' else get k m'
  end.

(** In-place mutation of the object stored under [k]. *)
Definition update (k : string) (f : V -> V) (m : t) : t :=
  map (fun kv => if String.eqb (fst kv) k then (fst kv, f (snd kv)) else kv) m.

Definition keys (m : t) : list string := map fst m.
End WithValue.
Arguments t : clear implicits.
End JsMap.

Definition RoomsGraph : Type := JsMap.t Node.t.

(** ** Application state *)

Record State : Type := mkState {
  allRooms : list Room.t;
  roomsGraph : RoomsGraph;
  schedulesArray : list Booking.t;
  logsQueue : list Log.t;
  stored_rooms : option (list Room.t);          (* localStorage 'rooms' *)
  stored_schedules : option (list Booking.t);   (* localStorage 'schedules' *)
  stored_logs : option (list Log.t)             (* localStorage 'logs' *)
}.

(** What a page load starts from: the script sets the four globals to
    their empty values, and [localStorage] holds what earlier page loads
    left there, if anything. *)
Definition pageLoad (savedRooms : option (list Room.t))
           (savedSchedules : option (list Booking.t))
           (savedLogs : option (list Log.t)) : State :=
  mkState [] JsMap.empty [] [] savedRooms savedSchedules savedLogs.

(** The page load of a browser that has nothing cached: the first one.
    The sample states below are built on it; a session may start from any
    [pageLoad]. *)
Definition initialState : State := pageLoad None None None.

Definition with_allRooms (v : list Room.t) (s : State) : State :=
  mkState v (roomsGraph s) (schedulesArray s) (logsQueue s)
          (stored_rooms s) (stored_schedules s) (stored_logs s).

Definition with_roomsGraph (v : RoomsGraph) (s : State) : State :=
  mkState (allRooms s) v (schedulesArray s) (logsQueue s)
          (stored_rooms s) (stored_schedules s) (stored_logs s).

Definition with_schedulesArray (v : list Booking.t) (s : State) : State :=
  mkState (allRooms s) (roomsGraph s) v (logsQueue s)
          (stored_rooms s) (stored_schedules s) (stored_logs s).

Definition with_logsQueue (v : list Log.t) (s : State) : State :=
  mkState (allRooms s) (roomsGraph s) (schedulesArray s) v
          (stored_rooms s) (stored_schedules s) (stored_logs s).

Definition with_stored_rooms (v : option (list Room.t)) (s : State) : State :=
  mkState (allRooms s) (roomsGraph s) (schedulesArray s) (logsQueue s)
          v (stored_schedules s) (stored_logs s).

Definition with_stored_schedules (v : option (list Booking.t)) (s : State) : State :=
  mkState (allRooms s) (roomsGraph s) (schedulesArray s) (logsQueue s)
          (stored_rooms s) v (stored_logs s).

Definition with_stored_logs (v : option (list Log.t)) (s : State) : State :=
  mkState (allRooms s) (roomsGraph s) (schedulesArray s) (logsQueue s)
          (stored_rooms s) (stored_schedules s) v.

(** ** Array.prototype.forEach with the element index *)

Fixpoint forEachFrom {A S : Type} (f : A -> nat -> S -> S)
         (i : nat) (l : list A) (s : S) : S :=
  match l with
  | [] => s
  | a :: l' => forEachFrom f (Datatypes.S i) l' (f a i s)
  end.

Definition forEach {A S : Type} (f : A -> nat -> S -> S) (l : list A) (s : S) : S :=
  forEachFrom f 0%nat l s.

(** [for (let i = lo; i < hi; i++) body] *)
Definition for_range {S : Type} (lo hi : nat) (body : nat -> S -> S) (s : S) : S :=
  fold_left (fun s i => body i s) (seq lo (hi - lo)) s.

(** ** buildRoomsGraph *)

(** [capacityDiff / maxCapacity <= 0.25] on integer operands, as IEEE
    division evaluates it: a zero divisor gives NaN or +Infinity and the
    test fails; a negative divisor gives a quotient that is at most zero;
    for a positive divisor the quotient is at most a quarter exactly when
    four times the dividend is at most the divisor (0.25 is a double, and
    for operands below 2^53 rounding the quotient cannot cross it). *)
Definition quotient_le_quarter (capacityDiff maxCapacity : Z) : bool :=
  match maxCapacity ?= 0 with
  | Eq => false
  | Lt => true
  | Gt => 4 * capacityDiff <=? maxCapacity
  end.

Definition similarCapacity (c1 c2 : Z) : bool :=
  let capacityDiff := Z.abs (c1 - c2) in
  let maxCapacity := Z.max c1 c2 in
  quotient_le_quarter capacityDiff maxCapacity.

Definition sameBuilding (room1 room2 : Room.t) : bool :=
  String.eqb (Room.building room1) (Room.building room2).

(** [roomsGraph.get(k).adjacentRooms.push(x)] *)
Definition pushAdjacent (k x : string) (g : RoomsGraph) : RoomsGraph :=
  JsMap.update k (Node.push x) g.

(** [roomsGraph.get(k).adjacentRooms.includes(x)] *)
Definition includesAdjacent (k x : string) (g : RoomsGraph) : bool :=
  match JsMap.get k g with
  | Some n => Node.includes x n
  | None => false
  end.

(** The body of the inner callback for a pair with [i < j].  Both
    identifiers are keys of the Map since the first pass, so neither [get]
    misses. *)
Definition connect (room1 room2 : Room.t) (g : RoomsGraph) : RoomsGraph :=
  let id1 := Room.room_id room1 in
  let id2 := Room.room_id room2 in
  let g1 :=
    if sameBuilding room1 room2
    then pushAdjacent id2 id1 (pushAdjacent id1 id2 g)
    else g in
  if similarCapacity (Room.capacity room1) (Room.capacity room2) then
    let g2 := if includesAdjacent id1 id2 g1 then g1 else pushAdjacent id1 id2 g1 in
    if includesAdjacent id2 id1 g2 then g2 else pushAdjacent id2 id1 g2
  else g1.

(** First pass: every room becomes a node under its [room_id]. *)
Definition addNodes (rooms : list Room.t) (g : RoomsGraph) : RoomsGraph :=
  forEach (fun room _ g => JsMap.set (Room.room_id room) (Node.mk room []) g) rooms g.

(** Second pass: the two nested [forEach] with [if (i >= j) return]. *)
Definition addEdges (rooms : list Room.t) (g : RoomsGraph) : RoomsGraph :=
  forEach (fun room1 i g =>
    forEach (fun room2 j g =>
      if (j <=? i)%nat then g else connect room1 room2 g) rooms g) rooms g.

Definition buildGraphOf (rooms : list Room.t) : RoomsGraph :=
  addEdges rooms (addNodes rooms JsMap.empty).

Definition buildRoomsGraph (s : State) : State :=
  with_roomsGraph (buildGraphOf (allRooms s)) s.


(** ** addLog and the other writers of the log queue *)

(** [logsQueue.unshift(log)], then [logsQueue.pop()] when more than 100
    entries are held, then the queue is written to [localStorage]. *)
Definition addLog (now type message : string) (s : State) : State :=
  let log := Log.mk type message now in
  let unshifted := log :: logsQueue s in
  let kept :=
    if (100 <? List.length unshifted)%nat then removelast unshifted else unshifted in
  with_stored_logs (Some kept) (with_logsQueue kept s).

(** What [await fetch(...)] followed by [response.json()] gave: the
    property read from the payload ([None] when it is missing), or a
    failure that lands in the [catch] branch. *)
Inductive Fetch (A : Type) : Type :=
  | Fetched (payload : option A)
  | FetchFailed.
Arguments Fetched {A} payload.
Arguments FetchFailed {A}.

(** [loadLogs]: [logsQueue = data.logs || []] and its copy to the cache,
    or, when the fetch fails, the cached queue if there is one. *)
Definition loadLogs (response : Fetch (list Log.t)) (s : State) : State :=
  match response with
  | Fetched payload =>
      let logs := match payload with Some l => l | None => [] end in
      with_stored_logs (Some logs) (with_logsQueue logs s)
  | FetchFailed =>
      match stored_logs s with
      | Some savedLogs => with_logsQueue savedLogs s
      | None => s
      end
  end.


(** [clearLogs] once the user confirmed. *)
Definition clearLogs (now : string) (s : State) : State :=
  addLog now "info" "Logs cleared by user"
         (with_stored_logs (Some []) (with_logsQueue [] s)).

(** ** checkAvailability *)

(** The callback given to [schedulesArray.some]. *)
Definition clashes (roomId date startTime endTime : string) (booking : Booking.t) : bool :=
  if negb (String.eqb (Room.room_id (Booking.room booking)) roomId) then false
  else if negb (String.eqb (Booking.date booking) date) then false
  else negb (str_le endTime (Booking.start_time booking)
             || str_ge startTime (Booking.end_time booking)).

Definition checkAvailability (s : State) (roomId date startTime endTime : string) : bool :=
  negb (existsb (clashes roomId date startTime endTime) (schedulesArray s)).

(** ** allocateRoom *)

Inductive AllocationResult : Type :=
  | Success (room : Node.t) (booking_id : string)
  | Failure (message : string).

Definition noRoomsMessage : string :=
  "No rooms available matching your requirements. Try adjusting your criteria or selecting a different time slot.".

(** The loop over [Object.entries(requirements.facilities)]. *)
Definition facilitiesMatch (required : Facilities.t) (room : Room.t) : bool :=
  forallb (fun entry =>
             negb (snd entry && negb (Facilities.get (Room.facilities room) (fst entry))))
          (Facilities.entries required).

(** One turn of [for (let [roomId, room] of roomsGraph)]: [false] where
    the body reaches a [continue], [true] where it reaches the [push]. *)
Definition suitable (s : State) (requirements : Req.t) (entry : string * Node.t) : bool :=
  let roomId := fst entry in
  let room := Node.room (snd entry) in
  if Room.capacity room <? Req.capacity requirements then false
  else if truthy (Req.building requirements)
          && negb (String.eqb (Room.building room) (Req.building requirements))
       then false
  else if negb (facilitiesMatch (Req.facilities requirements) room) then false
  else if negb (checkAvailability s roomId (Req.date requirements)
                  (Req.start_time requirements) (Req.end_time requirements))
       then false
  else true.

Definition suitableRooms (s : State) (requirements : Req.t) : list Node.t :=
  map snd (filter (suitable s requirements) (roomsGraph s)).

(** The callback given to [suitableRooms.reduce]. *)
Definition closest (requirements : Req.t) (best current : Node.t) : Node.t :=
  let bestDiff := Z.abs (Room.capacity (Node.room best) - Req.capacity requirements) in
  let currentDiff := Z.abs (Room.capacity (Node.room current) - Req.capacity requirements) in
  if currentDiff <? bestDiff then current else best.

Definition allocateRoom (now bookingId : string) (requirements : Req.t) (s : State)
  : State * AllocationResult :=
  let s1 := addLog now "info"
              ("Processing allocation request for " ++ Req.course_name requirements) s in
  match suitableRooms s1 requirements with
  | [] => (s1, Failure noRoomsMessage)
  | first :: rest =>
      (s1, Success (fold_left (closest requirements) rest first) bookingId)
  end.

(** ** handleAllocationSubmit *)

(** What the handler shows: the three [showResult] calls. *)
Inductive SubmitOutcome : Type :=
  | InvalidTime
  | Allocated (room : Node.t) (booking_id : string)
  | AllocationFailed (message : string).

(** The clock readings and the identifier one submission consumes. *)
Record Env : Type := mkEnv {
  now_request : string;
  fresh_booking_id : string;
  now_booking : string;
  now_outcome : string
}.

Definition bookingOf (formData : Req.t) (room : Node.t) (bookingId now : string) : Booking.t :=
  Booking.mk (Req.course_name formData) (Req.instructor formData) (Req.date formData)
             (Req.start_time formData) (Req.end_time formData) (Req.capacity formData)
             (Req.building formData) (Req.facilities formData)
             (Node.room room) bookingId now.

(** The handler with the allocator it awaits as a parameter. *)
Definition handleAllocationSubmitWith
  (allocate : string -> string -> Req.t -> State -> State * AllocationResult)
  (env : Env) (formData : Req.t) (s : State) : State * SubmitOutcome :=
  if str_ge (Req.start_time formData) (Req.end_time formData) then (s, InvalidTime)
  else
    match allocate (now_request env) (fresh_booking_id env) formData s with
    | (s1, Success room bookingId) =>
        let schedules :=
          (schedulesArray s1 ++ [bookingOf formData room bookingId (now_booking env)])%list in
        let s2 := with_stored_schedules (Some schedules) (with_schedulesArray schedules s1) in
        let s3 := addLog (now_outcome env) "success"
                    ("Successfully allocated " ++ Room.building (Node.room room) ++ " "
                     ++ Room.room_id (Node.room room) ++ " for " ++ Req.course_name formData) s2 in
        (s3, Allocated room bookingId)
    | (s1, Failure message) =>
        let s2 := addLog (now_outcome env) "error"
                    ("Failed to allocate room for " ++ Req.course_name formData ++ ": " ++ message) s1 in
        (s2, AllocationFailed message)
    end.

Definition handleAllocationSubmit : Env -> Req.t -> State -> State * SubmitOutcome :=
  handleAllocationSubmitWith allocateRoom.

(** ** handleAddRoomSubmit *)

Definition roomExists (newRoom : Room.t) (rooms : list Room.t) : bool :=
  existsb (fun r => String.eqb (Room.room_id r) (Room.room_id newRoom)
                    && String.eqb (Room.building r) (Room.building newRoom)) rooms.

(** [true] with the new state when the room was added, [false] with the
    state untouched when the duplicate check refused it. *)
Definition handleAddRoomSubmit (now : string) (newRoom : Room.t) (s : State) : State * bool :=
  if roomExists newRoom (allRooms s) then (s, false)
  else
    let rooms := (allRooms s ++ [newRoom])%list in
    let s1 := with_stored_rooms (Some rooms) (with_allRooms rooms s) in
    let s2 := buildRoomsGraph s1 in
    (addLog now "success"
       ("Added new room: " ++ Room.building newRoom ++ " " ++ Room.room_id newRoom) s2,
     true).

(** ** detectConflicts *)

Definition overlapping (b1 b2 : Booking.t) : bool :=
  negb (str_le (Booking.end_time b1) (Booking.start_time b2)
        || str_le (Booking.end_time b2) (Booking.start_time b1)).

Definition sameRoomAndDate (b1 b2 : Booking.t) : bool :=
  String.eqb (Room.room_id (Booking.room b1)) (Room.room_id (Booking.room b2))
  && String.eqb (Booking.date b1) (Booking.date b2).

(** The body of the inner loop at [i], [j]; an index outside the array
    does not occur. *)
Definition conflictAt (arr : list Booking.t) (i j : nat)
           (conflicts : list (Booking.t * Booking.t)) : list (Booking.t * Booking.t) :=
  match nth_error arr i, nth_error arr j with
  | Some b1, Some b2 =>
      if sameRoomAndDate b1 b2 then
        if overlapping b1 b2 then (conflicts ++ [(b1, b2)])%list else conflicts
      else conflicts
  | _, _ => conflicts
  end.

Definition conflictsOf (arr : list Booking.t) : list (Booking.t * Booking.t) :=
  for_range 0 (List.length arr) (fun i conflicts =>
    for_range (i + 1) (List.length arr) (fun j conflicts =>
      conflictAt arr i j conflicts) conflicts) [].

(** The function reads [schedulesArray] and writes no global. *)
Definition detectConflicts (s : State) : State * list (Booking.t * Booking.t) :=
  (s, conflictsOf (schedulesArray s)).

(** ** RoomGraphVisualizer.buildGraph *)

Module Vis.
Inductive EdgeType : Type := ByBuilding | ByCapacity.

Record Edge : Type := mkEdge {
  from : nat;
  to : nat;
  type : EdgeType;
  weight : Z
}.

(** A node of the visualizer; its canvas position and colour play no part
    in the adjacency and are left out. *)
Record Node : Type := mkNode {
  id : string;
  building : string;
  capacity : Z;
  facilities : Facilities.t;
  adjacentRooms : list string
}.

Record t : Type := mk {
  nodes : list Node;
  edges : list Edge
}.

Definition nodeOf (room : Room.t) : Node :=
  mkNode (Room.room_id room) (Room.building room) (Room.capacity room)
         (Room.facilities room) [].

(** [l[i] = f(l[i])] for an index inside the array. *)
Fixpoint updateAt {A : Type} (i : nat) (f : A -> A) (l : list A) : list A :=
  match l, i with
  | [], _ => []
  | a :: l', O => f a :: l'
  | a :: l', S i' => a :: updateAt i' f l'
  end.

Definition pushAt (i : nat) (x : string) (ns : list Node) : list Node :=
  updateAt i (fun n => mkNode (id n) (building n) (capacity n) (facilities n)
                              (adjacentRooms n ++ [x])%list) ns.

Definition includesAt (i : nat) (x : string) (ns : list Node) : bool :=
  match nth_error ns i with
  | Some n => existsb (String.eqb x) (adjacentRooms n)
  | None => false
  end.

(** The body of the inner loop for [room1 = rooms[i]], [room2 = rooms[j]]. *)
Definition link (i j : nat) (room1 room2 : Room.t) (v : t) : t :=
  if sameBuilding room1 room2 then
    mk (pushAt j (Room.room_id room1) (pushAt i (Room.room_id room2) (nodes v)))
       (edges v ++ [mkEdge i j ByBuilding 2])%list
  else if similarCapacity (Room.capacity room1) (Room.capacity room2) then
    let ns1 :=
      if includesAt i (Room.room_id room2) (nodes v) then nodes v
      else pushAt i (Room.room_id room2) (nodes v) in
    let ns2 :=
      if includesAt j (Room.room_id room1) ns1 then ns1
      else pushAt j (Room.room_id room1) ns1 in
    mk ns2 (edges v ++ [mkEdge i j ByCapacity 1])%list
  else v.

Definition linkAt (rooms : list Room.t) (i j : nat) (v : t) : t :=
  match nth_error rooms i, nth_error rooms j with
  | Some room1, Some room2 => link i j room1 room2 v
  | _, _ => v
  end.

Definition buildGraph (rooms : list Room.t) : t :=
  match rooms with
  | [] => mk [] []
  | _ =>
      for_range 0 (List.length rooms) (fun i v =>
        for_range (i + 1) (List.length rooms) (fun j v => linkAt rooms i j v) v)
        (mk (map nodeOf rooms) [])
  end.
End Vis.

(** ** The sample rooms of [initializeSampleDataOffline] *)

Definition sampleRooms : list Room.t :=
  [ Room.mk "101" "Main" 50 1 (Facilities.mk true false true true true false);
    Room.mk "102" "Main" 30 1 (Facilities.mk true false true true false true);
    Room.mk "201" "Science" 40 2 (Facilities.mk true true false true true false);
    Room.mk "301" "Engineering" 60 3 (Facilities.mk true true true true true true);
    Room.mk "LAB-A" "Science" 25 1 (Facilities.mk true true true false false true);
    Room.mk "401" "Engineering" 100 4 (Facilities.mk true false true true true true);
    Room.mk "AUD-1" "Arts" 200 1 (Facilities.mk true false true false true false) ].

Definition sampleState : State :=
  buildRoomsGraph (with_stored_rooms (Some sampleRooms) (with_allRooms sampleRooms initialState)).

Definition noFacilities : Facilities.t :=
  Facilities.mk false false false false false false.

(** ** Runs of addLog and the bound of the queue *)

Definition entryOf (e : string * string * string) : Log.t :=
  let '(now, type, message) := e in Log.mk type message now.

(** A run of [addLog] calls, one per [(now, type, message)] triple. *)
Definition addLogs (es : list (string * string * string)) (s : State) : State :=
  fold_left (fun s e => let '(now, type, message) := e in addLog now type message s) es s.

Definition queue_bounded (s : State) : Prop :=
  (List.length (logsQueue s) <= 100)%nat.

(** ** The order both double loops visit the pairs of an array *)

(** For each element, in order, every later element in order: the pairs
    [i < j] that [forEach] with its [i >= j] guard and the two nested
    [for] loops visit. *)
Fixpoint forPairsFrom {A S : Type} (f : A -> nat -> A -> nat -> S -> S)
         (i : nat) (l : list A) (s : S) : S :=
  match l with
  | [] => s
  | a :: rest =>
      forPairsFrom f (Datatypes.S i) rest
        (forEachFrom (fun b j s => f a i b j s) (Datatypes.S i) rest s)
  end.

(** ** The conflicting pairs of a ledger, by position *)

Definition conflicting (b1 b2 : Booking.t) : bool :=
  sameRoomAndDate b1 b2 && overlapping b1 b2.

(** The inner loop body of [detectConflicts] on the two records. *)
Definition recordConflict (b1 : Booking.t) (_ : nat) (b2 : Booking.t) (_ : nat)
           (conflicts : list (Booking.t * Booking.t)) : list (Booking.t * Booking.t) :=
  if sameRoomAndDate b1 b2 then
    if overlapping b1 b2 then (conflicts ++ [(b1, b2)])%list else conflicts
  else conflicts.

(** Every record paired with each later record it conflicts with, in
    position order. *)
Fixpoint conflictingPairs (arr : list Booking.t) : list (Booking.t * Booking.t) :=
  match arr with
  | [] => []
  | b1 :: rest => (map (pair b1) (filter (conflicting b1) rest) ++ conflictingPairs rest)%list
  end.

(** ** The half-open overlap rule *)

(** A requested [start, end) and an existing [start, end) overlap unless
    [requestedEnd <= existingStart] or [requestedStart >= existingEnd]. *)
Definition overlap (requestedStart requestedEnd existingStart existingEnd : string) : Prop :=
  ~ (str_le requestedEnd existingStart = true \/ str_ge requestedStart existingEnd = true).

Definition sampleBooking (roomId date startTime endTime : string) : Booking.t :=
  Booking.mk "Algebra" "" date startTime endTime 30 "" noFacilities
             (Room.mk roomId "Main" 50 1 noFacilities) "BK1" "t0".

(** ** Views of the rooms graph used in the statements *)

Definition ids (rooms : list Room.t) : list string := map Room.room_id rooms.

(** Keys and room records of the graph, adjacency left aside. *)
Definition skeleton (g : RoomsGraph) : list (string * Room.t) :=
  map (fun kv => (fst kv, Node.room (snd kv))) g.

(** [roomsGraph.get(k).adjacentRooms], empty for a missing key. *)
Definition adjacentOf (g : RoomsGraph) (k : string) : list string :=
  match JsMap.get k g with
  | Some n => Node.adjacentRooms n
  | None => []
  end.

(** The last room of the list that carries the identifier [k]. *)
Definition lastWithId (k : string) (rooms : list Room.t) : option Room.t :=
  find (fun r => String.eqb (Room.room_id r) k) (rev rooms).

(** The two adjacency rules together. *)
Definition linked (room1 room2 : Room.t) : bool :=
  sameBuilding room1 room2
  || similarCapacity (Room.capacity room1) (Room.capacity room2).

(** The identifiers of the rooms of [rooms] other than [a] that are linked
    to [a], in the order of [rooms]. *)
Definition neighbours (a : Room.t) (rooms : list Room.t) : list string :=
  ids (filter (fun b => negb (String.eqb (Room.room_id b) (Room.room_id a)) && linked a b)
              rooms).

(** [|candidate.capacity - request.capacity|] *)
Definition capacityDiff (requirements : Req.t) (node : Node.t) : Z :=
  Z.abs (Room.capacity (Node.room node) - Req.capacity requirements).

(** ** Sample requests and states *)

Definition sampleRequest : Req.t :=
  Req.mk "Algebra" "Noether" "2025-01-01" "09:00" "10:00" 48 "" noFacilities.

(** Node "101" of the sample graph, the room the sample request gets. *)
Definition sampleWinner : Node.t :=
  Node.mk (Room.mk "101" "Main" 50 1 (Facilities.mk true false true true true false))
          ["102"; "201"; "301"].

(** Three rooms of capacities 100, 60 and 50, in that order. *)
Definition threeRooms : list Room.t :=
  [ Room.mk "A" "North" 100 1 noFacilities;
    Room.mk "B" "South" 60 1 noFacilities;
    Room.mk "C" "West" 50 1 noFacilities ].

Definition threeRoomsState : State :=
  buildRoomsGraph (with_allRooms threeRooms initialState).

(** A ledger holding one booking of room "101" on 2025-01-01, 09:00-10:00. *)
Definition bookedState : State :=
  with_schedulesArray [sampleBooking "101" "2025-01-01" "09:00" "10:00"] sampleState.

Definition sampleEnv : Env := mkEnv "t0" "BK1" "t1" "t2".




(** A second room "101", in another building than the sample one, the
    state after it was added to the sample rooms, and a request for its
    capacity. *)
Definition twinRoom : Room.t := Room.mk "101" "Science" 35 2 noFacilities.

Definition twinState : State := fst (handleAddRoomSubmit "t0" twinRoom sampleState).

Definition twinRequest : Req.t :=
  Req.mk "Algebra" "Noether" "2025-01-01" "09:00" "10:00" 35 "" noFacilities.

(** ** What the two adjacency builders are compared on *)

(** Room identifiers with their adjacency lists, in node order. *)
Definition View : Type := list (string * list string).

Definition viewOfGraph (g : RoomsGraph) : View :=
  map (fun kv => (fst kv, Node.adjacentRooms (snd kv))) g.

Definition viewOfNodes (ns : list Vis.Node) : View :=
  map (fun n => (Vis.id n, Vis.adjacentRooms n)) ns.

(** A push onto, and a membership test in, the list at position [i]. *)
Definition vpush (i : nat) (x : string) (w : View) : View :=
  Vis.updateAt i (fun e => (fst e, snd e ++ [x])%list) w.

Definition vincludes (i : nat) (x : string) (w : View) : bool :=
  match nth_error w i with
  | Some e => existsb (String.eqb x) (snd e)
  | None => false
  end.

(** ** loadRooms, loadSchedule and the start of the application *)

(** [loadRooms]: [allRooms = data.rooms || []] and its copy to the cache,
    or, when the fetch fails, the cached rooms if there are any; then the
    graph is rebuilt. *)
Definition loadRooms (response : Fetch (list Room.t)) (s : State) : State :=
  let s1 :=
    match response with
    | Fetched payload =>
        let rooms := match payload with Some l => l | None => [] end in
        with_stored_rooms (Some rooms) (with_allRooms rooms s)
    | FetchFailed =>
        match stored_rooms s with
        | Some savedRooms => with_allRooms savedRooms s
        | None => s
        end
    end in
  buildRoomsGraph s1.

(** [loadSchedule], the same for the ledger. *)
Definition loadSchedule (response : Fetch (list Booking.t)) (s : State) : State :=
  match response with
  | Fetched payload =>
      let schedules := match payload with Some l => l | None => [] end in
      with_stored_schedules (Some schedules) (with_schedulesArray schedules s)
  | FetchFailed =>
      match stored_schedules s with
      | Some savedSchedules => with_schedulesArray savedSchedules s
      | None => s
      end
  end.

Definition initializeSampleDataOffline (now : string) (s : State) : State :=
  let s1 := with_stored_rooms (Some sampleRooms) (with_allRooms sampleRooms s) in
  addLog now "info" "Initialized with sample classroom data (offline mode)"
         (buildRoomsGraph s1).

(** [initializeOfflineMode]: the three cached items are read first, then
    applied in turn. *)
Definition initializeOfflineMode (now : string) (s : State) : State :=
  let savedRooms := stored_rooms s in
  let savedSchedules := stored_schedules s in
  let savedLogs := stored_logs s in
  let s1 :=
    match savedRooms with
    | Some rooms => buildRoomsGraph (with_allRooms rooms s)
    | None => initializeSampleDataOffline now s
    end in
  let s2 :=
    match savedSchedules with
    | Some schedules => with_schedulesArray schedules s1
    | None => s1
    end in
  match savedLogs with
  | Some logs => with_logsQueue logs s2
  | None => s2
  end.

(** The answer to [POST /reset]: [response.ok] with what the following
    [loadRooms] fetched, a response that is not ok, or a failed request. *)
Inductive ResetResponse : Type :=
  | ResetOk (reload : Fetch (list Room.t))
  | ResetNotOk
  | ResetFailed.

Definition initializeSampleData (now : string) (response : ResetResponse) (s : State) : State :=
  match response with
  | ResetOk reload =>
      addLog now "info" "Initialized with sample data from server" (loadRooms reload s)
  | ResetNotOk => s
  | ResetFailed => initializeSampleDataOffline now s
  end.

(** What the remote service answers during [initializeApp]. *)
Record Responses : Type := mkResponses {
  rooms_response : Fetch (list Room.t);
  schedule_response : Fetch (list Booking.t);
  logs_response : Fetch (list Log.t);
  reset_response : ResetResponse
}.

(** The [try] block of [initializeApp]; the loaders catch their own fetch
    failures, so its [catch] is not reached by them. *)
Definition initializeApp (now : string) (responses : Responses) (s : State) : State :=
  let s1 := loadRooms (rooms_response responses) s in
  let s2 := loadSchedule (schedule_response responses) s1 in
  let s3 := loadLogs (logs_response responses) s2 in
  let s4 := buildRoomsGraph s3 in
  match allRooms s4 with
  | [] => initializeSampleData now (reset_response responses) s4
  | _ :: _ => s4
  end.

(** ** The figures of updateDashboard *)

(** [new Set(array)]: the distinct elements in order of first occurrence. *)
Definition setOf (l : list string) : list string :=
  fold_left (fun acc x => if existsb (String.eqb x) acc then acc else (acc ++ [x])%list) l [].

(** [new Set(schedulesArray.map(s => s.room.room_id)).size] *)
Definition roomsWithBookings (s : State) : nat :=
  List.length (setOf (map (fun b => Room.room_id (Booking.room b)) (schedulesArray s))).

(** [array.slice(-n)] *)
Definition sliceLast {A : Type} (n : nat) (l : list A) : list A :=
  skipn (List.length l - n) l.

(** [schedulesArray.slice(-5).reverse()] *)
Definition recentAllocations (s : State) : list Booking.t :=
  rev (sliceLast 5 (schedulesArray s)).

(** [logsQueue.slice(0, 5)] *)
Definition recentLogs (s : State) : list Log.t :=
  firstn 5 (logsQueue s).

(** What [updateDashboard] shows, but for the utilization percentage: that
    is [Math.round] of a floating-point quotient of [rooms_with_bookings]
    by [total_rooms]. *)
Record Dashboard : Type := mkDashboard {
  total_rooms : nat;
  total_bookings : nat;
  rooms_with_bookings : nat;
  conflicts_count : nat;
  recent_allocations : list Booking.t;
  system_activity : list Log.t
}.

Definition updateDashboard (s : State) : Dashboard :=
  mkDashboard (List.length (allRooms s))
              (List.length (schedulesArray s))
              (roomsWithBookings s)
              (List.length (snd (detectConflicts s)))
              (recentAllocations s)
              (recentLogs s).

(** ** Operations of a session *)

Inductive Op : Type :=
  | OpInitializeApp (now : string) (responses : Responses)
  | OpInitializeOfflineMode (now : string)
  | OpLoadRooms (response : Fetch (list Room.t))
  | OpLoadSchedule (response : Fetch (list Booking.t))
  | OpLoadLogs (response : Fetch (list Log.t))
  | OpSubmitAllocation (env : Env) (formData : Req.t)
  | OpAddRoom (now : string) (newRoom : Room.t)
  | OpAddLog (now type message : string)
  | OpClearLogs (now : string).

Definition step (s : State) (op : Op) : State :=
  match op with
  | OpInitializeApp now responses => initializeApp now responses s
  | OpInitializeOfflineMode now => initializeOfflineMode now s
  | OpLoadRooms response => loadRooms response s
  | OpLoadSchedule response => loadSchedule response s
  | OpLoadLogs response => loadLogs response s
  | OpSubmitAllocation env formData => fst (handleAllocationSubmit env formData s)
  | OpAddRoom now newRoom => fst (handleAddRoomSubmit now newRoom s)
  | OpAddLog now type message => addLog now type message s
  | OpClearLogs now => clearLogs now s
  end.

Definition run (ops : list Op) (s : State) : State := fold_left step ops s.

(** The graph is the one [buildRoomsGraph] makes of the current rooms. *)
Definition graphSynced (s : State) : Prop :=
  roomsGraph s = buildGraphOf (allRooms s).

(** The ledger, and the cached ledger if any, hold no conflicting pair. *)
Definition conflictFree (s : State) : Prop :=
  conflictingPairs (schedulesArray s) = [] /\
  forall l, stored_schedules s = Some l -> conflictingPairs l = [].

(** What a successful fetch leaves in the global, [data.items || []]; a
    failed fetch brings nothing. *)
Definition fetchedItems {A : Type} (response : Fetch (list A)) : option (list A) :=
  match response with
  | Fetched (Some l) => Some l
  | Fetched None => Some []
  | FetchFailed => None
  end.

(** The schedule the operation takes from the remote service, if it takes
    one. *)
Definition fetchedSchedule (op : Op) : option (list Booking.t) :=
  match op with
  | OpLoadSchedule response => fetchedItems response
  | OpInitializeApp _ responses => fetchedItems (schedule_response responses)
  | _ => None
  end.

(** A schedule the operation takes from the remote service holds no
    conflicting pair: [detectConflicts] would find nothing in it. *)
Definition fetchedScheduleFree (op : Op) : Prop :=
  forall l, fetchedSchedule op = Some l -> conflictsOf l = [].

(** A schedule the operation takes from the remote service lists the
    booking. *)
Definition keepsBooking (b : Booking.t) (op : Op) : Prop :=
  forall l, fetchedSchedule op = Some l -> In b l.

(** The booking is in the ledger and in the cached ledger. *)
Definition bookingHeld (b : Booking.t) (s : State) : Prop :=
  In b (schedulesArray s) /\
  exists l, stored_schedules s = Some l /\ In b l.

(** The log queue, and the cached queue if any, hold at most 100 entries. *)
Definition logsBounded (s : State) : Prop :=
  queue_bounded s /\
  forall l, stored_logs s = Some l -> (List.length l <= 100)%nat.

(** The operation brings at most 100 log entries from the remote service. *)
Definition fetchedLogsBounded (op : Op) : Prop :=
  match op with
  | OpLoadLogs (Fetched (Some l)) => (List.length l <= 100)%nat
  | OpInitializeApp _ responses =>
      match logs_response responses with
      | Fetched (Some l) => (List.length l <= 100)%nat
      | _ => True
      end
  | _ => True
  end.

(** Room identity as the duplicate check of [handleAddRoomSubmit] sees it. *)
Definition roomKeys (rooms : list Room.t) : list (string * string) :=
  map (fun r => (Room.room_id r, Room.building r)) rooms.

(** ** The edges of the visualizer, pair by pair *)

Definition edgeOf (i j : nat) (room1 room2 : Room.t) : list Vis.Edge :=
  if sameBuilding room1 room2 then [Vis.mkEdge i j Vis.ByBuilding 2]
  else if similarCapacity (Room.capacity room1) (Room.capacity room2)
       then [Vis.mkEdge i j Vis.ByCapacity 1]
       else [].

Fixpoint rowEdges (i : nat) (room1 : Room.t) (j : nat) (rest : list Room.t) : list Vis.Edge :=
  match rest with
  | [] => []
  | room2 :: rest' => (edgeOf i j room1 room2 ++ rowEdges i room1 (Datatypes.S j) rest')%list
  end.

Fixpoint pairEdges (i : nat) (rooms : list Room.t) : list Vis.Edge :=
  match rooms with
  | [] => []
  | room1 :: rest =>
      (rowEdges i room1 (Datatypes.S i) rest ++ pairEdges (Datatypes.S i) rest)%list
  end.

(** The cache holds the rooms and the ledger of the session, and nothing
    is cached only while they are empty. *)
Definition cacheMirrors (s : State) : Prop :=
  match stored_rooms s with
  | Some rooms => rooms = allRooms s
  | None => allRooms s = []
  end /\
  match stored_schedules s with
  | Some schedules => schedules = schedulesArray s
  | None => schedulesArray s = []
  end.

(** Each of the rooms and the ledger is either empty or equal to its cached
    copy: what holds from the page load on, whatever was cached. *)
Definition cacheCovers (s : State) : Prop :=
  (allRooms s = [] \/ stored_rooms s = Some (allRooms s)) /\
  (schedulesArray s = [] \/ stored_schedules s = Some (schedulesArray s)).

(** The two operations a page load starts with: [initializeApp], and
    [initializeOfflineMode] from its [catch]. *)
Definition initializes (op : Op) : Prop :=
  match op with
  | OpInitializeApp _ _ | OpInitializeOfflineMode _ => True
  | _ => False
  end.

(** The end points of an edge, and what a node shows of its room. *)
Definition endpoints (e : Vis.Edge) : nat * nat := (Vis.from e, Vis.to e).

Definition nodeData (n : Vis.Node) : string * string * Z * Facilities.t :=
  (Vis.id n, Vis.building n, Vis.capacity n, Vis.facilities n).

Definition roomData (r : Room.t) : string * string * Z * Facilities.t :=
  (Room.room_id r, Room.building r, Room.capacity r, Room.facilities r).

(** * Properties *)

(** ** The string order *)

Lemma str_le_refl (a : string) : str_le a a = true.
Proof.
  unfold str_le, String.leb.
  pose proof (String.compare_antisym a a) as H.
  destruct (String.compare a a); simpl in H; try discriminate; reflexivity.
Qed.

Lemma str_lt_not_ge (a b : string) : str_lt a b = negb (str_ge a b).
Proof.
  unfold str_lt, str_ge, String.ltb, String.leb.
  rewrite (String.compare_antisym b a).
  destruct (String.compare a b); reflexivity.
Qed.

Lemma str_ge_le (a b : string) : str_ge a b = str_le b a.
Proof. reflexivity. Qed.

Lemma str_lt_irrefl (a : string) : str_lt a a = false.
Proof.
  rewrite str_lt_not_ge. unfold str_ge. fold (str_le a a).
  now rewrite str_le_refl.
Qed.

(** The quotient test on positive capacities is the rational inequality
    the specification writes. *)
Lemma quotient_le_quarter_Q (d m : Z) :
  0 < m ->
  quotient_le_quarter d m = true <-> (inject_Z d / inject_Z m <= 1 # 4)%Q.
Proof.
  intros Hm. unfold quotient_le_quarter.
  destruct (Z.compare_spec m 0) as [H|H|H]; try lia.
  rewrite Z.leb_le.
  assert (Hpos : (0 < inject_Z m)%Q) by (unfold Qlt; simpl; lia).
  split; intros Hle.
  - apply Qle_shift_div_r; [exact Hpos|].
    unfold Qle, Qmult, inject_Z. cbn -[Z.mul]. lia.
  - assert (Hd : (inject_Z d <= (1 # 4) * inject_Z m)%Q).
    { setoid_replace (inject_Z d) with ((inject_Z d / inject_Z m) * inject_Z m)%Q.
      - apply Qmult_le_compat_r; [exact Hle | apply Qlt_le_weak; exact Hpos].
      - field. intros E. rewrite E in Hpos. inversion Hpos. }
    revert Hd. unfold Qle, Qmult, inject_Z. cbn -[Z.mul]. lia.
Qed.

Lemma similarCapacity_sym (c1 c2 : Z) : similarCapacity c1 c2 = similarCapacity c2 c1.
Proof.
  unfold similarCapacity.
  replace (Z.abs (c2 - c1)) with (Z.abs (c1 - c2)) by lia.
  now rewrite Z.max_comm.
Qed.

(** ** The log queue *)

Lemma logsQueue_addLog now type message s :
  logsQueue (addLog now type message s) =
  if (100 <=? List.length (logsQueue s))%nat
  then Log.mk type message now :: removelast (logsQueue s)
  else Log.mk type message now :: logsQueue s.
Proof.
  unfold addLog. cbn [logsQueue with_stored_logs with_logsQueue].
  change (List.length (Log.mk type message now :: logsQueue s))
    with (S (List.length (logsQueue s))).
  destruct (Nat.leb_spec 100 (List.length (logsQueue s))) as [H|H].
  - replace (100 <? S (List.length (logsQueue s)))%nat with true
      by (symmetry; apply Nat.ltb_lt; lia).
    destruct (logsQueue s) as [|x q]; [simpl in H; lia | reflexivity].
  - replace (100 <? S (List.length (logsQueue s)))%nat with false
      by (symmetry; apply Nat.ltb_ge; lia).
    reflexivity.
Qed.

Lemma length_removelast {A : Type} (l : list A) :
  List.length (removelast l) = pred (List.length l).
Proof.
  rewrite removelast_firstn_len, length_firstn. lia.
Qed.

Lemma length_addLog now type message s :
  List.length (logsQueue (addLog now type message s)) =
  if (100 <=? List.length (logsQueue s))%nat
  then List.length (logsQueue s)
  else S (List.length (logsQueue s)).
Proof.
  rewrite logsQueue_addLog.
  destruct (Nat.leb_spec 100 (List.length (logsQueue s))) as [H|H]; simpl.
  - rewrite length_removelast. lia.
  - reflexivity.
Qed.

Lemma addLog_firstn now type message s :
  queue_bounded s ->
  logsQueue (addLog now type message s) =
  firstn 100 (Log.mk type message now :: logsQueue s).
Proof.
  unfold queue_bounded. intros Hb. rewrite logsQueue_addLog.
  destruct (Nat.leb_spec 100 (List.length (logsQueue s))) as [H|H].
  - assert (E : List.length (logsQueue s) = 100%nat) by lia.
    rewrite removelast_firstn_len, E. reflexivity.
  - change (firstn 100 (Log.mk type message now :: logsQueue s))
      with (Log.mk type message now :: firstn 99 (logsQueue s)).
    rewrite firstn_all2 by lia. reflexivity.
Qed.

Lemma addLog_bounded now type message s :
  queue_bounded s -> queue_bounded (addLog now type message s).
Proof.
  unfold queue_bounded. intros Hb. rewrite length_addLog.
  destruct (Nat.leb_spec 100 (List.length (logsQueue s))); lia.
Qed.

Lemma firstn_app_firstn {A : Type} (n : nat) (l1 l2 : list A) :
  firstn n (l1 ++ firstn n l2) = firstn n (l1 ++ l2).
Proof.
  rewrite !firstn_app, firstn_firstn.
  f_equal. f_equal. lia.
Qed.

Lemma addLogs_firstn es : forall s,
  queue_bounded s ->
  logsQueue (addLogs es s) = firstn 100 (rev (map entryOf es) ++ logsQueue s).
Proof.
  induction es as [|[[now type] message] es IH]; intros s Hb.
  - unfold queue_bounded in Hb.
    change (logsQueue s = firstn 100 (logsQueue s)).
    now rewrite firstn_all2.
  - change (addLogs (((now, type), message) :: es) s)
      with (addLogs es (addLog now type message s)).
    rewrite IH by now apply addLog_bounded.
    rewrite addLog_firstn by exact Hb.
    rewrite firstn_app_firstn.
    simpl. now rewrite <- app_assoc.
Qed.

Lemma addLogs_bounded es s : queue_bounded s -> queue_bounded (addLogs es s).
Proof.
  intros Hb. unfold queue_bounded. rewrite addLogs_firstn by exact Hb.
  rewrite length_firstn. lia.
Qed.

(** ** Loops *)

Lemma forEachFrom_app {A S : Type} (f : A -> nat -> S -> S) (l1 l2 : list A) :
  forall i s,
    forEachFrom f i (l1 ++ l2) s
    = forEachFrom f (i + List.length l1) l2 (forEachFrom f i l1 s).
Proof.
  induction l1 as [|a l1 IH]; intros i s; simpl.
  - now rewrite Nat.add_0_r.
  - rewrite IH. f_equal. lia.
Qed.

Lemma forEachFrom_ext {A S : Type} (f g : A -> nat -> S -> S) (l : list A) :
  forall i s,
    (forall a j s', (i <= j)%nat -> f a j s' = g a j s') ->
    forEachFrom f i l s = forEachFrom g i l s.
Proof.
  induction l as [|a l IH]; intros i s H; simpl; [reflexivity|].
  rewrite H by lia. apply IH. intros. apply H. lia.
Qed.

Lemma forEachFrom_skip {A S : Type} (f : A -> nat -> S -> S) (l : list A) :
  forall i s,
    (forall a j s', (i <= j < i + List.length l)%nat -> f a j s' = s') ->
    forEachFrom f i l s = s.
Proof.
  induction l as [|a l IH]; intros i s H; simpl; [reflexivity|].
  rewrite H by (simpl; lia). apply IH. intros. apply H. simpl. lia.
Qed.

Lemma forEachFrom_fold {A S : Type} (f : A -> S -> S) (l : list A) :
  forall i s, forEachFrom (fun a _ s => f a s) i l s = fold_left (fun s a => f a s) l s.
Proof.
  induction l as [|a l IH]; intros i s; simpl; [reflexivity|apply IH].
Qed.

(** A [for] loop over the indices of a suffix of an array is a [forEach]
    over that suffix. *)
Lemma fold_seq_nth {A S : Type} (arr : list A) (body : nat -> S -> S)
      (g : A -> nat -> S -> S) :
  (forall i a s, nth_error arr i = Some a -> body i s = g a i s) ->
  forall post pre s,
    arr = (pre ++ post)%list ->
    fold_left (fun s i => body i s) (seq (List.length pre) (List.length post)) s
    = forEachFrom g (List.length pre) post s.
Proof.
  intros Hbody. induction post as [|a post IH]; intros pre s Harr; [reflexivity|].
  cbn [List.length seq fold_left forEachFrom].
  rewrite (Hbody (List.length pre) a).
  2:{ rewrite Harr, nth_error_app2 by lia. now rewrite Nat.sub_diag. }
  specialize (IH (pre ++ [a])%list (g a (List.length pre) s)).
  rewrite length_app, Nat.add_1_r in IH. apply IH.
  now rewrite <- app_assoc.
Qed.

Lemma for_range_suffix {A S : Type} (arr : list A) (body : nat -> S -> S)
      (g : A -> nat -> S -> S) :
  (forall i a s, nth_error arr i = Some a -> body i s = g a i s) ->
  forall pre post s,
    arr = (pre ++ post)%list ->
    for_range (List.length pre) (List.length arr) body s
    = forEachFrom g (List.length pre) post s.
Proof.
  intros Hbody pre post s Harr. unfold for_range.
  replace (List.length arr - List.length pre)%nat with (List.length post)
    by (rewrite Harr, length_app; lia).
  now apply (fold_seq_nth arr).
Qed.

Lemma forPairsFrom_as_forEach {A S : Type} (arr : list A)
      (f : A -> nat -> A -> nat -> S -> S) (g : A -> nat -> S -> S) :
  (forall pre a rest s,
      arr = (pre ++ a :: rest)%list ->
      g a (List.length pre) s
      = forEachFrom (fun b j s => f a (List.length pre) b j s)
                    (Datatypes.S (List.length pre)) rest s) ->
  forall post pre s,
    arr = (pre ++ post)%list ->
    forEachFrom g (List.length pre) post s = forPairsFrom f (List.length pre) post s.
Proof.
  intros Hg. induction post as [|a post IH]; intros pre s Harr; [reflexivity|].
  cbn [forEachFrom forPairsFrom].
  rewrite (Hg pre a post s Harr).
  specialize (IH (pre ++ [a])%list).
  rewrite length_app, Nat.add_1_r in IH. apply IH.
  now rewrite <- app_assoc.
Qed.

Lemma skipn_past_prefix {A : Type} (pre : list A) (a : A) (rest : list A) :
  skipn (Datatypes.S (List.length pre)) (pre ++ a :: rest) = rest.
Proof.
  induction pre as [|x pre IH]; [reflexivity|exact IH].
Qed.

(** The two nested [for] loops, [j] starting at [i + 1]. *)
Lemma for_range_pairs {A S : Type} (arr : list A) (body : nat -> nat -> S -> S)
      (f : A -> nat -> A -> nat -> S -> S) (s : S) :
  (forall i j a b s,
      nth_error arr i = Some a -> nth_error arr j = Some b ->
      body i j s = f a i b j s) ->
  for_range 0 (List.length arr)
            (fun i s => for_range (i + 1) (List.length arr) (body i) s) s
  = forPairsFrom f 0 arr s.
Proof.
  intros Hbody.
  set (g := fun a i s =>
              forEachFrom (fun b j s => f a i b j s) (Datatypes.S i)
                          (skipn (Datatypes.S i) arr) s).
  rewrite (for_range_suffix arr _ g) with (pre := []) (post := arr); [| |reflexivity].
  - apply (forPairsFrom_as_forEach arr f g) with (pre := []); [|reflexivity].
    intros pre a rest s' Harr. unfold g.
    now rewrite Harr, skipn_past_prefix.
  - intros i a s' Hi. unfold g.
    assert (Hlt : (i < List.length arr)%nat) by (apply nth_error_Some; congruence).
    rewrite Nat.add_1_r.
    pose proof (firstn_skipn (Datatypes.S i) arr) as Hsplit.
    assert (Hl : List.length (firstn (Datatypes.S i) arr) = Datatypes.S i)
      by (rewrite length_firstn; lia).
    assert (Hb : forall j b s0, nth_error arr j = Some b -> body i j s0 = f a i b j s0)
      by (intros j b s0 Hj; now apply Hbody).
    pose proof (for_range_suffix arr (body i) (fun b j s => f a i b j s) Hb
                  (firstn (Datatypes.S i) arr) (skipn (Datatypes.S i) arr) s'
                  (eq_sym Hsplit)) as E.
    rewrite Hl in E. exact E.
Qed.

(** The two nested [forEach] with the [i >= j] guard. *)
Lemma forEach_pairs {A S : Type} (arr : list A)
      (f : A -> nat -> A -> nat -> S -> S) (s : S) :
  forEach (fun a i s =>
             forEach (fun b j s => if (j <=? i)%nat then s else f a i b j s) arr s)
          arr s
  = forPairsFrom f 0 arr s.
Proof.
  unfold forEach at 1.
  apply (forPairsFrom_as_forEach arr f _ ) with (pre := []); [|reflexivity].
  intros pre a rest s' Harr. unfold forEach.
  rewrite Harr.
  replace (pre ++ a :: rest)%list with ((pre ++ [a]) ++ rest)%list
    by now rewrite <- app_assoc.
  rewrite forEachFrom_app.
  rewrite (forEachFrom_skip _ (pre ++ [a])%list).
  2:{ intros b j s'' Hj. rewrite length_app in Hj. simpl in Hj.
      replace (j <=? List.length pre)%nat with true; [reflexivity|].
      symmetry. apply Nat.leb_le. lia. }
  rewrite length_app. simpl. rewrite Nat.add_1_r.
  apply forEachFrom_ext. intros b j s'' Hj.
  replace (j <=? List.length pre)%nat with false; [reflexivity|].
  symmetry. apply Nat.leb_gt. lia.
Qed.

(** ** detectConflicts *)

Lemma overlap_iff (s1 e1 s2 e2 : string) :
  negb (str_le e1 s2 || str_ge s1 e2) = true <-> overlap s1 e1 s2 e2.
Proof.
  unfold overlap. rewrite negb_true_iff, orb_false_iff.
  destruct (str_le e1 s2), (str_ge s1 e2); intuition congruence.
Qed.

Lemma conflicting_iff (b1 b2 : Booking.t) :
  conflicting b1 b2 = true <->
  Room.room_id (Booking.room b1) = Room.room_id (Booking.room b2) /\
  Booking.date b1 = Booking.date b2 /\
  overlap (Booking.start_time b1) (Booking.end_time b1)
          (Booking.start_time b2) (Booking.end_time b2).
Proof.
  unfold conflicting, sameRoomAndDate, overlapping.
  rewrite !andb_true_iff, !String.eqb_eq.
  change (str_le (Booking.end_time b2) (Booking.start_time b1))
    with (str_ge (Booking.start_time b1) (Booking.end_time b2)).
  rewrite overlap_iff. tauto.
Qed.

Lemma recordConflict_row (b1 : Booking.t) (i : nat) (rest : list Booking.t) :
  forall j conflicts,
    forEachFrom (fun b2 j c => recordConflict b1 i b2 j c) j rest conflicts
    = (conflicts ++ map (pair b1) (filter (conflicting b1) rest))%list.
Proof.
  induction rest as [|b2 rest IH]; intros j conflicts; simpl.
  - now rewrite app_nil_r.
  - rewrite IH. unfold recordConflict, conflicting.
    destruct (sameRoomAndDate b1 b2), (overlapping b1 b2); simpl;
      try reflexivity.
    now rewrite <- app_assoc.
Qed.

Lemma recordConflict_pairs (arr : list Booking.t) :
  forall i conflicts,
    forPairsFrom recordConflict i arr conflicts
    = (conflicts ++ conflictingPairs arr)%list.
Proof.
  induction arr as [|b1 rest IH]; intros i conflicts; simpl.
  - now rewrite app_nil_r.
  - rewrite IH, recordConflict_row. now rewrite <- app_assoc.
Qed.

Lemma conflictsOf_conflictingPairs (arr : list Booking.t) :
  conflictsOf arr = conflictingPairs arr.
Proof.
  unfold conflictsOf.
  rewrite (for_range_pairs arr (conflictAt arr) recordConflict).
  - now rewrite recordConflict_pairs.
  - intros i j b1 b2 c Hi Hj. unfold conflictAt. now rewrite Hi, Hj.
Qed.

Lemma In_conflictingPairs (arr : list Booking.t) (b1 b2 : Booking.t) :
  In (b1, b2) (conflictingPairs arr) <->
  exists i j, (i < j)%nat /\ nth_error arr i = Some b1 /\ nth_error arr j = Some b2
              /\ conflicting b1 b2 = true.
Proof.
  induction arr as [|b rest IH]; simpl.
  - split; [tauto|]. intros (i & j & _ & Hi & _). destruct i; discriminate.
  - rewrite in_app_iff, IH, in_map_iff. split.
    + intros [(x & Hx & Hin)|(i & j & Hij & Hi & Hj & Hc)].
      * inversion Hx; subst. apply filter_In in Hin as [Hin Hc].
        apply In_nth_error in Hin as [j Hj].
        exists 0%nat, (Datatypes.S j). repeat split; [lia|exact Hj|exact Hc].
      * exists (Datatypes.S i), (Datatypes.S j). repeat split; [lia|exact Hi|exact Hj|exact Hc].
    + intros (i & j & Hij & Hi & Hj & Hc).
      destruct j as [|j]; [lia|]. simpl in Hj.
      destruct i as [|i]; simpl in Hi.
      * left. inversion Hi; subst. exists b2. split; [reflexivity|].
        apply filter_In. split; [now apply nth_error_In with j|exact Hc].
      * right. exists i, j. repeat split; [lia|exact Hi|exact Hj|exact Hc].
Qed.

(** ** checkAvailability and the filters of allocateRoom *)

Lemma clashes_iff roomId date startTime endTime (booking : Booking.t) :
  clashes roomId date startTime endTime booking = true <->
  Room.room_id (Booking.room booking) = roomId /\
  Booking.date booking = date /\
  overlap startTime endTime (Booking.start_time booking) (Booking.end_time booking).
Proof.
  unfold clashes.
  destruct (String.eqb_spec (Room.room_id (Booking.room booking)) roomId) as [Hr|Hr];
    cbn [negb].
  - destruct (String.eqb_spec (Booking.date booking) date) as [Hd|Hd]; cbn [negb].
    + rewrite overlap_iff. tauto.
    + split; [discriminate|tauto].
  - split; [discriminate|tauto].
Qed.

Lemma checkAvailability_false_iff s roomId date startTime endTime :
  checkAvailability s roomId date startTime endTime = false <->
  exists booking,
    In booking (schedulesArray s) /\
    Room.room_id (Booking.room booking) = roomId /\
    Booking.date booking = date /\
    overlap startTime endTime (Booking.start_time booking) (Booking.end_time booking).
Proof.
  unfold checkAvailability. rewrite negb_false_iff, existsb_exists.
  split; intros (b & Hin & H); exists b; (split; [exact Hin|]); now apply clashes_iff.
Qed.

Lemma checkAvailability_true_iff s roomId date startTime endTime :
  checkAvailability s roomId date startTime endTime = true <->
  forall booking,
    In booking (schedulesArray s) ->
    Room.room_id (Booking.room booking) = roomId ->
    Booking.date booking = date ->
    str_le endTime (Booking.start_time booking) = true
    \/ str_ge startTime (Booking.end_time booking) = true.
Proof.
  split.
  - intros Hav b Hin Hr Hd.
    destruct (str_le endTime (Booking.start_time b)) eqn:E1; [now left|].
    destruct (str_ge startTime (Booking.end_time b)) eqn:E2; [now right|].
    exfalso.
    assert (Hf : checkAvailability s roomId date startTime endTime = false).
    { apply checkAvailability_false_iff. exists b. repeat split; try assumption.
      unfold overlap. intros [H|H]; congruence. }
    congruence.
  - intros Hall.
    destruct (checkAvailability s roomId date startTime endTime) eqn:E; [reflexivity|].
    apply checkAvailability_false_iff in E.
    destruct E as (b & Hin & Hr & Hd & Hov).
    exfalso. apply Hov. now apply Hall.
Qed.

Lemma facilitiesMatch_iff (required : Facilities.t) (room : Room.t) :
  facilitiesMatch required room = true <->
  forall f, Facilities.get required f = true ->
            Facilities.get (Room.facilities room) f = true.
Proof.
  unfold facilitiesMatch, Facilities.entries.
  rewrite forallb_forall. split.
  - intros H f Hf.
    assert (Hin : In (f, Facilities.get required f)
                     (map (fun f => (f, Facilities.get required f))
                          [projector; lab; accessible; whiteboard; audio; smartboard])).
    { apply in_map_iff. exists f. split; [reflexivity|].
      destruct f; simpl; tauto. }
    specialize (H _ Hin). cbn [fst snd] in H. rewrite Hf in H. cbn [andb] in H.
    now apply negb_true_iff, negb_false_iff in H.
  - intros H entry Hin. apply in_map_iff in Hin as (f & <- & _).
    cbn [fst snd].
    destruct (Facilities.get required f) eqn:E; [|reflexivity].
    now rewrite (H f E).
Qed.

(** What passing the four filters says of an entry of the Map. *)
Lemma suitable_iff s (requirements : Req.t) (roomId : string) (node : Node.t) :
  suitable s requirements (roomId, node) = true <->
  Req.capacity requirements <= Room.capacity (Node.room node) /\
  (Req.building requirements <> "" ->
   Room.building (Node.room node) = Req.building requirements) /\
  (forall f, Facilities.get (Req.facilities requirements) f = true ->
             Facilities.get (Room.facilities (Node.room node)) f = true) /\
  (forall booking,
      In booking (schedulesArray s) ->
      Room.room_id (Booking.room booking) = roomId ->
      Booking.date booking = Req.date requirements ->
      str_le (Req.end_time requirements) (Booking.start_time booking) = true
      \/ str_ge (Req.start_time requirements) (Booking.end_time booking) = true).
Proof.
  unfold suitable. cbn [fst snd].
  rewrite <- facilitiesMatch_iff, <- checkAvailability_true_iff.
  destruct (Z.ltb_spec (Room.capacity (Node.room node)) (Req.capacity requirements)) as [Hc|Hc].
  { split; [discriminate|]. intros [H _]. lia. }
  assert (Hb : truthy (Req.building requirements)
               && negb (String.eqb (Room.building (Node.room node)) (Req.building requirements))
               = false
               <-> (Req.building requirements <> "" ->
                    Room.building (Node.room node) = Req.building requirements)).
  { destruct (Req.building requirements) as [|c rest] eqn:E; cbn [truthy andb].
    - split; [intros _ H; now contradiction H|reflexivity].
    - rewrite negb_false_iff, String.eqb_eq. split; [tauto|].
      intros H. apply H. discriminate. }
  destruct (truthy (Req.building requirements)
            && negb (String.eqb (Room.building (Node.room node)) (Req.building requirements))).
  { split; [discriminate|]. intros (_ & H & _). apply Hb in H. discriminate. }
  destruct (facilitiesMatch (Req.facilities requirements) (Node.room node)); cbn [negb].
  2:{ split; [discriminate|]. intros (_ & _ & H & _). discriminate. }
  destruct (checkAvailability s roomId (Req.date requirements)
              (Req.start_time requirements) (Req.end_time requirements)); cbn [negb].
  - split; [|reflexivity]. intros _. repeat split; try assumption; try reflexivity.
    now apply Hb.
  - split; [discriminate|]. intros (_ & _ & _ & H). discriminate.
Qed.

(** [addLog] touches the log queue and its cached copy only. *)
Lemma addLog_frame now type message s :
  allRooms (addLog now type message s) = allRooms s /\
  roomsGraph (addLog now type message s) = roomsGraph s /\
  schedulesArray (addLog now type message s) = schedulesArray s.
Proof. repeat split. Qed.

Lemma suitable_addLog now type message s requirements entry :
  suitable (addLog now type message s) requirements entry
  = suitable s requirements entry.
Proof. reflexivity. Qed.

Lemma suitableRooms_addLog now type message s requirements :
  suitableRooms (addLog now type message s) requirements = suitableRooms s requirements.
Proof. reflexivity. Qed.

Lemma allocateRoom_unfold now bookingId requirements s :
  snd (allocateRoom now bookingId requirements s) =
  match suitableRooms s requirements with
  | [] => Failure noRoomsMessage
  | first :: rest => Success (fold_left (closest requirements) rest first) bookingId
  end.
Proof.
  unfold allocateRoom. rewrite suitableRooms_addLog.
  destruct (suitableRooms s requirements); reflexivity.
Qed.

Lemma suitableRooms_nil_iff s requirements :
  suitableRooms s requirements = [] <->
  forall entry, In entry (roomsGraph s) -> suitable s requirements entry = false.
Proof.
  unfold suitableRooms. split.
  - intros H entry Hin.
    destruct (suitable s requirements entry) eqn:E; [|reflexivity].
    assert (Hf : In entry (filter (suitable s requirements) (roomsGraph s)))
      by (apply filter_In; now split).
    apply (in_map snd) in Hf. rewrite H in Hf. contradiction.
  - intros H.
    destruct (filter (suitable s requirements) (roomsGraph s)) as [|e l] eqn:E;
      [reflexivity|].
    assert (Hin : In e (filter (suitable s requirements) (roomsGraph s)))
      by (rewrite E; now left).
    apply filter_In in Hin as [Hin Hs]. rewrite (H e Hin) in Hs. discriminate.
Qed.

(** ** The Map *)

Section JsMapFacts.
Context {V : Type}.
Implicit Types (m : JsMap.t V) (k : string) (v : V).

Lemma get_set k0 v m k :
  JsMap.get k (JsMap.set k0 v m) = if String.eqb k0 k then Some v else JsMap.get k m.
Proof.
  induction m as [|[k' v'] m IH]; simpl.
  - reflexivity.
  - destruct (String.eqb_spec k' k0) as [->|Hk]; simpl.
    + destruct (String.eqb k0 k); reflexivity.
    + destruct (String.eqb_spec k' k) as [->|Hk'].
      * destruct (String.eqb_spec k0 k); [congruence|reflexivity].
      * exact IH.
Qed.

Lemma keys_set_present k v m :
  In k (JsMap.keys m) -> JsMap.keys (JsMap.set k v m) = JsMap.keys m.
Proof.
  induction m as [|[k' v'] m IH]; simpl; [tauto|].
  intros Hin. destruct (String.eqb_spec k' k) as [->|Hk]; simpl; [reflexivity|].
  f_equal. apply IH. destruct Hin; [congruence|assumption].
Qed.

Lemma set_absent k v m :
  ~ In k (JsMap.keys m) -> JsMap.set k v m = (m ++ [(k, v)])%list.
Proof.
  induction m as [|[k' v'] m IH]; simpl; [reflexivity|].
  intros Hin. destruct (String.eqb_spec k' k) as [->|Hk]; [tauto|].
  f_equal. apply IH. tauto.
Qed.

Lemma NoDup_keys_set k v m :
  NoDup (JsMap.keys m) -> NoDup (JsMap.keys (JsMap.set k v m)).
Proof.
  intros Hnd. destruct (in_dec string_dec k (JsMap.keys m)) as [Hin|Hin].
  - now rewrite keys_set_present.
  - rewrite set_absent by exact Hin. unfold JsMap.keys. rewrite map_app. simpl.
    apply NoDup_app; [exact Hnd|repeat constructor; tauto|].
    intros x Hx [<-|[]]. contradiction.
Qed.

Lemma keys_update k (f : V -> V) m : JsMap.keys (JsMap.update k f m) = JsMap.keys m.
Proof.
  unfold JsMap.keys, JsMap.update. rewrite map_map. apply map_ext.
  intros [k' v']. simpl. destruct (String.eqb k' k); reflexivity.
Qed.

Lemma get_update k0 (f : V -> V) m k :
  JsMap.get k (JsMap.update k0 f m)
  = if String.eqb k k0 then option_map f (JsMap.get k m) else JsMap.get k m.
Proof.
  induction m as [|[k' v'] m IH]; simpl.
  - destruct (String.eqb k k0); reflexivity.
  - destruct (String.eqb_spec k' k0) as [->|Hk]; simpl.
    + destruct (String.eqb_spec k0 k) as [->|Hk'].
      * now rewrite String.eqb_refl.
      * exact IH.
    + destruct (String.eqb_spec k' k) as [->|Hk'].
      * destruct (String.eqb_spec k k0); [congruence|reflexivity].
      * exact IH.
Qed.

Lemma get_In k v m : JsMap.get k m = Some v -> In (k, v) m.
Proof.
  induction m as [|[k' v'] m IH]; simpl; [discriminate|].
  destruct (String.eqb_spec k' k) as [->|Hk].
  - intros [= ->]. now left.
  - intros H. right. now apply IH.
Qed.

Lemma In_get k v m : NoDup (JsMap.keys m) -> In (k, v) m -> JsMap.get k m = Some v.
Proof.
  induction m as [|[k' v'] m IH]; simpl; [tauto|].
  intros Hnd [[= -> ->]|Hin].
  - now rewrite String.eqb_refl.
  - inversion Hnd as [|? ? Hnot Hnd']; subst.
    destruct (String.eqb_spec k' k) as [->|Hk].
    + exfalso. apply Hnot. apply (in_map fst) in Hin. exact Hin.
    + now apply IH.
Qed.

Lemma get_Some_key k m : In k (JsMap.keys m) -> exists v, JsMap.get k m = Some v.
Proof.
  induction m as [|[k' v'] m IH]; simpl; [tauto|].
  intros Hin. destruct (String.eqb_spec k' k) as [->|Hk]; [eauto|].
  apply IH. destruct Hin; [congruence|assumption].
Qed.

Lemma update_absent k (f : V -> V) m :
  ~ In k (JsMap.keys m) -> JsMap.update k f m = m.
Proof.
  induction m as [|[k' v'] m IH]; simpl; [reflexivity|].
  intros Hin. destruct (String.eqb_spec k' k) as [->|Hk]; [tauto|].
  f_equal. apply IH. tauto.
Qed.

Lemma get_None_key k m : ~ In k (JsMap.keys m) -> JsMap.get k m = None.
Proof.
  induction m as [|[k' v'] m IH]; simpl; [reflexivity|].
  intros Hin. destruct (String.eqb_spec k' k) as [->|Hk]; [tauto|].
  apply IH. tauto.
Qed.
End JsMapFacts.

(** ** The nodes of the rooms graph *)

Lemma find_app {A : Type} (p : A -> bool) (l1 l2 : list A) :
  find p (l1 ++ l2) = match find p l1 with Some x => Some x | None => find p l2 end.
Proof.
  induction l1 as [|a l1 IH]; simpl; [reflexivity|].
  destruct (p a); [reflexivity|exact IH].
Qed.

Lemma addNodes_from (rooms : list Room.t) :
  forall i (g : RoomsGraph),
    let g' := forEachFrom (fun room _ g => JsMap.set (Room.room_id room) (Node.mk room []) g)
                          i rooms g in
    (NoDup (JsMap.keys g) -> NoDup (JsMap.keys g')) /\
    (forall k, JsMap.get k g' =
               match lastWithId k rooms with
               | Some r => Some (Node.mk r [])
               | None => JsMap.get k g
               end).
Proof.
  induction rooms as [|r rooms IH]; intros i g; cbn zeta.
  - split; [tauto|reflexivity].
  - cbn [forEachFrom].
    destruct (IH (Datatypes.S i) (JsMap.set (Room.room_id r) (Node.mk r []) g)) as [Hnd Hget].
    split.
    + intros H. apply Hnd. now apply NoDup_keys_set.
    + intros k. rewrite Hget. unfold lastWithId. cbn [rev]. rewrite find_app.
      destruct (find _ (rev rooms)); [reflexivity|].
      cbn [find]. rewrite get_set.
      destruct (String.eqb (Room.room_id r) k); reflexivity.
Qed.

Lemma addNodes_NoDup (rooms : list Room.t) :
  NoDup (JsMap.keys (addNodes rooms JsMap.empty)).
Proof.
  apply (addNodes_from rooms 0 JsMap.empty). constructor.
Qed.

Lemma addNodes_get (rooms : list Room.t) (k : string) :
  JsMap.get k (addNodes rooms JsMap.empty)
  = option_map (fun r => Node.mk r []) (lastWithId k rooms).
Proof.
  unfold addNodes, forEach.
  rewrite (proj2 (addNodes_from rooms 0 JsMap.empty) k).
  destruct (lastWithId k rooms); reflexivity.
Qed.

Lemma addNodes_distinct (rooms : list Room.t) :
  NoDup (ids rooms) ->
  forall i (g : RoomsGraph),
    (forall r, In r rooms -> ~ In (Room.room_id r) (JsMap.keys g)) ->
    forEachFrom (fun room _ g => JsMap.set (Room.room_id room) (Node.mk room []) g) i rooms g
    = (g ++ map (fun r => (Room.room_id r, Node.mk r [])) rooms)%list.
Proof.
  induction rooms as [|r rooms IH]; intros Hnd i g Hfresh; cbn [forEachFrom map].
  - now rewrite app_nil_r.
  - inversion Hnd as [|? ? Hnot Hnd']; subst.
    rewrite set_absent by (apply Hfresh; now left).
    rewrite IH; [now rewrite <- app_assoc|exact Hnd'|].
    intros r' Hin. unfold JsMap.keys. rewrite map_app, in_app_iff. simpl.
    intros [H|[H|[]]].
    + apply (Hfresh r'); [now right|exact H].
    + apply Hnot. rewrite H. now apply in_map.
Qed.

Lemma skeleton_pushAdjacent k x g : skeleton (pushAdjacent k x g) = skeleton g.
Proof.
  unfold skeleton, pushAdjacent, JsMap.update. rewrite map_map. apply map_ext.
  intros [k' n]. simpl. destruct (String.eqb k' k); reflexivity.
Qed.

Lemma skeleton_connect room1 room2 g : skeleton (connect room1 room2 g) = skeleton g.
Proof.
  unfold connect.
  repeat match goal with
         | |- context [if ?c then _ else _] => destruct c
         end; rewrite ?skeleton_pushAdjacent; reflexivity.
Qed.

Lemma forEachFrom_invariant {A S : Type} (P : S -> Prop) (f : A -> nat -> S -> S)
      (l : list A) :
  (forall a i s, P s -> P (f a i s)) ->
  forall i s, P s -> P (forEachFrom f i l s).
Proof.
  intros Hf. induction l as [|a l IH]; intros i s Hs; simpl; [exact Hs|].
  apply IH. now apply Hf.
Qed.

Lemma forPairsFrom_invariant {A S : Type} (P : S -> Prop)
      (f : A -> nat -> A -> nat -> S -> S) (l : list A) :
  (forall a i b j s, P s -> P (f a i b j s)) ->
  forall i s, P s -> P (forPairsFrom f i l s).
Proof.
  intros Hf. induction l as [|a l IH]; intros i s Hs; simpl; [exact Hs|].
  apply IH. apply forEachFrom_invariant; [|exact Hs].
  intros. now apply Hf.
Qed.

Lemma addEdges_pairs rooms g :
  addEdges rooms g = forPairsFrom (fun a _ b _ g => connect a b g) 0 rooms g.
Proof.
  unfold addEdges. apply forEach_pairs.
Qed.

Lemma skeleton_addEdges rooms g : skeleton (addEdges rooms g) = skeleton g.
Proof.
  rewrite addEdges_pairs.
  apply (forPairsFrom_invariant (fun g' => skeleton g' = skeleton g)); [|reflexivity].
  intros a i b j s Hs. now rewrite skeleton_connect.
Qed.

Lemma keys_skeleton (g : RoomsGraph) : JsMap.keys (skeleton g) = JsMap.keys g.
Proof.
  unfold skeleton, JsMap.keys. rewrite map_map. reflexivity.
Qed.

Lemma get_skeleton (g : RoomsGraph) k :
  JsMap.get k (skeleton g) = option_map Node.room (JsMap.get k g).
Proof.
  induction g as [|[k' n] g IH]; simpl; [reflexivity|].
  destruct (String.eqb k' k); [reflexivity|exact IH].
Qed.

Lemma lastWithId_Some k rooms r :
  lastWithId k rooms = Some r ->
  Room.room_id r = k /\
  exists pre post, rooms = (pre ++ r :: post)%list /\ ~ In k (ids post).
Proof.
  unfold lastWithId. induction rooms as [|x rooms IH] using rev_ind; [discriminate|].
  rewrite rev_app_distr. cbn [rev app find].
  destruct (String.eqb_spec (Room.room_id x) k) as [Hx|Hx].
  - intros [= ->]. split; [exact Hx|]. exists rooms, []. split; [reflexivity|tauto].
  - intros H. destruct (IH H) as (Hid & pre & post & -> & Hnot).
    split; [exact Hid|]. exists pre, (post ++ [x])%list.
    split; [now rewrite <- app_assoc|].
    unfold ids. rewrite map_app, in_app_iff. simpl. intros [H1|[H1|[]]]; tauto.
Qed.

(** Every entry of the built graph sits under the identifier of its own
    room record, and that record is the last room of the store with that
    identifier. *)
Lemma buildGraphOf_entry rooms k n :
  In (k, n) (buildGraphOf rooms) ->
  lastWithId k rooms = Some (Node.room n).
Proof.
  intros Hin. unfold buildGraphOf in Hin.
  assert (Hsk : In (k, Node.room n) (skeleton (addNodes rooms JsMap.empty))).
  { rewrite <- (skeleton_addEdges rooms). unfold skeleton.
    apply in_map_iff. exists (k, n). split; [reflexivity|exact Hin]. }
  apply In_get in Hsk.
  2:{ rewrite keys_skeleton. apply addNodes_NoDup. }
  rewrite get_skeleton, addNodes_get in Hsk.
  destruct (lastWithId k rooms); simpl in Hsk; congruence.
Qed.

Lemma buildGraphOf_keys_NoDup rooms : NoDup (JsMap.keys (buildGraphOf rooms)).
Proof.
  unfold buildGraphOf. rewrite <- keys_skeleton, skeleton_addEdges, keys_skeleton.
  apply addNodes_NoDup.
Qed.

(** With pairwise distinct identifiers the Map lists the rooms in the
    order of the store. *)
Lemma skeleton_buildGraphOf_distinct rooms :
  NoDup (ids rooms) ->
  skeleton (buildGraphOf rooms) = map (fun r => (Room.room_id r, r)) rooms.
Proof.
  intros Hnd. unfold buildGraphOf. rewrite skeleton_addEdges.
  unfold addNodes, forEach. rewrite addNodes_distinct; [|exact Hnd|intros r _ []].
  unfold skeleton. simpl. rewrite map_map. reflexivity.
Qed.

(** ** The reduce of allocateRoom *)

Lemma closest_fold (requirements : Req.t) (rest : list Node.t) :
  forall (before : list Node.t) (best : Node.t) (after : list Node.t),
    (forall c, In c before -> capacityDiff requirements best < capacityDiff requirements c) ->
    (forall c, In c after -> capacityDiff requirements best <= capacityDiff requirements c) ->
    exists pre post,
      (before ++ best :: after ++ rest)%list
      = (pre ++ fold_left (closest requirements) rest best :: post)%list /\
      (forall c, In c pre ->
                 capacityDiff requirements (fold_left (closest requirements) rest best)
                 < capacityDiff requirements c) /\
      (forall c, In c post ->
                 capacityDiff requirements (fold_left (closest requirements) rest best)
                 <= capacityDiff requirements c).
Proof.
  induction rest as [|x rest IH]; intros before best after Hb Ha.
  - exists before, after. rewrite app_nil_r. simpl. auto.
  - cbn [fold_left]. unfold closest at 2 4 6.
    fold (capacityDiff requirements best). fold (capacityDiff requirements x).
    destruct (Z.ltb_spec (capacityDiff requirements x) (capacityDiff requirements best))
      as [Hlt|Hge].
    + destruct (IH (before ++ best :: after)%list x []) as (pre & post & E & Hpre & Hpost).
      * intros c Hc. apply in_app_iff in Hc as [Hc|[<-|Hc]].
        -- specialize (Hb c Hc). lia.
        -- exact Hlt.
        -- specialize (Ha c Hc). lia.
      * intros c [].
      * exists pre, post. split; [|auto].
        rewrite <- E. rewrite <- !app_assoc. reflexivity.
    + destruct (IH before best (after ++ [x])%list) as (pre & post & E & Hpre & Hpost).
      * exact Hb.
      * intros c Hc. apply in_app_iff in Hc as [Hc|[<-|[]]]; [now apply Ha|exact Hge].
      * exists pre, post. split; [|auto].
        rewrite <- E. rewrite <- !app_assoc. reflexivity.
Qed.

Lemma allocateRoom_selects now bookingId requirements s :
  suitableRooms s requirements <> [] ->
  exists node pre post,
    snd (allocateRoom now bookingId requirements s) = Success node bookingId /\
    suitableRooms s requirements = (pre ++ node :: post)%list /\
    (forall c, In c pre -> capacityDiff requirements node < capacityDiff requirements c) /\
    (forall c, In c post -> capacityDiff requirements node <= capacityDiff requirements c).
Proof.
  intros Hne. rewrite allocateRoom_unfold.
  destruct (suitableRooms s requirements) as [|first rest]; [congruence|].
  destruct (closest_fold requirements rest [] first []) as (pre & post & E & Hpre & Hpost);
    try (intros c []).
  exists (fold_left (closest requirements) rest first), pre, post.
  split; [reflexivity|]. split; [exact E|]. split; assumption.
Qed.

Lemma allocateRoom_success now bookingId requirements s node bid :
  snd (allocateRoom now bookingId requirements s) = Success node bid ->
  bid = bookingId /\
  exists k, In (k, node) (roomsGraph s) /\ suitable s requirements (k, node) = true.
Proof.
  intros H.
  destruct (suitableRooms s requirements) as [|first rest] eqn:E.
  - rewrite allocateRoom_unfold, E in H. discriminate.
  - destruct (allocateRoom_selects now bookingId requirements s) as (n & pre & post & Hs & Hsplit & _).
    { rewrite E. discriminate. }
    rewrite Hs in H. injection H as -> ->. split; [reflexivity|].
    assert (Hin : In node (suitableRooms s requirements))
      by (rewrite Hsplit; apply in_elt).
    unfold suitableRooms in Hin. apply in_map_iff in Hin as ([k n] & Hn & Hin).
    simpl in Hn. subst n. apply filter_In in Hin. now exists k.
Qed.


(** ** The adjacency lists of the rooms graph *)

Lemma linked_sym a b : linked a b = linked b a.
Proof.
  unfold linked, sameBuilding. now rewrite String.eqb_sym, similarCapacity_sym.
Qed.

Lemma existsb_eqb_In (x : string) (l : list string) :
  existsb (String.eqb x) l = true <-> In x l.
Proof.
  rewrite existsb_exists. split.
  - intros (y & Hin & Heq). apply String.eqb_eq in Heq. now subst.
  - intros Hin. exists x. split; [exact Hin|apply String.eqb_refl].
Qed.

Lemma existsb_eqb_notin (x : string) (l : list string) :
  ~ In x l -> existsb (String.eqb x) l = false.
Proof.
  intros Hnot. destruct (existsb (String.eqb x) l) eqn:E; [|reflexivity].
  apply existsb_eqb_In in E. contradiction.
Qed.

Lemma includesAdjacent_adjacentOf k x g :
  includesAdjacent k x g = existsb (String.eqb x) (adjacentOf g k).
Proof.
  unfold includesAdjacent, adjacentOf, Node.includes.
  destruct (JsMap.get k g); reflexivity.
Qed.

Lemma keys_pushAdjacent k x g : JsMap.keys (pushAdjacent k x g) = JsMap.keys g.
Proof. apply keys_update. Qed.

Lemma adjacentOf_pushAdjacent k0 x g k :
  In k0 (JsMap.keys g) ->
  adjacentOf (pushAdjacent k0 x g) k
  = if String.eqb k k0 then (adjacentOf g k ++ [x])%list else adjacentOf g k.
Proof.
  intros Hin. unfold adjacentOf, pushAdjacent. rewrite get_update.
  destruct (String.eqb_spec k k0) as [->|Hk]; [|reflexivity].
  destruct (get_Some_key k0 g Hin) as [n ->]. reflexivity.
Qed.

Lemma keys_connect room1 room2 g : JsMap.keys (connect room1 room2 g) = JsMap.keys g.
Proof.
  rewrite <- !keys_skeleton. now rewrite skeleton_connect.
Qed.

(** What one pair adds, when neither room lists the other yet. *)
Lemma adjacentOf_connect room1 room2 g k :
  Room.room_id room1 <> Room.room_id room2 ->
  In (Room.room_id room1) (JsMap.keys g) ->
  In (Room.room_id room2) (JsMap.keys g) ->
  ~ In (Room.room_id room2) (adjacentOf g (Room.room_id room1)) ->
  ~ In (Room.room_id room1) (adjacentOf g (Room.room_id room2)) ->
  adjacentOf (connect room1 room2 g) k
  = (adjacentOf g k
     ++ (if String.eqb k (Room.room_id room1)
         then (if linked room1 room2 then [Room.room_id room2] else [])
         else if String.eqb k (Room.room_id room2)
              then (if linked room1 room2 then [Room.room_id room1] else [])
              else []))%list.
Proof.
  intros Hne Hk1 Hk2 Hn1 Hn2. unfold connect, linked.
  destruct (sameBuilding room1 room2); cbn [orb].
  - set (g1 := pushAdjacent (Room.room_id room2) (Room.room_id room1)
                 (pushAdjacent (Room.room_id room1) (Room.room_id room2) g)).
    assert (Hg1 : adjacentOf g1 k
                  = (adjacentOf g k
                     ++ (if String.eqb k (Room.room_id room1) then [Room.room_id room2]
                         else if String.eqb k (Room.room_id room2) then [Room.room_id room1]
                              else []))%list).
    { unfold g1.
      rewrite adjacentOf_pushAdjacent by (rewrite keys_pushAdjacent; exact Hk2).
      rewrite adjacentOf_pushAdjacent by exact Hk1.
      destruct (String.eqb_spec k (Room.room_id room1)) as [->|H1].
      - destruct (String.eqb_spec (Room.room_id room1) (Room.room_id room2));
          [contradiction|reflexivity].
      - destruct (String.eqb k (Room.room_id room2)); [reflexivity|].
        now rewrite app_nil_r. }
    assert (Hi1 : includesAdjacent (Room.room_id room1) (Room.room_id room2) g1 = true).
    { rewrite includesAdjacent_adjacentOf. apply existsb_eqb_In. unfold g1.
      rewrite adjacentOf_pushAdjacent by (rewrite keys_pushAdjacent; exact Hk2).
      rewrite adjacentOf_pushAdjacent by exact Hk1.
      rewrite String.eqb_refl.
      destruct (String.eqb (Room.room_id room1) (Room.room_id room2));
        rewrite ?in_app_iff; simpl; tauto. }
    assert (Hi2 : includesAdjacent (Room.room_id room2) (Room.room_id room1) g1 = true).
    { rewrite includesAdjacent_adjacentOf. apply existsb_eqb_In. unfold g1.
      rewrite adjacentOf_pushAdjacent by (rewrite keys_pushAdjacent; exact Hk2).
      rewrite String.eqb_refl, in_app_iff. simpl. tauto. }
    fold g1. cbv zeta. destruct (similarCapacity _ _); [rewrite Hi1, Hi2|]; exact Hg1.
  - destruct (similarCapacity _ _).
    + cbv zeta.
      rewrite (includesAdjacent_adjacentOf (Room.room_id room1) (Room.room_id room2) g).
      rewrite (existsb_eqb_notin _ _ Hn1).
      rewrite includesAdjacent_adjacentOf.
      rewrite (adjacentOf_pushAdjacent _ _ _ (Room.room_id room2)) by exact Hk1.
      destruct (String.eqb_spec (Room.room_id room2) (Room.room_id room1)) as [E|_];
        [now symmetry in E|].
      rewrite (existsb_eqb_notin _ _ Hn2).
      rewrite adjacentOf_pushAdjacent by (rewrite keys_pushAdjacent; exact Hk2).
      rewrite adjacentOf_pushAdjacent by exact Hk1.
      destruct (String.eqb_spec k (Room.room_id room1)) as [->|H1].
      * destruct (String.eqb_spec (Room.room_id room1) (Room.room_id room2));
          [contradiction|reflexivity].
      * destruct (String.eqb k (Room.room_id room2)); [reflexivity|].
        now rewrite app_nil_r.
    + destruct (String.eqb k (Room.room_id room1)), (String.eqb k (Room.room_id room2));
        now rewrite app_nil_r.
Qed.

(** One room against the rooms after it. *)
Lemma adjacentOf_row (room1 : Room.t) (rest : list Room.t) :
  forall j (g : RoomsGraph),
    ~ In (Room.room_id room1) (ids rest) ->
    NoDup (ids rest) ->
    In (Room.room_id room1) (JsMap.keys g) ->
    (forall r, In r rest -> In (Room.room_id r) (JsMap.keys g)) ->
    (forall r, In r rest -> ~ In (Room.room_id r) (adjacentOf g (Room.room_id room1))) ->
    (forall r, In r rest -> ~ In (Room.room_id room1) (adjacentOf g (Room.room_id r))) ->
    let g' := forEachFrom (fun b _ g => connect room1 b g) j rest g in
    JsMap.keys g' = JsMap.keys g /\
    adjacentOf g' (Room.room_id room1)
    = (adjacentOf g (Room.room_id room1) ++ ids (filter (linked room1) rest))%list /\
    (forall r, In r rest ->
               adjacentOf g' (Room.room_id r)
               = (adjacentOf g (Room.room_id r)
                  ++ (if linked room1 r then [Room.room_id room1] else []))%list) /\
    (forall k, k <> Room.room_id room1 -> ~ In k (ids rest) ->
               adjacentOf g' k = adjacentOf g k).
Proof.
  induction rest as [|room2 rest IH]; intros j g Hfresh Hnd Hk1 Hkeys Hn1 Hn2; cbn zeta.
  - cbn [forEachFrom filter ids map]. rewrite app_nil_r.
    repeat split; try reflexivity. intros r [].
  - cbn [forEachFrom].
    cbn [ids map] in Hfresh, Hnd. fold (ids rest) in Hfresh, Hnd.
    inversion Hnd as [|? ? Hnot2 Hnd']; subst.
    assert (Hne : Room.room_id room1 <> Room.room_id room2)
      by (intros E; apply Hfresh; left; now symmetry).
    assert (Hadj : forall k,
               adjacentOf (connect room1 room2 g) k
               = (adjacentOf g k
                  ++ (if String.eqb k (Room.room_id room1)
                      then (if linked room1 room2 then [Room.room_id room2] else [])
                      else if String.eqb k (Room.room_id room2)
                           then (if linked room1 room2 then [Room.room_id room1] else [])
                           else []))%list).
    { intros k. apply adjacentOf_connect; try assumption.
      - apply Hkeys. now left.
      - apply Hn1. now left.
      - apply Hn2. now left. }
    destruct (IH (Datatypes.S j) (connect room1 room2 g)) as (Hkeys' & Hrow1 & Hrow2 & Hframe).
    + intros Hin. apply Hfresh. now right.
    + exact Hnd'.
    + now rewrite keys_connect.
    + intros r Hr. rewrite keys_connect. apply Hkeys. now right.
    + intros r Hr. rewrite Hadj, String.eqb_refl, in_app_iff.
      intros [H|H]; [apply (Hn1 r); [now right|exact H]|].
      destruct (linked room1 room2); [|destruct H].
      destruct H as [H|[]]. apply Hnot2. rewrite H. now apply in_map.
    + intros r Hr. rewrite Hadj.
      assert (Hr1 : Room.room_id r <> Room.room_id room1)
        by (intros E; apply Hfresh; right; rewrite <- E; now apply in_map).
      assert (Hr2 : Room.room_id r <> Room.room_id room2)
        by (intros E; apply Hnot2; rewrite <- E; now apply in_map).
      apply String.eqb_neq in Hr1, Hr2. rewrite Hr1, Hr2, app_nil_r.
      apply Hn2. now right.
    + split; [now rewrite Hkeys', keys_connect|]. split; [|split].
      * rewrite Hrow1, Hadj, String.eqb_refl. cbn [filter].
        destruct (linked room1 room2); cbn [ids map]; now rewrite <- app_assoc.
      * intros r [<-|Hr].
        -- rewrite Hframe; [| now apply not_eq_sym | exact Hnot2].
           rewrite Hadj.
           destruct (String.eqb_spec (Room.room_id room2) (Room.room_id room1)) as [E|_];
             [now symmetry in E|].
           now rewrite String.eqb_refl.
        -- rewrite (Hrow2 r Hr), Hadj.
           assert (Hr1 : Room.room_id r <> Room.room_id room1)
             by (intros E; apply Hfresh; right; rewrite <- E; now apply in_map).
           assert (Hr2 : Room.room_id r <> Room.room_id room2)
             by (intros E; apply Hnot2; rewrite <- E; now apply in_map).
           apply String.eqb_neq in Hr1, Hr2. rewrite Hr1, Hr2, app_nil_r. reflexivity.
      * intros k Hk1' Hkrest. unfold ids in Hkrest. cbn [map In] in Hkrest.
        fold (ids rest) in Hkrest.
        rewrite Hframe; [|exact Hk1'|tauto].
        rewrite Hadj.
        apply String.eqb_neq in Hk1'. rewrite Hk1'.
        assert (Hk2' : k <> Room.room_id room2) by (intros E; apply Hkrest; now left).
        apply String.eqb_neq in Hk2'. rewrite Hk2'. now rewrite app_nil_r.
Qed.

Lemma NoDup_app_disjoint {A : Type} (l1 l2 : list A) (x : A) :
  NoDup (l1 ++ l2) -> In x l1 -> ~ In x l2.
Proof.
  induction l1 as [|a l1 IH]; simpl; [tauto|].
  intros Hnd [->|Hin] Hin2; inversion Hnd as [|? ? Hnot Hnd']; subst.
  - apply Hnot. apply in_app_iff. now right.
  - now apply (IH Hnd' Hin).
Qed.

Lemma ids_app l1 l2 : ids (l1 ++ l2) = (ids l1 ++ ids l2)%list.
Proof. apply map_app. Qed.

Lemma neighbours_app a l1 l2 :
  neighbours a (l1 ++ l2) = (neighbours a l1 ++ neighbours a l2)%list.
Proof.
  unfold neighbours. now rewrite filter_app, ids_app.
Qed.

Lemma neighbours_subset a l x : In x (neighbours a l) -> In x (ids l).
Proof.
  unfold neighbours, ids. rewrite !in_map_iff.
  intros (b & Hb & Hin). apply filter_In in Hin as [Hin _]. eauto.
Qed.

Lemma neighbours_fresh a l :
  ~ In (Room.room_id a) (ids l) -> neighbours a l = ids (filter (linked a) l).
Proof.
  intros Hfresh. unfold neighbours. f_equal. apply filter_ext_in.
  intros b Hb.
  destruct (String.eqb_spec (Room.room_id b) (Room.room_id a)) as [E|_]; [|reflexivity].
  exfalso. apply Hfresh. rewrite <- E. now apply in_map.
Qed.

Lemma neighbours_self a : neighbours a [a] = [].
Proof.
  unfold neighbours. cbn [filter]. now rewrite String.eqb_refl.
Qed.

Lemma neighbours_one a b :
  Room.room_id b <> Room.room_id a ->
  neighbours a [b] = if linked a b then [Room.room_id b] else [].
Proof.
  intros Hne. unfold neighbours. cbn [filter].
  apply String.eqb_neq in Hne. rewrite Hne. cbn [negb andb].
  destruct (linked a b); reflexivity.
Qed.

(** The invariant of the outer loop: the rooms already taken as [room1]
    list all their neighbours, the others those among the rooms taken. *)
Lemma adjacentOf_pairs (post : list Room.t) :
  forall (pre : list Room.t) (g : RoomsGraph) i,
    NoDup (ids (pre ++ post)) ->
    (forall r, In r (pre ++ post) -> In (Room.room_id r) (JsMap.keys g)) ->
    (forall r, In r pre -> adjacentOf g (Room.room_id r) = neighbours r (pre ++ post)) ->
    (forall r, In r post -> adjacentOf g (Room.room_id r) = neighbours r pre) ->
    forall r, In r (pre ++ post) ->
              adjacentOf (forPairsFrom (fun a _ b _ g => connect a b g) i post g)
                         (Room.room_id r)
              = neighbours r (pre ++ post).
Proof.
  induction post as [|room1 post IH]; intros pre g i Hnd Hkeys Hpre Hpost r Hr.
  - cbn [forPairsFrom]. rewrite app_nil_r in *. now apply Hpre.
  - cbn [forPairsFrom].
    assert (Hnd0 := Hnd). rewrite ids_app in Hnd0. cbn [ids map] in Hnd0.
    fold (ids post) in Hnd0.
    assert (Hfresh1 : ~ In (Room.room_id room1) (ids post)).
    { apply NoDup_remove_2 in Hnd0. rewrite in_app_iff in Hnd0. tauto. }
    assert (Hfresh1' : ~ In (Room.room_id room1) (ids pre)).
    { apply NoDup_remove_2 in Hnd0. rewrite in_app_iff in Hnd0. tauto. }
    assert (Hndpost : NoDup (ids post)).
    { apply NoDup_app_remove_l in Hnd0. now inversion Hnd0. }
    assert (Hdisj : forall x, In x (ids pre) -> ~ In x (ids post)).
    { intros x Hx Hx'. apply (NoDup_app_disjoint _ _ x Hnd0 Hx). now right. }
    destruct (adjacentOf_row room1 post (Datatypes.S i) g) as (Hkeys' & Hrow1 & Hrow2 & Hframe).
    + exact Hfresh1.
    + exact Hndpost.
    + apply Hkeys. apply in_elt.
    + intros x Hx. apply Hkeys. apply in_app_iff. right. now right.
    + intros x Hx. rewrite Hpost by now left.
      intros Hin. apply neighbours_subset in Hin.
      apply (Hdisj _ Hin). now apply in_map.
    + intros x Hx. rewrite Hpost by now right.
      intros Hin. apply neighbours_subset in Hin. contradiction.
    + replace (pre ++ room1 :: post)%list with ((pre ++ [room1]) ++ post)%list in *
        by now rewrite <- app_assoc.
      apply (IH (pre ++ [room1])%list); try assumption.
      * intros x Hx. rewrite Hkeys'. now apply Hkeys.
      * intros x Hx. apply in_app_iff in Hx as [Hx|[<-|[]]].
        -- rewrite Hframe.
           ++ apply Hpre. exact Hx.
           ++ intros E. apply Hfresh1'. rewrite <- E. now apply in_map.
           ++ apply Hdisj. now apply in_map.
        -- rewrite Hrow1, Hpost by now left.
           rewrite !neighbours_app, neighbours_self, app_nil_r.
           now rewrite (neighbours_fresh room1 post).
      * intros x Hx. rewrite (Hrow2 x Hx), Hpost by now right.
        rewrite neighbours_app, neighbours_one.
        -- now rewrite linked_sym.
        -- intros E. apply Hfresh1. rewrite E. now apply in_map.
Qed.

(** The node of every room after [buildRoomsGraph], for pairwise distinct
    identifiers. *)
Lemma buildGraphOf_node rooms a :
  NoDup (ids rooms) -> In a rooms ->
  JsMap.get (Room.room_id a) (buildGraphOf rooms)
  = Some (Node.mk a (neighbours a rooms)).
Proof.
  intros Hnd Ha.
  assert (Hnodes : addNodes rooms JsMap.empty
                   = map (fun r => (Room.room_id r, Node.mk r [])) rooms).
  { unfold addNodes, forEach. now rewrite addNodes_distinct; [|exact Hnd|intros r _ []]. }
  assert (Hkeys : JsMap.keys (addNodes rooms JsMap.empty) = ids rooms).
  { rewrite Hnodes. unfold JsMap.keys, ids. now rewrite map_map. }
  assert (Hadj : adjacentOf (buildGraphOf rooms) (Room.room_id a) = neighbours a rooms).
  { unfold buildGraphOf. rewrite addEdges_pairs.
    apply (adjacentOf_pairs rooms [] (addNodes rooms JsMap.empty) 0%nat); try assumption.
    - intros r Hr. rewrite Hkeys. now apply in_map.
    - intros r [].
    - intros r Hr. unfold adjacentOf. rewrite addNodes_get.
      destruct (lastWithId (Room.room_id r) rooms); reflexivity. }
  assert (Hroom : option_map Node.room (JsMap.get (Room.room_id a) (buildGraphOf rooms))
                  = Some a).
  { rewrite <- get_skeleton, (skeleton_buildGraphOf_distinct rooms Hnd).
    apply In_get.
    - unfold JsMap.keys. rewrite map_map. exact Hnd.
    - apply in_map_iff. now exists a. }
  unfold adjacentOf in Hadj.
  destruct (JsMap.get (Room.room_id a) (buildGraphOf rooms)) as [[r adj]|];
    [|discriminate].
  simpl in Hadj, Hroom. congruence.
Qed.

Lemma NoDup_neighbours a rooms : NoDup (ids rooms) -> NoDup (neighbours a rooms).
Proof.
  unfold neighbours, ids. induction rooms as [|r rooms IH]; intros Hnd; cbn [filter map].
  - constructor.
  - inversion Hnd as [|? ? Hnot Hnd']; subst.
    destruct (negb (String.eqb (Room.room_id r) (Room.room_id a)) && linked a r);
      [|now apply IH].
    cbn [map]. constructor; [|now apply IH].
    intros Hin. apply Hnot. apply in_map_iff in Hin as (b & Hb & Hin).
    apply filter_In in Hin as [Hin _]. rewrite <- Hb. now apply in_map.
Qed.

Lemma In_neighbours a rooms x :
  In x (neighbours a rooms) <->
  exists b, In b rooms /\ Room.room_id b = x /\
            Room.room_id b <> Room.room_id a /\ linked a b = true.
Proof.
  unfold neighbours, ids. rewrite in_map_iff. split.
  - intros (b & Hb & Hin). apply filter_In in Hin as [Hin Hp].
    apply andb_true_iff in Hp as [Hne Hl]. apply negb_true_iff, String.eqb_neq in Hne.
    exists b. auto.
  - intros (b & Hin & Hb & Hne & Hl). exists b. split; [exact Hb|].
    apply filter_In. split; [exact Hin|].
    apply String.eqb_neq in Hne. now rewrite Hne, Hl.
Qed.

(** ** The visualizer against the rooms graph *)

Lemma map_updateAt {A B : Type} (h : A -> B) (f : A -> A) (f' : B -> B) (l : list A) :
  (forall a, h (f a) = f' (h a)) ->
  forall i, map h (Vis.updateAt i f l) = Vis.updateAt i f' (map h l).
Proof.
  intros Hf. induction l as [|a l IH]; intros i; [now destruct i|].
  destruct i as [|i]; simpl; [now rewrite Hf|now rewrite IH].
Qed.

Lemma nth_error_updateAt {A : Type} (f : A -> A) (l : list A) :
  forall i k,
    nth_error (Vis.updateAt i f l) k
    = if (k =? i)%nat then option_map f (nth_error l k) else nth_error l k.
Proof.
  induction l as [|a l IH]; intros i k.
  - destruct i, k; simpl; try reflexivity; now destruct (k =? i)%nat.
  - destruct i as [|i], k as [|k]; simpl; try reflexivity. apply IH.
Qed.

Lemma viewOfNodes_pushAt i x ns :
  viewOfNodes (Vis.pushAt i x ns) = vpush i x (viewOfNodes ns).
Proof.
  unfold viewOfNodes, Vis.pushAt, vpush. now apply map_updateAt.
Qed.

Lemma includesAt_vincludes i x ns :
  Vis.includesAt i x ns = vincludes i x (viewOfNodes ns).
Proof.
  unfold Vis.includesAt, vincludes, viewOfNodes. rewrite nth_error_map.
  destruct (nth_error ns i); reflexivity.
Qed.

Lemma keys_vpush i x w : map fst (vpush i x w) = map fst w.
Proof.
  unfold vpush. revert i. induction w as [|e w IH]; intros i; [now destruct i|].
  destruct i as [|i]; simpl; [reflexivity|now rewrite IH].
Qed.

Lemma keys_viewOfGraph g : map fst (viewOfGraph g) = JsMap.keys g.
Proof.
  unfold viewOfGraph, JsMap.keys. now rewrite map_map.
Qed.

(** With unique keys, the node under a key is the node at the key's
    position. *)
Lemma viewOfGraph_pushAdjacent (g : RoomsGraph) :
  forall i k x,
    NoDup (JsMap.keys g) ->
    nth_error (JsMap.keys g) i = Some k ->
    viewOfGraph (pushAdjacent k x g) = vpush i x (viewOfGraph g).
Proof.
  unfold pushAdjacent, vpush.
  induction g as [|[k' n] g IH]; intros i k x Hnd Hi.
  - destruct i; discriminate.
  - inversion Hnd as [|? ? Hnot Hnd']; subst.
    change (JsMap.update k (Node.push x) ((k', n) :: g))
      with ((if String.eqb k' k then (k', Node.push x n) else (k', n))
            :: JsMap.update k (Node.push x) g).
    change (viewOfGraph ((k', n) :: g))
      with ((k', Node.adjacentRooms n) :: viewOfGraph g).
    destruct i as [|i]; cbn [nth_error JsMap.keys map fst] in Hi.
    + injection Hi as ->. rewrite String.eqb_refl, update_absent by exact Hnot.
      reflexivity.
    + destruct (String.eqb_spec k' k) as [->|_].
      * exfalso. apply Hnot. now apply nth_error_In with i.
      * cbn [Vis.updateAt].
        change (viewOfGraph ((k', n) :: JsMap.update k (Node.push x) g))
          with ((k', Node.adjacentRooms n) :: viewOfGraph (JsMap.update k (Node.push x) g)).
        f_equal. now apply IH.
Qed.

Lemma includesAdjacent_vincludes (g : RoomsGraph) :
  forall i k x,
    NoDup (JsMap.keys g) ->
    nth_error (JsMap.keys g) i = Some k ->
    includesAdjacent k x g = vincludes i x (viewOfGraph g).
Proof.
  unfold includesAdjacent, vincludes, viewOfGraph, Node.includes.
  induction g as [|[k' n] g IH]; intros i k x Hnd Hi.
  - destruct i; discriminate.
  - inversion Hnd as [|? ? Hnot Hnd']; subst.
    destruct i as [|i]; cbn [map fst snd nth_error JsMap.keys JsMap.get] in *.
    + injection Hi as ->. now rewrite String.eqb_refl.
    + destruct (String.eqb_spec k' k) as [->|_].
      * exfalso. apply Hnot. now apply nth_error_In with i.
      * now apply IH.
Qed.

Lemma vincludes_vpush_same i x w :
  (i < List.length w)%nat -> vincludes i x (vpush i x w) = true.
Proof.
  intros Hi. unfold vincludes, vpush. rewrite nth_error_updateAt, Nat.eqb_refl.
  destruct (nth_error w i) as [e|] eqn:E.
  - cbn [option_map snd]. apply existsb_eqb_In, in_app_iff. right. now left.
  - apply nth_error_None in E. lia.
Qed.

Lemma vincludes_vpush_other i j x y w :
  i <> j -> vincludes i x (vpush j y w) = vincludes i x w.
Proof.
  intros Hne. unfold vincludes, vpush. rewrite nth_error_updateAt.
  apply Nat.eqb_neq in Hne. now rewrite Hne.
Qed.

Lemma length_vpush i x w : List.length (vpush i x w) = List.length w.
Proof.
  rewrite <- (length_map fst (vpush i x w)), keys_vpush. apply length_map.
Qed.

(** One pair: [connect] on the graph and [link] on the visualizer leave
    equal views. *)
Lemma connect_link (rooms : list Room.t) (i j : nat) (room1 room2 : Room.t)
      (g : RoomsGraph) (v : Vis.t) :
  NoDup (ids rooms) ->
  i <> j ->
  nth_error rooms i = Some room1 ->
  nth_error rooms j = Some room2 ->
  JsMap.keys g = ids rooms ->
  viewOfGraph g = viewOfNodes (Vis.nodes v) ->
  JsMap.keys (connect room1 room2 g) = ids rooms /\
  viewOfGraph (connect room1 room2 g)
  = viewOfNodes (Vis.nodes (Vis.link i j room1 room2 v)).
Proof.
  intros Hnd Hij Hi Hj Hkeys Hview.
  split; [now rewrite keys_connect|].
  assert (Hki : nth_error (ids rooms) i = Some (Room.room_id room1))
    by (unfold ids; now rewrite nth_error_map, Hi).
  assert (Hkj : nth_error (ids rooms) j = Some (Room.room_id room2))
    by (unfold ids; now rewrite nth_error_map, Hj).
  assert (Hlen : List.length (viewOfGraph g) = List.length rooms).
  { rewrite <- (length_map fst), keys_viewOfGraph, Hkeys. apply length_map. }
  assert (Hilt : (i < List.length rooms)%nat) by (apply nth_error_Some; congruence).
  assert (Hjlt : (j < List.length rooms)%nat) by (apply nth_error_Some; congruence).
  assert (Hpush : forall g' k p x,
             JsMap.keys g' = ids rooms -> nth_error (ids rooms) p = Some k ->
             viewOfGraph (pushAdjacent k x g') = vpush p x (viewOfGraph g')).
  { intros g' k p x Hk' Hp. apply viewOfGraph_pushAdjacent; now rewrite Hk'. }
  assert (Hincl : forall g' k p x,
             JsMap.keys g' = ids rooms -> nth_error (ids rooms) p = Some k ->
             includesAdjacent k x g' = vincludes p x (viewOfGraph g')).
  { intros g' k p x Hk' Hp. apply includesAdjacent_vincludes; now rewrite Hk'. }
  unfold connect, Vis.link.
  destruct (sameBuilding room1 room2).
  - set (g1 := pushAdjacent (Room.room_id room2) (Room.room_id room1)
                 (pushAdjacent (Room.room_id room1) (Room.room_id room2) g)).
    assert (Hk1 : JsMap.keys g1 = ids rooms)
      by (unfold g1; now rewrite !keys_pushAdjacent).
    assert (Hv1 : viewOfGraph g1
                  = vpush j (Room.room_id room1)
                          (vpush i (Room.room_id room2) (viewOfGraph g))).
    { unfold g1. rewrite (Hpush _ _ j) by (rewrite ?keys_pushAdjacent; assumption).
      now rewrite (Hpush _ _ i) by assumption. }
    assert (Hi1 : includesAdjacent (Room.room_id room1) (Room.room_id room2) g1 = true).
    { rewrite (Hincl _ _ i) by assumption. rewrite Hv1.
      rewrite vincludes_vpush_other by exact Hij.
      apply vincludes_vpush_same. now rewrite Hlen. }
    assert (Hi2 : includesAdjacent (Room.room_id room2) (Room.room_id room1) g1 = true).
    { rewrite (Hincl _ _ j) by assumption. rewrite Hv1.
      apply vincludes_vpush_same. now rewrite length_vpush, Hlen. }
    cbv zeta. destruct (similarCapacity _ _); [rewrite Hi1, Hi2|];
      cbn [Vis.nodes]; now rewrite Hv1, !viewOfNodes_pushAt, Hview.
  - destruct (similarCapacity _ _); [|exact Hview].
    cbv zeta. cbn [Vis.nodes].
    set (id1 := Room.room_id room1) in *. set (id2 := Room.room_id room2) in *.
    rewrite (Hincl g id1 i id2) by assumption.
    rewrite (includesAt_vincludes i id2 (Vis.nodes v)), <- Hview.
    destruct (vincludes i id2 (viewOfGraph g)).
    + rewrite (Hincl g id2 j id1) by assumption.
      rewrite (includesAt_vincludes j id1 (Vis.nodes v)), <- Hview.
      destruct (vincludes j id1 (viewOfGraph g)); [exact Hview|].
      rewrite (Hpush g id2 j id1) by assumption.
      now rewrite viewOfNodes_pushAt, Hview.
    + rewrite (Hincl (pushAdjacent id1 id2 g) id2 j id1)
        by (rewrite ?keys_pushAdjacent; assumption).
      rewrite (includesAt_vincludes j id1 (Vis.pushAt i id2 (Vis.nodes v))).
      rewrite (viewOfNodes_pushAt i id2 (Vis.nodes v)), <- Hview.
      rewrite (Hpush g id1 i id2) by assumption.
      destruct (vincludes j id1 (vpush i id2 (viewOfGraph g))).
      * rewrite (Hpush g id1 i id2) by assumption.
        now rewrite viewOfNodes_pushAt, Hview.
      * rewrite (Hpush (pushAdjacent id1 id2 g) id2 j id1)
          by (rewrite ?keys_pushAdjacent; assumption).
        rewrite (Hpush g id1 i id2) by assumption.
        now rewrite !viewOfNodes_pushAt, Hview.
Qed.

Lemma forEachFrom_sim {A S T : Type} (R : S -> T -> Prop)
      (f : A -> nat -> S -> S) (h : A -> nat -> T -> T) (arr : list A) (lo : nat) :
  (forall j b s t,
      (lo <= j)%nat -> nth_error arr j = Some b -> R s t -> R (f b j s) (h b j t)) ->
  forall rest front s t,
    arr = (front ++ rest)%list -> (lo <= List.length front)%nat -> R s t ->
    R (forEachFrom f (List.length front) rest s) (forEachFrom h (List.length front) rest t).
Proof.
  intros Hstep. induction rest as [|b rest IH]; intros front s t Harr Hlo HR; [exact HR|].
  cbn [forEachFrom].
  specialize (IH (front ++ [b])%list (f b (List.length front) s) (h b (List.length front) t)).
  rewrite length_app, Nat.add_1_r in IH. apply IH.
  - now rewrite <- app_assoc.
  - lia.
  - apply Hstep; [exact Hlo| |exact HR].
    rewrite Harr, nth_error_app2 by lia. now rewrite Nat.sub_diag.
Qed.

Lemma forPairsFrom_sim {A S T : Type} (R : S -> T -> Prop)
      (f : A -> nat -> A -> nat -> S -> S) (h : A -> nat -> A -> nat -> T -> T)
      (arr : list A) :
  (forall i j a b s t,
      (i < j)%nat -> nth_error arr i = Some a -> nth_error arr j = Some b ->
      R s t -> R (f a i b j s) (h a i b j t)) ->
  forall post pre s t,
    arr = (pre ++ post)%list -> R s t ->
    R (forPairsFrom f (List.length pre) post s) (forPairsFrom h (List.length pre) post t).
Proof.
  intros Hstep. induction post as [|a post IH]; intros pre s t Harr HR; [exact HR|].
  cbn [forPairsFrom].
  assert (Ha : nth_error arr (List.length pre) = Some a).
  { rewrite Harr, nth_error_app2 by lia. now rewrite Nat.sub_diag. }
  assert (Harr' : arr = ((pre ++ [a]) ++ post)%list) by now rewrite <- app_assoc.
  assert (Hlen : List.length (pre ++ [a]) = Datatypes.S (List.length pre))
    by (rewrite length_app; simpl; lia).
  specialize (IH (pre ++ [a])%list). rewrite Hlen in IH. apply IH; [exact Harr'|].
  pose proof (forEachFrom_sim R (fun b j s => f a (List.length pre) b j s)
                (fun b j t => h a (List.length pre) b j t) arr
                (Datatypes.S (List.length pre))) as Hrow.
  specialize (Hrow (fun j b s' t' Hj Hb HR' => Hstep _ _ _ _ _ _ Hj Ha Hb HR')).
  specialize (Hrow post (pre ++ [a])%list s t Harr').
  rewrite Hlen in Hrow. apply Hrow; [lia|exact HR].
Qed.

Lemma addNodes_map rooms :
  NoDup (ids rooms) ->
  addNodes rooms JsMap.empty = map (fun r => (Room.room_id r, Node.mk r [])) rooms.
Proof.
  intros Hnd. unfold addNodes, forEach.
  now rewrite addNodes_distinct; [|exact Hnd|intros r _ []].
Qed.

Lemma buildGraph_pairs rooms :
  Vis.buildGraph rooms
  = forPairsFrom (fun a i b j v => Vis.link i j a b v) 0 rooms
                 (Vis.mk (map Vis.nodeOf rooms) []).
Proof.
  destruct rooms as [|r rooms]; [reflexivity|].
  unfold Vis.buildGraph.
  apply (for_range_pairs (r :: rooms) (Vis.linkAt (r :: rooms))).
  intros i j a b v Hi Hj. unfold Vis.linkAt. now rewrite Hi, Hj.
Qed.

(** Both builders end with the same identifiers and adjacency lists. *)
Lemma builders_view rooms :
  NoDup (ids rooms) ->
  viewOfGraph (buildGraphOf rooms) = viewOfNodes (Vis.nodes (Vis.buildGraph rooms)).
Proof.
  intros Hnd. unfold buildGraphOf. rewrite addEdges_pairs, buildGraph_pairs.
  apply (forPairsFrom_sim
           (fun g v => JsMap.keys g = ids rooms
                       /\ viewOfGraph g = viewOfNodes (Vis.nodes v))
           _ _ rooms) with (pre := []); [|reflexivity|].
  - intros i j a b g v Hij Hi Hj [Hkeys Hview].
    apply (connect_link rooms); try assumption. lia.
  - rewrite (addNodes_map rooms Hnd). split.
    + unfold JsMap.keys, ids. now rewrite map_map.
    + unfold viewOfGraph, viewOfNodes. cbn [Vis.nodes]. now rewrite !map_map.
Qed.

Lemma NoDup_map_inj {A B : Type} (f : A -> B) (l : list A) (a b : A) :
  NoDup (map f l) -> In a l -> In b l -> f a = f b -> a = b.
Proof.
  induction l as [|x l IH]; simpl; [tauto|].
  intros Hnd Ha Hb Hf. inversion Hnd as [|? ? Hnot Hnd']; subst.
  destruct Ha as [->|Ha], Hb as [->|Hb].
  - reflexivity.
  - exfalso. apply Hnot. rewrite Hf. now apply in_map.
  - exfalso. apply Hnot. rewrite <- Hf. now apply in_map.
  - now apply IH.
Qed.

Lemma buildGraphOf_get_last rooms k r :
  lastWithId k rooms = Some r ->
  exists node, In (k, node) (buildGraphOf rooms) /\ Node.room node = r.
Proof.
  intros Hlast.
  assert (H : JsMap.get k (skeleton (buildGraphOf rooms)) = Some r).
  { unfold buildGraphOf. rewrite skeleton_addEdges, get_skeleton, addNodes_get, Hlast.
    reflexivity. }
  rewrite get_skeleton in H.
  destruct (JsMap.get k (buildGraphOf rooms)) as [node|] eqn:E; [|discriminate].
  exists node. split; [now apply get_In|]. simpl in H. congruence.
Qed.

Lemma lastWithId_distinct rooms r :
  NoDup (ids rooms) -> In r rooms -> lastWithId (Room.room_id r) rooms = Some r.
Proof.
  intros Hnd Hin.
  pose proof (buildGraphOf_node rooms r Hnd Hin) as Hget.
  apply get_In, buildGraphOf_entry in Hget. exact Hget.
Qed.

Lemma lastWithId_None k rooms : lastWithId k rooms = None <-> ~ In k (ids rooms).
Proof.
  unfold lastWithId, ids. split.
  - intros Hnone Hin. apply in_map_iff in Hin as (r & Hr & Hin).
    apply in_rev in Hin.
    pose proof (find_none _ _ Hnone r Hin) as H. cbn in H.
    apply String.eqb_neq in H. contradiction.
  - intros Hnot. destruct (find _ (rev rooms)) as [r|] eqn:E; [|reflexivity].
    apply find_some in E as [Hin Hr]. apply String.eqb_eq in Hr.
    exfalso. apply Hnot. rewrite <- Hr. apply in_map. now apply in_rev.
Qed.

Lemma find_app_none {A : Type} (f : A -> bool) (l1 l2 : list A) :
  (forall x, In x l1 -> f x = false) -> find f (l1 ++ l2) = find f l2.
Proof.
  induction l1 as [|a l1 IH]; intros H; [reflexivity|].
  cbn [app find]. rewrite (H a) by now left.
  apply IH. intros x Hx. apply H. now right.
Qed.

Lemma lastWithId_split rooms pre r post :
  rooms = (pre ++ r :: post)%list ->
  ~ In (Room.room_id r) (ids post) ->
  lastWithId (Room.room_id r) rooms = Some r.
Proof.
  intros -> Hnot. unfold lastWithId.
  rewrite rev_app_distr. cbn [rev]. rewrite <- app_assoc. cbn [app].
  rewrite find_app_none.
  - cbn [find]. now rewrite String.eqb_refl.
  - intros x Hx. apply in_rev in Hx. apply String.eqb_neq.
    intros E. apply Hnot. rewrite <- E. now apply in_map.
Qed.


(** ** Claims about the allocator *)

(** C1: when [allocateRoom], run on the graph built from the room store,
    returns success, the returned room is a room of the store that passes
    the four filters: its capacity is at least the requested one; when the
    request names a building (a non-empty string) the room's building is
    that very string; every facility requested as true is true on the room;
    and no booking of the ledger for that room_id on the requested date
    overlaps the requested [start, end) under the half-open rule. *)
Theorem allocateRoom_filters now bookingId requirements s node bid :
  snd (allocateRoom now bookingId requirements (buildRoomsGraph s)) = Success node bid ->
  In (Node.room node) (allRooms s) /\
  Req.capacity requirements <= Room.capacity (Node.room node) /\
  (Req.building requirements <> "" ->
   Room.building (Node.room node) = Req.building requirements) /\
  (forall f, Facilities.get (Req.facilities requirements) f = true ->
             Facilities.get (Room.facilities (Node.room node)) f = true) /\
  (forall booking,
      In booking (schedulesArray s) ->
      Room.room_id (Booking.room booking) = Room.room_id (Node.room node) ->
      Booking.date booking = Req.date requirements ->
      ~ overlap (Req.start_time requirements) (Req.end_time requirements)
                (Booking.start_time booking) (Booking.end_time booking)).
Proof.
  intros H. apply allocateRoom_success in H as (_ & k & Hin & Hs).
  change (roomsGraph (buildRoomsGraph s)) with (buildGraphOf (allRooms s)) in Hin.
  apply buildGraphOf_entry, lastWithId_Some in Hin as (Hk & pre & post & Hsplit & _).
  apply suitable_iff in Hs as (Hcap & Hb & Hf & Hav).
  change (schedulesArray (buildRoomsGraph s)) with (schedulesArray s) in Hav.
  split; [rewrite Hsplit; apply in_elt|].
  repeat split; try assumption.
  intros booking Hin Hroom Hdate Hover. apply Hover.
  apply Hav; [exact Hin|congruence|exact Hdate].
Qed.

Lemma allocateRoom_filters_witness :
  snd (allocateRoom "t0" "BK1" sampleRequest sampleState) = Success sampleWinner "BK1" /\
  Req.capacity sampleRequest <= Room.capacity (Node.room sampleWinner).
Proof.
  assert (H : snd (allocateRoom "t0" "BK1" sampleRequest sampleState)
              = Success sampleWinner "BK1") by reflexivity.
  split; [exact H|].
  exact (proj1 (proj2 (allocateRoom_filters _ _ _ _ _ _ H))).
Defined.




(** C3: [checkAvailability] answers false exactly when a booking of the
    ledger has the given room_id and date and overlaps the requested
    interval, that is unless [requestedEnd <= existingStart] or
    [requestedStart >= existingEnd]; with a booking of room "101" on
    2025-01-01 from 09:00 to 10:00 in the ledger, 09:30-10:30 is
    unavailable, and when the bookings of that room and date all run from
    09:00 to 10:00 the abutting 10:00-11:00 is available. *)
Theorem checkAvailability_half_open :
  (forall s roomId date startTime endTime,
      checkAvailability s roomId date startTime endTime = false <->
      exists booking,
        In booking (schedulesArray s) /\
        Room.room_id (Booking.room booking) = roomId /\
        Booking.date booking = date /\
        overlap startTime endTime (Booking.start_time booking) (Booking.end_time booking)) /\
  (forall s booking,
      In booking (schedulesArray s) ->
      Room.room_id (Booking.room booking) = "101" ->
      Booking.date booking = "2025-01-01" ->
      Booking.start_time booking = "09:00" ->
      Booking.end_time booking = "10:00" ->
      checkAvailability s "101" "2025-01-01" "09:30" "10:30" = false) /\
  (forall s,
      (forall booking,
          In booking (schedulesArray s) ->
          Room.room_id (Booking.room booking) = "101" ->
          Booking.date booking = "2025-01-01" ->
          Booking.start_time booking = "09:00" /\ Booking.end_time booking = "10:00") ->
      checkAvailability s "101" "2025-01-01" "10:00" "11:00" = true).
Proof.
  split; [exact checkAvailability_false_iff|split].
  - intros s booking Hin Hroom Hdate Hstart Hend.
    apply checkAvailability_false_iff. exists booking.
    repeat split; try assumption.
    rewrite Hstart, Hend. unfold overlap. vm_compute. intros [H|H]; discriminate.
  - intros s Hall. apply checkAvailability_true_iff.
    intros booking Hin Hroom Hdate.
    destruct (Hall booking Hin Hroom Hdate) as [Hstart Hend].
    right. rewrite Hend. reflexivity.
Qed.

Lemma checkAvailability_half_open_witness :
  In (sampleBooking "101" "2025-01-01" "09:00" "10:00") (schedulesArray bookedState) /\
  checkAvailability bookedState "101" "2025-01-01" "09:30" "10:30" = false /\
  checkAvailability bookedState "101" "2025-01-01" "10:00" "11:00" = true.
Proof.
  assert (Hin : In (sampleBooking "101" "2025-01-01" "09:00" "10:00")
                   (schedulesArray bookedState)) by (left; reflexivity).
  split; [exact Hin|split].
  - exact (proj1 (proj2 checkAvailability_half_open) bookedState _ Hin
                 eq_refl eq_refl eq_refl eq_refl).
  - apply (proj2 (proj2 checkAvailability_half_open) bookedState).
    intros booking [<-|[]] _ _. split; reflexivity.
Defined.

(** C7: a validation failure and a no-candidate failure are values of the
    outcome types.  When the end time is not after the start time the
    submit handler answers [InvalidTime] and returns the state as it was,
    whatever allocator it was given: the allocator is not run.  When no
    entry of the graph passes the four filters [allocateRoom] returns
    [Failure] with its fixed message and no room, and the handler passes
    that message on without adding a booking. *)
Theorem failures_are_outcomes :
  (forall allocate env formData s,
      str_lt (Req.start_time formData) (Req.end_time formData) = false ->
      handleAllocationSubmitWith allocate env formData s = (s, InvalidTime)) /\
  (forall now bookingId requirements s,
      (forall entry, In entry (roomsGraph s) -> suitable s requirements entry = false) ->
      allocateRoom now bookingId requirements s
      = (addLog now "info"
                ("Processing allocation request for " ++ Req.course_name requirements) s,
         Failure noRoomsMessage)) /\
  (forall env formData s,
      str_lt (Req.start_time formData) (Req.end_time formData) = true ->
      (forall entry, In entry (roomsGraph s) -> suitable s formData entry = false) ->
      snd (handleAllocationSubmit env formData s) = AllocationFailed noRoomsMessage /\
      schedulesArray (fst (handleAllocationSubmit env formData s)) = schedulesArray s).
Proof.
  split; [|split].
  - intros allocate env formData s Hlt. unfold handleAllocationSubmitWith.
    rewrite str_lt_not_ge in Hlt. apply negb_false_iff in Hlt. now rewrite Hlt.
  - intros now bookingId requirements s Hnone.
    apply suitableRooms_nil_iff in Hnone.
    unfold allocateRoom. rewrite suitableRooms_addLog, Hnone. reflexivity.
  - intros env formData s Hlt Hnone.
    apply suitableRooms_nil_iff in Hnone.
    unfold handleAllocationSubmit, handleAllocationSubmitWith.
    rewrite str_lt_not_ge in Hlt. apply negb_true_iff in Hlt. rewrite Hlt.
    unfold allocateRoom. rewrite suitableRooms_addLog, Hnone.
    split; reflexivity.
Qed.

Lemma failures_are_outcomes_witness :
  str_lt "10:00" "09:00" = false /\
  handleAllocationSubmit sampleEnv
    (Req.mk "Algebra" "Noether" "2025-01-01" "10:00" "09:00" 48 "" noFacilities)
    sampleState
  = (sampleState, InvalidTime).
Proof.
  split; [reflexivity|].
  apply (proj1 failures_are_outcomes). reflexivity.
Defined.

(** C9: the allocation path knows a room by its room_id alone.  The
    duplicate check of [handleAddRoomSubmit] accepts a room whose room_id
    is in the store under another building, and the rebuilt graph then
    holds the new room under that room_id and no other room with it.  For
    any store the graph has an entry under the room_id of every room, and
    every entry sits under its room's room_id and holds the last room of
    the store with that room_id.  So of rooms sharing a room_id the last is
    a candidate whenever it passes the filters, and is the room returned
    when no other candidate is as close to the requested capacity, while an
    earlier one is never returned.  And a booking that overlaps the
    requested interval on the requested date makes [checkAvailability]
    fail for its room_id, so [allocateRoom] returns no room with that
    room_id, whatever its building. *)
Theorem rooms_identified_by_room_id :
  (forall now newRoom s,
      (forall r, In r (allRooms s) ->
                 Room.room_id r = Room.room_id newRoom ->
                 Room.building r <> Room.building newRoom) ->
      snd (handleAddRoomSubmit now newRoom s) = true /\
      allRooms (fst (handleAddRoomSubmit now newRoom s)) = (allRooms s ++ [newRoom])%list /\
      roomsGraph (fst (handleAddRoomSubmit now newRoom s))
      = buildGraphOf (allRooms s ++ [newRoom]) /\
      (exists node,
          JsMap.get (Room.room_id newRoom)
                    (roomsGraph (fst (handleAddRoomSubmit now newRoom s))) = Some node /\
          Node.room node = newRoom) /\
      (forall k node,
          In (k, node) (roomsGraph (fst (handleAddRoomSubmit now newRoom s))) ->
          Room.room_id (Node.room node) = Room.room_id newRoom ->
          Node.room node = newRoom)) /\
  (forall s r,
      In r (allRooms s) ->
      exists node pre post,
        JsMap.get (Room.room_id r) (roomsGraph (buildRoomsGraph s)) = Some node /\
        Room.room_id (Node.room node) = Room.room_id r /\
        allRooms s = (pre ++ Node.room node :: post)%list /\
        ~ In (Room.room_id r) (ids post)) /\
  (forall s k node,
      In (k, node) (roomsGraph (buildRoomsGraph s)) ->
      k = Room.room_id (Node.room node) /\
      exists pre post,
        allRooms s = (pre ++ Node.room node :: post)%list /\
        ~ In (Room.room_id (Node.room node)) (ids post)) /\
  (forall now bookingId requirements s pre r post,
      allRooms s = (pre ++ r :: post)%list ->
      ~ In (Room.room_id r) (ids post) ->
      suitable s requirements (Room.room_id r, Node.mk r []) = true ->
      (exists candidate,
          In candidate (suitableRooms (buildRoomsGraph s) requirements) /\
          Node.room candidate = r) /\
      ((forall c,
           In c (suitableRooms (buildRoomsGraph s) requirements) ->
           capacityDiff requirements c
           <= Z.abs (Room.capacity r - Req.capacity requirements) ->
           Node.room c = r) ->
       exists node,
         snd (allocateRoom now bookingId requirements (buildRoomsGraph s))
         = Success node bookingId /\
         Node.room node = r)) /\
  (forall now bookingId requirements s node bid,
      snd (allocateRoom now bookingId requirements (buildRoomsGraph s)) = Success node bid ->
      exists pre post,
        allRooms s = (pre ++ Node.room node :: post)%list /\
        ~ In (Room.room_id (Node.room node)) (ids post)) /\
  (forall s booking (room : Room.t) startTime endTime,
      In booking (schedulesArray s) ->
      Room.room_id room = Room.room_id (Booking.room booking) ->
      overlap startTime endTime (Booking.start_time booking) (Booking.end_time booking) ->
      checkAvailability s (Room.room_id room) (Booking.date booking) startTime endTime = false) /\
  (forall now bookingId requirements s booking node bid,
      In booking (schedulesArray s) ->
      Booking.date booking = Req.date requirements ->
      overlap (Req.start_time requirements) (Req.end_time requirements)
              (Booking.start_time booking) (Booking.end_time booking) ->
      snd (allocateRoom now bookingId requirements (buildRoomsGraph s)) = Success node bid ->
      Room.room_id (Node.room node) <> Room.room_id (Booking.room booking)).
Proof.
  assert (Hentry : forall s k node,
             In (k, node) (roomsGraph (buildRoomsGraph s)) ->
             k = Room.room_id (Node.room node) /\
             exists pre post,
               allRooms s = (pre ++ Node.room node :: post)%list /\
               ~ In (Room.room_id (Node.room node)) (ids post)).
  { intros s k node Hin.
    change (roomsGraph (buildRoomsGraph s)) with (buildGraphOf (allRooms s)) in Hin.
    apply buildGraphOf_entry, lastWithId_Some in Hin as (Hk & pre & post & Hsplit & Hnot).
    split; [now symmetry|]. exists pre, post. now rewrite Hk. }
  split; [|split; [|split; [exact Hentry|split; [|split; [|split]]]]].
  - intros now newRoom s Hnew. unfold handleAddRoomSubmit.
    replace (roomExists newRoom (allRooms s)) with false.
    2:{ symmetry. unfold roomExists.
        destruct (existsb _ (allRooms s)) eqn:E; [|reflexivity].
        apply existsb_exists in E as (r & Hin & Hr).
        apply andb_true_iff in Hr as [Hid Hb].
        apply String.eqb_eq in Hid, Hb. now destruct (Hnew r Hin Hid). }
    cbn [fst snd].
    change (roomsGraph (addLog now "success"
              ("Added new room: " ++ Room.building newRoom ++ " " ++ Room.room_id newRoom)
              (buildRoomsGraph
                 (with_stored_rooms (Some (allRooms s ++ [newRoom])%list)
                    (with_allRooms (allRooms s ++ [newRoom])%list s)))))
      with (buildGraphOf (allRooms s ++ [newRoom])).
    assert (Hlast : lastWithId (Room.room_id newRoom) (allRooms s ++ [newRoom])
                    = Some newRoom)
      by (apply lastWithId_split with (pre := allRooms s) (post := []);
          [reflexivity|intros []]).
    repeat split.
    + destruct (buildGraphOf_get_last _ _ _ Hlast) as (node & Hin & Hnode).
      exists node. split; [|exact Hnode].
      apply In_get; [apply buildGraphOf_keys_NoDup|exact Hin].
    + intros k node Hin Hid.
      apply buildGraphOf_entry in Hin.
      pose proof (lastWithId_Some _ _ _ Hin) as (Hk & _).
      rewrite <- Hk, Hid, Hlast in Hin. congruence.
  - intros s r Hin.
    destruct (lastWithId (Room.room_id r) (allRooms s)) as [r'|] eqn:Hlast.
    2:{ apply lastWithId_None in Hlast. exfalso. apply Hlast. now apply in_map. }
    destruct (buildGraphOf_get_last _ _ _ Hlast) as (node & Hnode & Hroom).
    apply lastWithId_Some in Hlast as (Hid & pre & post & Hsplit & Hnot).
    exists node, pre, post. rewrite Hroom. repeat split; try assumption.
    apply In_get; [apply buildGraphOf_keys_NoDup|exact Hnode].
  - intros now bookingId requirements s pre r post Hsplit Hnot Hfit.
    assert (Hlast : lastWithId (Room.room_id r) (allRooms s) = Some r)
      by now apply lastWithId_split with (pre := pre) (post := post).
    destruct (buildGraphOf_get_last _ _ _ Hlast) as (candidate & Hin & Hroom).
    assert (Hcand : In candidate (suitableRooms (buildRoomsGraph s) requirements)).
    { unfold suitableRooms. apply in_map_iff. exists (Room.room_id r, candidate).
      split; [reflexivity|]. apply filter_In. split; [exact Hin|].
      change (suitable (buildRoomsGraph s) requirements (Room.room_id r, candidate))
        with (suitable s requirements
                (Room.room_id r, Node.mk (Node.room candidate) [])).
      now rewrite Hroom. }
    split; [now exists candidate|].
    intros Hclosest.
    destruct (allocateRoom_selects now bookingId requirements (buildRoomsGraph s))
      as (node & before & after & Hs & Hlist & Hbefore & Hafter).
    { intros E. rewrite E in Hcand. contradiction. }
    exists node. split; [exact Hs|].
    apply Hclosest; [rewrite Hlist; apply in_elt|].
    replace (Z.abs (Room.capacity r - Req.capacity requirements))
      with (capacityDiff requirements candidate)
      by (unfold capacityDiff; now rewrite Hroom).
    rewrite Hlist in Hcand. apply in_app_iff in Hcand as [Hc|[<-|Hc]].
    + specialize (Hbefore _ Hc). lia.
    + lia.
    + now apply Hafter.
  - intros now bookingId requirements s node bid H.
    apply allocateRoom_success in H as (_ & k & Hin & _).
    now apply Hentry in Hin.
  - intros s booking room startTime endTime Hin Hroom Hover.
    apply checkAvailability_false_iff. exists booking. auto.
  - intros now bookingId requirements s booking node bid Hin Hdate Hover H Hsame.
    apply allocateRoom_success in H as (_ & k & Hk & Hs).
    destruct (Hentry s k node Hk) as [-> _].
    apply suitable_iff in Hs as (_ & _ & _ & Hav).
    apply Hover. apply Hav; [exact Hin|now symmetry|exact Hdate].
Qed.

Lemma rooms_identified_by_room_id_witness :
  (forall r, In r (allRooms sampleState) ->
             Room.room_id r = Room.room_id twinRoom ->
             Room.building r <> Room.building twinRoom) /\
  allRooms twinState = (allRooms sampleState ++ [twinRoom])%list /\
  In (Room.mk "101" "Main" 50 1 (Facilities.mk true false true true true false))
     (allRooms twinState) /\
  (exists node,
      JsMap.get "101" (roomsGraph twinState) = Some node /\
      Node.room node = twinRoom) /\
  buildRoomsGraph twinState = twinState /\
  (exists node,
      snd (allocateRoom "t0" "BK1" twinRequest (buildRoomsGraph twinState))
      = Success node "BK1" /\
      Node.room node = twinRoom).
Proof.
  assert (H : forall r, In r (allRooms sampleState) ->
                        Room.room_id r = Room.room_id twinRoom ->
                        Room.building r <> Room.building twinRoom).
  { intros r Hin. vm_compute in Hin.
    repeat (destruct Hin as [<-|Hin]; [vm_compute; intros; discriminate|]).
    destruct Hin. }
  pose proof (proj1 rooms_identified_by_room_id "t0" twinRoom sampleState H)
    as (_ & Hrooms & _ & Hkey & _).
  split; [exact H|split; [exact Hrooms|split; [left; reflexivity|split; [exact Hkey|]]]].
  split; [vm_compute; reflexivity|].
  apply (proj2 (proj1 (proj2 (proj2 (proj2 rooms_identified_by_room_id)))
                  "t0" "BK1" twinRequest twinState sampleRooms twinRoom []
                  Hrooms
                  (fun absurd : In (Room.room_id twinRoom) (ids []) => absurd)
                  ltac:(vm_compute; reflexivity))).
  intros c Hin Hle. vm_compute in Hin.
  repeat (destruct Hin as [<-|Hin];
          [first [vm_compute; reflexivity | exfalso; apply Hle; vm_compute; reflexivity]|]).
  destruct Hin.
Defined.

(** ** Claim about the conflict detector *)

(** C5, as stated, fails: two records for the same room and date whose
    identical interval is empty (start and end both 09:00) overlap nothing
    under the half-open rule, and no pair is reported. *)
Lemma identical_empty_intervals_unreported :
  let b := sampleBooking "101" "2025-01-01" "09:00" "09:00" in
  snd (detectConflicts (with_schedulesArray [b; b] initialState)) = []
  /\ List.length (snd (detectConflicts (with_schedulesArray [b; b] initialState))) <> 1%nat.
Proof.
  vm_compute. split; [reflexivity|discriminate].
Qed.

(** C5 (amended): [detectConflicts] leaves the state as it is and returns
    exactly the pairs of ledger records at positions [i < j] that share
    room_id and date and overlap under the half-open rule, each once and in
    position order; an empty or single-entry ledger gives the empty list;
    a ledger of exactly two records with the same room, date and interval,
    the interval being non-empty (start before end), gives exactly that one
    pair. *)
Theorem detectConflicts_pairs :
  (forall s, fst (detectConflicts s) = s) /\
  (forall s, snd (detectConflicts s) = conflictingPairs (schedulesArray s)) /\
  (forall s b1 b2,
      In (b1, b2) (snd (detectConflicts s)) <->
      exists i j,
        (i < j)%nat /\
        nth_error (schedulesArray s) i = Some b1 /\
        nth_error (schedulesArray s) j = Some b2 /\
        Room.room_id (Booking.room b1) = Room.room_id (Booking.room b2) /\
        Booking.date b1 = Booking.date b2 /\
        overlap (Booking.start_time b1) (Booking.end_time b1)
                (Booking.start_time b2) (Booking.end_time b2)) /\
  (forall s, schedulesArray s = [] -> snd (detectConflicts s) = []) /\
  (forall s b, schedulesArray s = [b] -> snd (detectConflicts s) = []) /\
  (forall s b1 b2,
      schedulesArray s = [b1; b2] ->
      Room.room_id (Booking.room b1) = Room.room_id (Booking.room b2) ->
      Booking.date b1 = Booking.date b2 ->
      Booking.start_time b1 = Booking.start_time b2 ->
      Booking.end_time b1 = Booking.end_time b2 ->
      str_lt (Booking.start_time b1) (Booking.end_time b1) = true ->
      snd (detectConflicts s) = [(b1, b2)]).
Proof.
  assert (Hspec : forall s, snd (detectConflicts s) = conflictingPairs (schedulesArray s))
    by (intros s; apply conflictsOf_conflictingPairs).
  repeat split.
  - exact Hspec.
  - rewrite Hspec. intros Hin. apply In_conflictingPairs in Hin.
    destruct Hin as (i & j & Hij & Hi & Hj & Hc).
    exists i, j. apply conflicting_iff in Hc. tauto.
  - rewrite Hspec. intros (i & j & Hij & Hi & Hj & Hc).
    apply In_conflictingPairs. exists i, j.
    rewrite conflicting_iff. tauto.
  - intros s Hs. now rewrite Hspec, Hs.
  - intros s b Hs. now rewrite Hspec, Hs.
  - intros s b1 b2 Hs Hroom Hdate Hstart Hend Hlt.
    rewrite Hspec, Hs. simpl.
    replace (conflicting b1 b2) with true; [reflexivity|].
    symmetry. apply conflicting_iff. repeat split; try assumption.
    unfold overlap. rewrite <- Hstart, <- Hend.
    rewrite str_lt_not_ge in Hlt. apply negb_true_iff in Hlt.
    unfold str_ge in *. unfold str_le. intros [H|H]; congruence.
Qed.

Lemma detectConflicts_pairs_witness :
  let b := sampleBooking "101" "2025-01-01" "09:00" "10:00" in
  str_lt (Booking.start_time b) (Booking.end_time b) = true /\
  snd (detectConflicts (with_schedulesArray [b; b] initialState)) = [(b, b)].
Proof.
  intros b. split; [reflexivity|].
  apply (proj2 (proj2 (proj2 (proj2 (proj2 detectConflicts_pairs)))));
    reflexivity.
Defined.

(** ** Claims about the adjacency graph *)

(** C4: for a room store with pairwise distinct room_ids, after
    [buildRoomsGraph] the node of every room [a] holds [a], and a room [b]
    of the store is listed in its [adjacentRooms] exactly when [a] and [b]
    are distinct and either share the building or pass the capacity test
    [|capA - capB| / max(capA, capB) <= 0.25]; the listing is symmetric and
    no adjacency list has a duplicate.  On positive capacities the test is
    the inequality between rationals. *)
Theorem buildRoomsGraph_adjacency s :
  NoDup (ids (allRooms s)) ->
  (forall a,
      In a (allRooms s) ->
      exists node,
        JsMap.get (Room.room_id a) (roomsGraph (buildRoomsGraph s)) = Some node /\
        Node.room node = a /\
        NoDup (Node.adjacentRooms node) /\
        (forall x, In x (Node.adjacentRooms node) -> In x (ids (allRooms s))) /\
        (forall b,
            In b (allRooms s) ->
            (In (Room.room_id b) (Node.adjacentRooms node) <->
             a <> b /\
             (Room.building a = Room.building b \/
              similarCapacity (Room.capacity a) (Room.capacity b) = true)))) /\
  (forall a b nodeA nodeB,
      In a (allRooms s) -> In b (allRooms s) ->
      JsMap.get (Room.room_id a) (roomsGraph (buildRoomsGraph s)) = Some nodeA ->
      JsMap.get (Room.room_id b) (roomsGraph (buildRoomsGraph s)) = Some nodeB ->
      (In (Room.room_id b) (Node.adjacentRooms nodeA) <->
       In (Room.room_id a) (Node.adjacentRooms nodeB))) /\
  (forall c1 c2,
      0 < c1 -> 0 < c2 ->
      (similarCapacity c1 c2 = true <->
       (inject_Z (Z.abs (c1 - c2)) / inject_Z (Z.max c1 c2) <= 1 # 4)%Q)).
Proof.
  intros Hnd.
  assert (Hmem : forall a b,
             In a (allRooms s) -> In b (allRooms s) ->
             (In (Room.room_id b) (neighbours a (allRooms s)) <->
              a <> b /\
              (Room.building a = Room.building b \/
               similarCapacity (Room.capacity a) (Room.capacity b) = true))).
  { intros a b Ha Hb. rewrite In_neighbours. unfold linked, sameBuilding.
    split.
    - intros (b' & Hb' & Hid & Hne & Hl).
      assert (b' = b) by (apply (NoDup_map_inj Room.room_id (allRooms s)); assumption).
      subst b'. split; [intros ->; now apply Hne|].
      apply orb_true_iff in Hl as [Hl|Hl]; [left; now apply String.eqb_eq|now right].
    - intros (Hne & Hl). exists b. repeat split; try assumption.
      + intros E. apply Hne. symmetry.
        apply (NoDup_map_inj Room.room_id (allRooms s)); assumption.
      + apply orb_true_iff. destruct Hl as [Hl|Hl]; [left; now apply String.eqb_eq|now right]. }
  split; [|split].
  - intros a Ha. exists (Node.mk a (neighbours a (allRooms s))).
    split; [now apply buildGraphOf_node|]. split; [reflexivity|].
    split; [now apply NoDup_neighbours|].
    split; [intros x; apply neighbours_subset|].
    intros b Hb. now apply Hmem.
  - intros a b nodeA nodeB Ha Hb HA HB.
    change (roomsGraph (buildRoomsGraph s)) with (buildGraphOf (allRooms s)) in HA, HB.
    rewrite (buildGraphOf_node _ a Hnd Ha) in HA.
    rewrite (buildGraphOf_node _ b Hnd Hb) in HB.
    injection HA as <-. injection HB as <-. cbn [Node.adjacentRooms].
    rewrite (Hmem a b Ha Hb), (Hmem b a Hb Ha).
    rewrite (similarCapacity_sym (Room.capacity b) (Room.capacity a)).
    split; intros (Hne & [Hl|Hl]); (split; [now apply not_eq_sym|]); auto.
  - intros c1 c2 H1 H2. unfold similarCapacity. apply quotient_le_quarter_Q. lia.
Qed.

Lemma buildRoomsGraph_adjacency_witness :
  NoDup (ids (allRooms sampleState)) /\
  In (Node.room sampleWinner) (allRooms sampleState) /\
  exists node,
    JsMap.get "101" (roomsGraph (buildRoomsGraph sampleState)) = Some node /\
    Node.room node = Node.room sampleWinner /\
    NoDup (Node.adjacentRooms node).
Proof.
  assert (Hnd : NoDup (ids (allRooms sampleState))).
  { repeat (constructor;
            [simpl; intros H;
             repeat (destruct H as [H|H]; [discriminate H|]); exact H|]).
    constructor. }
  assert (Hin : In (Node.room sampleWinner) (allRooms sampleState))
    by (left; reflexivity).
  split; [exact Hnd|split; [exact Hin|]].
  destruct (proj1 (buildRoomsGraph_adjacency sampleState Hnd) _ Hin)
    as (node & Hget & Hroom & Hdup & _).
  exists node. repeat split; assumption.
Defined.

(** C8: for a room store with pairwise distinct room_ids the two builders
    agree.  [buildRoomsGraph], which runs the capacity test also after the
    building rule matched and skips the entries already present, and
    [RoomGraphVisualizer.buildGraph], which runs the capacity test only
    when the buildings differ, give every room the same adjacency list,
    hence the same set of adjacent room identifiers. *)
Theorem adjacency_builders_agree s :
  NoDup (ids (allRooms s)) ->
  viewOfGraph (roomsGraph (buildRoomsGraph s))
  = viewOfNodes (Vis.nodes (Vis.buildGraph (allRooms s))) /\
  (forall i room,
      nth_error (allRooms s) i = Some room ->
      exists node vnode,
        JsMap.get (Room.room_id room) (roomsGraph (buildRoomsGraph s)) = Some node /\
        nth_error (Vis.nodes (Vis.buildGraph (allRooms s))) i = Some vnode /\
        Vis.id vnode = Room.room_id room /\
        Node.adjacentRooms node = Vis.adjacentRooms vnode /\
        (forall x, In x (Node.adjacentRooms node) <-> In x (Vis.adjacentRooms vnode))).
Proof.
  intros Hnd.
  change (roomsGraph (buildRoomsGraph s)) with (buildGraphOf (allRooms s)).
  assert (Hview := builders_view (allRooms s) Hnd).
  split; [exact Hview|].
  intros i room Hi.
  assert (Hin : In room (allRooms s)) by now apply nth_error_In with i.
  exists (Node.mk room (neighbours room (allRooms s))).
  assert (Hget := buildGraphOf_node (allRooms s) room Hnd Hin).
  assert (Hsk := skeleton_buildGraphOf_distinct (allRooms s) Hnd).
  assert (Hpos : nth_error (buildGraphOf (allRooms s)) i
                 = Some (Room.room_id room, Node.mk room (neighbours room (allRooms s)))).
  { assert (H : nth_error (skeleton (buildGraphOf (allRooms s))) i
                = Some (Room.room_id room, room))
      by (rewrite Hsk, nth_error_map, Hi; reflexivity).
    unfold skeleton in H. rewrite nth_error_map in H.
    destruct (nth_error (buildGraphOf (allRooms s)) i) as [[k n]|] eqn:E; [|discriminate].
    cbn in H. injection H as -> Hroom.
    apply nth_error_In, In_get in E; [|apply buildGraphOf_keys_NoDup].
    rewrite Hget in E. now injection E as <-. }
  assert (Hv : nth_error (viewOfNodes (Vis.nodes (Vis.buildGraph (allRooms s)))) i
               = Some (Room.room_id room, neighbours room (allRooms s))).
  { rewrite <- Hview. unfold viewOfGraph. now rewrite nth_error_map, Hpos. }
  unfold viewOfNodes in Hv. rewrite nth_error_map in Hv.
  destruct (nth_error (Vis.nodes (Vis.buildGraph (allRooms s))) i) as [vnode|];
    [|discriminate].
  cbn in Hv. injection Hv as Hid Hadj.
  exists vnode. cbn [Node.adjacentRooms]. rewrite Hadj.
  repeat split; try assumption; tauto.
Qed.

Lemma adjacency_builders_agree_witness :
  NoDup (ids (allRooms threeRoomsState)) /\
  viewOfGraph (roomsGraph (buildRoomsGraph threeRoomsState))
  = viewOfNodes (Vis.nodes (Vis.buildGraph (allRooms threeRoomsState))).
Proof.
  assert (Hnd : NoDup (ids (allRooms threeRoomsState))).
  { repeat (constructor;
            [simpl; intros H;
             repeat (destruct H as [H|H]; [discriminate H|]); exact H|]).
    constructor. }
  split; [exact Hnd|].
  exact (proj1 (adjacency_builders_agree threeRoomsState Hnd)).
Defined.

(** ** Claims about the log queue *)

(** C6, as stated, fails: a queue loaded with 101 entries holds 101
    entries, and still does after the next [addLog]. *)
Lemma log_queue_over_bound_after_load :
  ~ queue_bounded
      (addLog "t1" "info" "next"
         (loadLogs (Fetched (Some (repeat (Log.mk "info" "old" "t0") 101))) initialState)).
Proof.
  unfold queue_bounded. vm_compute. lia.
Qed.

(** C6 (amended): [addLog] puts the new timestamped entry at the front and,
    when that makes more than 100 entries, drops the last one; a queue of
    at most 100 entries has at most 100 after [addLog], so a queue that
    starts empty and changes through [addLog] alone never exceeds 100;
    after 101 insertions into an empty queue the queue is the 101st down to
    the 2nd inserted entry: the 101st is at the front and the first is
    gone. *)
Theorem addLog_keeps_bound :
  (forall now type message s,
      let unshifted := Log.mk type message now :: logsQueue s in
      (unshifted =
       logsQueue (addLog now type message s)
       ++ (if (100 <? List.length unshifted)%nat
           then [last unshifted (Log.mk type message now)] else []))%list) /\
  (forall now type message s,
      queue_bounded s -> queue_bounded (addLog now type message s)) /\
  (forall es s, logsQueue s = [] -> queue_bounded (addLogs es s)) /\
  (forall first rest s,
      logsQueue s = [] -> List.length rest = 100%nat ->
      logsQueue (addLogs (first :: rest) s) = rev (map entryOf rest) /\
      hd_error (logsQueue (addLogs (first :: rest) s)) = Some (entryOf (last rest first)) /\
      (~ In (entryOf first) (map entryOf rest) ->
       ~ In (entryOf first) (logsQueue (addLogs (first :: rest) s)))).
Proof.
  split; [|split; [|split]].
  - intros now type message s unshifted. subst unshifted.
    unfold addLog. cbn [logsQueue with_stored_logs with_logsQueue].
    destruct (100 <? List.length (Log.mk type message now :: logsQueue s))%nat.
    + apply app_removelast_last. discriminate.
    + now rewrite app_nil_r.
  - intros. now apply addLog_bounded.
  - intros es s Hs. apply addLogs_bounded. unfold queue_bounded. rewrite Hs. simpl. lia.
  - intros first rest s Hs Hlen.
    assert (Hq : logsQueue (addLogs (first :: rest) s) = rev (map entryOf rest)).
    { rewrite addLogs_firstn by (unfold queue_bounded; rewrite Hs; simpl; lia).
      rewrite Hs, app_nil_r. cbn [map rev].
      rewrite firstn_app.
      rewrite firstn_all2 by (rewrite length_rev, length_map; lia).
      rewrite length_rev, length_map, Hlen. cbn [Nat.sub firstn].
      now rewrite app_nil_r. }
    rewrite Hq. split; [reflexivity|split].
    + destruct (exists_last (l := rest)) as [front [x Hx]].
      { intros E. rewrite E in Hlen. discriminate. }
      rewrite Hx, last_last, map_app, rev_app_distr. reflexivity.
    + intros Hnot Hin. apply Hnot. now apply in_rev.
Qed.

Lemma addLog_keeps_bound_witness :
  logsQueue initialState = [] /\
  List.length (repeat ("t", "info", "again") 100) = 100%nat /\
  logsQueue (addLogs (("t0", "info", "first") :: repeat ("t", "info", "again") 100)
                     initialState)
  = rev (map entryOf (repeat ("t", "info", "again") 100)).
Proof.
  split; [reflexivity|split; [reflexivity|]].
  apply (proj2 (proj2 (proj2 addLog_keeps_bound))); reflexivity.
Defined.



(** * Further properties of the code *)

(** ** The allocator *)

(** X1: [allocateRoom] fails only when nothing fits.  If a room that is
    the last of the store with its room_id (any room, when the room_ids
    are pairwise distinct) meets the capacity, building, facility and
    availability conditions, the allocation on the graph built from the
    store succeeds. *)
Theorem allocateRoom_succeeds_when_a_room_fits now bookingId requirements s room :
  lastWithId (Room.room_id room) (allRooms s) = Some room
  \/ (NoDup (ids (allRooms s)) /\ In room (allRooms s)) ->
  Req.capacity requirements <= Room.capacity room ->
  (Req.building requirements <> "" -> Room.building room = Req.building requirements) ->
  (forall f, Facilities.get (Req.facilities requirements) f = true ->
             Facilities.get (Room.facilities room) f = true) ->
  (forall booking,
      In booking (schedulesArray s) ->
      Room.room_id (Booking.room booking) = Room.room_id room ->
      Booking.date booking = Req.date requirements ->
      ~ overlap (Req.start_time requirements) (Req.end_time requirements)
                (Booking.start_time booking) (Booking.end_time booking)) ->
  exists node,
    snd (allocateRoom now bookingId requirements (buildRoomsGraph s))
    = Success node bookingId.
Proof.
  intros Hroom Hcap Hb Hf Hav.
  assert (Hlast : lastWithId (Room.room_id room) (allRooms s) = Some room).
  { destruct Hroom as [H|[Hnd Hin]]; [exact H|now apply lastWithId_distinct]. }
  destruct (buildGraphOf_get_last _ _ _ Hlast) as (node & Hin & Hnode).
  destruct (allocateRoom_selects now bookingId requirements (buildRoomsGraph s))
    as (best & _ & _ & Hs & _).
  - intros Hnil.
    pose proof (proj1 (suitableRooms_nil_iff (buildRoomsGraph s) requirements) Hnil
                      (Room.room_id room, node) Hin) as Hno.
    assert (Hyes : suitable (buildRoomsGraph s) requirements (Room.room_id room, node) = true).
    { apply suitable_iff. rewrite Hnode. repeat split; try assumption.
      intros booking Hbk Hid Hdate.
      change (schedulesArray (buildRoomsGraph s)) with (schedulesArray s) in Hbk.
      specialize (Hav booking Hbk Hid Hdate). unfold overlap in Hav.
      destruct (str_le (Req.end_time requirements) (Booking.start_time booking));
        [now left|].
      destruct (str_ge (Req.start_time requirements) (Booking.end_time booking));
        [now right|].
      exfalso. apply Hav. intros [H|H]; discriminate. }
    congruence.
  - now exists best.
Qed.

Lemma allocateRoom_succeeds_when_a_room_fits_witness :
  In (Node.room sampleWinner) (allRooms sampleState) /\
  exists node,
    snd (allocateRoom "t0" "BK1" sampleRequest (buildRoomsGraph sampleState))
    = Success node "BK1".
Proof.
  assert (Hin : In (Node.room sampleWinner) (allRooms sampleState)) by (left; reflexivity).
  split; [exact Hin|].
  apply (allocateRoom_succeeds_when_a_room_fits "t0" "BK1" sampleRequest sampleState
           (Node.room sampleWinner)).
  - left. vm_compute. reflexivity.
  - vm_compute. discriminate.
  - intros H. now contradiction H.
  - intros f Hf. destruct f; discriminate Hf.
  - intros booking [].
Defined.

(** X2: the room [allocateRoom] returns is a smallest one that fits: no
    entry of the graph that passes the four filters has a smaller
    capacity. *)
Theorem allocateRoom_smallest_fit now bookingId requirements s node bid :
  snd (allocateRoom now bookingId requirements s) = Success node bid ->
  forall k candidate,
    In (k, candidate) (roomsGraph s) ->
    suitable s requirements (k, candidate) = true ->
    Room.capacity (Node.room node) <= Room.capacity (Node.room candidate).
Proof.
  intros H k candidate Hin Hs.
  assert (Hcand : In candidate (suitableRooms s requirements)).
  { unfold suitableRooms. apply in_map_iff. exists (k, candidate).
    split; [reflexivity|]. apply filter_In. now split. }
  destruct (allocateRoom_selects now bookingId requirements s)
    as (best & pre & post & Hbest & Hsplit & Hpre & Hpost).
  { intros E. rewrite E in Hcand. contradiction. }
  rewrite Hbest in H. injection H as -> _.
  assert (Hmin : capacityDiff requirements node <= capacityDiff requirements candidate).
  { rewrite Hsplit in Hcand. apply in_app_iff in Hcand as [Hc|[<-|Hc]].
    - specialize (Hpre _ Hc). lia.
    - lia.
    - now apply Hpost. }
  assert (Hnode : Req.capacity requirements <= Room.capacity (Node.room node)).
  { assert (Hn : In node (suitableRooms s requirements))
      by (rewrite Hsplit; apply in_elt).
    unfold suitableRooms in Hn. apply in_map_iff in Hn as ([k' n] & Hn & Hf).
    simpl in Hn. subst n. apply filter_In in Hf as [_ Hf].
    now apply suitable_iff in Hf. }
  apply suitable_iff in Hs as [Hc _].
  unfold capacityDiff in Hmin. lia.
Qed.

Lemma allocateRoom_smallest_fit_witness :
  let node401 := Node.mk (Room.mk "401" "Engineering" 100 4
                                  (Facilities.mk true false true true true true))
                         ["301"] in
  snd (allocateRoom "t0" "BK1" sampleRequest sampleState) = Success sampleWinner "BK1" /\
  In ("401", node401) (roomsGraph sampleState) /\
  suitable sampleState sampleRequest ("401", node401) = true /\
  Room.capacity (Node.room sampleWinner) <= Room.capacity (Node.room node401).
Proof.
  intros node401.
  assert (H : snd (allocateRoom "t0" "BK1" sampleRequest sampleState)
              = Success sampleWinner "BK1") by (vm_compute; reflexivity).
  assert (Hin : In ("401", node401) (roomsGraph sampleState))
    by (vm_compute; do 5 right; left; reflexivity).
  assert (Hs : suitable sampleState sampleRequest ("401", node401) = true)
    by (vm_compute; reflexivity).
  split; [exact H|split; [exact Hin|split; [exact Hs|]]].
  exact (allocateRoom_smallest_fit _ _ _ _ _ _ H "401" node401 Hin Hs).
Defined.

(** ** The ledger under the submit handler *)

Lemma conflicting_clashes (existing new : Booking.t) :
  conflicting existing new
  = clashes (Room.room_id (Booking.room new)) (Booking.date new)
            (Booking.start_time new) (Booking.end_time new) existing.
Proof.
  unfold conflicting, sameRoomAndDate, overlapping, clashes, str_ge, str_le.
  destruct (String.eqb (Room.room_id (Booking.room existing))
                       (Room.room_id (Booking.room new))); [|reflexivity].
  destruct (String.eqb (Booking.date existing) (Booking.date new)); [|reflexivity].
  cbn [negb andb]. now rewrite orb_comm.
Qed.

Lemma length_conflictingPairs_app (l : list Booking.t) (b : Booking.t) :
  List.length (conflictingPairs (l ++ [b]))
  = (List.length (conflictingPairs l)
     + List.length (filter (fun existing => conflicting existing b) l))%nat.
Proof.
  induction l as [|x l IH]; [reflexivity|].
  cbn [app conflictingPairs filter].
  rewrite !length_app, !length_map, filter_app, length_app, IH. cbn [filter].
  destruct (conflicting x b); cbn [List.length]; lia.
Qed.

Lemma conflictingPairs_app_clear (l : list Booking.t) (b : Booking.t) :
  (forall existing, In existing l -> conflicting existing b = false) ->
  conflictingPairs (l ++ [b]) = conflictingPairs l.
Proof.
  induction l as [|x l IH]; intros Hclear; [reflexivity|].
  cbn [app conflictingPairs]. rewrite filter_app. cbn [filter].
  rewrite (Hclear x) by now left.
  rewrite app_nil_r, IH; [reflexivity|].
  intros existing Hin. apply Hclear. now right.
Qed.

Lemma append_free_booking s (b : Booking.t) :
  checkAvailability s (Room.room_id (Booking.room b)) (Booking.date b)
                    (Booking.start_time b) (Booking.end_time b) = true ->
  conflictingPairs (schedulesArray s ++ [b]) = conflictingPairs (schedulesArray s).
Proof.
  unfold checkAvailability. rewrite negb_true_iff. intros Hfree.
  apply conflictingPairs_app_clear.
  intros existing Hin. rewrite conflicting_clashes.
  destruct (clashes _ _ _ _ existing) eqn:E; [|reflexivity].
  assert (existsb (clashes (Room.room_id (Booking.room b)) (Booking.date b)
                           (Booking.start_time b) (Booking.end_time b))
                  (schedulesArray s) = true)
    by (apply existsb_exists; now exists existing).
  congruence.
Qed.

(** X3: the availability check and the conflict detector agree.  Adding a
    booking to the ledger adds as many conflicting pairs as the ledger has
    bookings clashing with it, and leaves the detector's answer as it was
    exactly when [checkAvailability] was true for the booking's room_id,
    date and interval. *)
Theorem detector_agrees_with_availability s (b : Booking.t) :
  let s' := with_schedulesArray (schedulesArray s ++ [b]) s in
  List.length (snd (detectConflicts s'))
  = (List.length (snd (detectConflicts s))
     + List.length (filter (clashes (Room.room_id (Booking.room b)) (Booking.date b)
                                    (Booking.start_time b) (Booking.end_time b))
                           (schedulesArray s)))%nat /\
  (snd (detectConflicts s') = snd (detectConflicts s) <->
   checkAvailability s (Room.room_id (Booking.room b)) (Booking.date b)
                     (Booking.start_time b) (Booking.end_time b) = true).
Proof.
  cbn zeta. unfold detectConflicts. cbn [snd schedulesArray with_schedulesArray].
  rewrite !conflictsOf_conflictingPairs.
  assert (Hlen := length_conflictingPairs_app (schedulesArray s) b).
  rewrite (filter_ext _ _ (fun x => conflicting_clashes x b)) in Hlen.
  split; [exact Hlen|].
  unfold checkAvailability. rewrite negb_true_iff. split.
  - intros Heq. rewrite Heq in Hlen.
    destruct (existsb _ (schedulesArray s)) eqn:E; [|reflexivity].
    apply existsb_exists in E as (x & Hin & Hx).
    assert (Hf : In x (filter (clashes (Room.room_id (Booking.room b)) (Booking.date b)
                                       (Booking.start_time b) (Booking.end_time b))
                              (schedulesArray s)))
      by (apply filter_In; now split).
    destruct (filter _ (schedulesArray s)); [destruct Hf|simpl in Hlen; lia].
  - intros Hfree. apply append_free_booking. unfold checkAvailability.
    now rewrite negb_true_iff.
Qed.

Lemma detector_agrees_with_availability_witness :
  let b := sampleBooking "101" "2025-01-01" "10:00" "11:00" in
  checkAvailability bookedState "101" "2025-01-01" "10:00" "11:00" = true /\
  snd (detectConflicts
         (with_schedulesArray (schedulesArray bookedState ++ [b]) bookedState))
  = snd (detectConflicts bookedState).
Proof.
  intros b.
  assert (H : checkAvailability bookedState "101" "2025-01-01" "10:00" "11:00" = true)
    by (vm_compute; reflexivity).
  split; [exact H|].
  exact (proj2 (proj2 (detector_agrees_with_availability bookedState b)) H).
Defined.

Lemma handleAllocationSubmit_cases env formData s :
  (str_ge (Req.start_time formData) (Req.end_time formData) = true /\
   handleAllocationSubmit env formData s = (s, InvalidTime))
  \/ (str_ge (Req.start_time formData) (Req.end_time formData) = false /\
      exists node,
        snd (allocateRoom (now_request env) (fresh_booking_id env) formData s)
        = Success node (fresh_booking_id env) /\
        snd (handleAllocationSubmit env formData s) = Allocated node (fresh_booking_id env) /\
        allRooms (fst (handleAllocationSubmit env formData s)) = allRooms s /\
        roomsGraph (fst (handleAllocationSubmit env formData s)) = roomsGraph s /\
        schedulesArray (fst (handleAllocationSubmit env formData s))
        = (schedulesArray s
           ++ [bookingOf formData node (fresh_booking_id env) (now_booking env)])%list /\
        stored_schedules (fst (handleAllocationSubmit env formData s))
        = Some (schedulesArray s
                ++ [bookingOf formData node (fresh_booking_id env) (now_booking env)])%list)
  \/ (str_ge (Req.start_time formData) (Req.end_time formData) = false /\
      snd (allocateRoom (now_request env) (fresh_booking_id env) formData s)
      = Failure noRoomsMessage /\
      snd (handleAllocationSubmit env formData s) = AllocationFailed noRoomsMessage /\
      allRooms (fst (handleAllocationSubmit env formData s)) = allRooms s /\
      roomsGraph (fst (handleAllocationSubmit env formData s)) = roomsGraph s /\
      schedulesArray (fst (handleAllocationSubmit env formData s)) = schedulesArray s /\
      stored_schedules (fst (handleAllocationSubmit env formData s)) = stored_schedules s).
Proof.
  unfold handleAllocationSubmit, handleAllocationSubmitWith.
  destruct (str_ge (Req.start_time formData) (Req.end_time formData)); [left; now split|].
  right. unfold allocateRoom. rewrite suitableRooms_addLog.
  destruct (suitableRooms s formData) as [|first rest].
  - right. repeat split.
  - left. split; [reflexivity|]. eexists. repeat split.
Qed.

Lemma synced_entry_key s k node :
  graphSynced s -> In (k, node) (roomsGraph s) -> k = Room.room_id (Node.room node).
Proof.
  unfold graphSynced. intros Hs Hin. rewrite Hs in Hin.
  apply buildGraphOf_entry, lastWithId_Some in Hin as (Hk & _). now symmetry.
Qed.

Lemma allocated_slot_free now bookingId formData s node bid :
  graphSynced s ->
  snd (allocateRoom now bookingId formData s) = Success node bid ->
  checkAvailability s (Room.room_id (Node.room node)) (Req.date formData)
                    (Req.start_time formData) (Req.end_time formData) = true.
Proof.
  intros Hsync H. apply allocateRoom_success in H as (_ & k & Hin & Hs).
  rewrite <- (synced_entry_key s k node Hsync Hin).
  apply suitable_iff in Hs as (_ & _ & _ & Hav).
  now apply checkAvailability_true_iff.
Qed.

Lemma submission_conflictingPairs env formData s :
  graphSynced s ->
  conflictingPairs (schedulesArray (fst (handleAllocationSubmit env formData s)))
  = conflictingPairs (schedulesArray s).
Proof.
  intros Hsync.
  destruct (handleAllocationSubmit_cases env formData s)
    as [[_ E]|[(_ & node & Halloc & _ & _ & _ & Hledger & _)
              |(_ & _ & _ & _ & _ & Hledger & _)]].
  - now rewrite E.
  - rewrite Hledger. apply append_free_booking.
    cbn [bookingOf Booking.room Booking.date Booking.start_time Booking.end_time].
    now apply (allocated_slot_free _ _ _ _ _ _ Hsync Halloc).
  - now rewrite Hledger.
Qed.

(** X4: a submission never adds a conflict.  Whatever the handler
    answers, on a state whose graph was built from its rooms the conflict
    detector returns after the submission what it returned before. *)
Theorem submission_adds_no_conflict env formData s :
  graphSynced s ->
  snd (detectConflicts (fst (handleAllocationSubmit env formData s)))
  = snd (detectConflicts s).
Proof.
  intros Hsync. unfold detectConflicts. cbn [snd].
  rewrite !conflictsOf_conflictingPairs. now apply submission_conflictingPairs.
Qed.

Lemma submission_adds_no_conflict_witness :
  graphSynced bookedState /\
  snd (detectConflicts (fst (handleAllocationSubmit sampleEnv sampleRequest bookedState)))
  = snd (detectConflicts bookedState).
Proof.
  assert (H : graphSynced bookedState) by (vm_compute; reflexivity).
  split; [exact H|]. exact (submission_adds_no_conflict sampleEnv sampleRequest bookedState H).
Defined.

Lemma same_interval_overlaps (formData : Req.t) :
  str_ge (Req.start_time formData) (Req.end_time formData) = false ->
  overlap (Req.start_time formData) (Req.end_time formData)
          (Req.start_time formData) (Req.end_time formData).
Proof.
  unfold overlap, str_ge, str_le. intros H [H'|H']; congruence.
Qed.

(** ** Invariants of a session *)

Lemma graphSynced_buildRoomsGraph s : graphSynced (buildRoomsGraph s).
Proof. reflexivity. Qed.

Lemma graphSynced_loadRooms response s : graphSynced (loadRooms response s).
Proof. apply graphSynced_buildRoomsGraph. Qed.

Lemma graphSynced_step s op : graphSynced s -> graphSynced (step s op).
Proof.
  intros Hs. destruct op as [now responses|now|response|response|response
                            |env formData|now newRoom|now type message|now];
    cbn [step].
  - unfold initializeApp.
    set (s3 := loadLogs _ _).
    destruct (allRooms (buildRoomsGraph s3)) eqn:E; [|reflexivity].
    destruct (reset_response responses); reflexivity.
  - unfold initializeOfflineMode.
    destruct (stored_rooms s), (stored_schedules s), (stored_logs s); reflexivity.
  - apply graphSynced_loadRooms.
  - destruct response as [payload|]; cbn [loadSchedule]; [exact Hs|].
    destruct (stored_schedules s); exact Hs.
  - destruct response as [payload|]; cbn [loadLogs]; [exact Hs|].
    destruct (stored_logs s); exact Hs.
  - unfold graphSynced.
    destruct (handleAllocationSubmit_cases env formData s)
      as [[_ E]|[(_ & n & _ & _ & Hr & Hg & _)|(_ & _ & _ & Hr & Hg & _)]].
    + now rewrite E.
    + now rewrite Hr, Hg.
    + now rewrite Hr, Hg.
  - unfold handleAddRoomSubmit.
    destruct (roomExists newRoom (allRooms s)); [exact Hs|reflexivity].
  - exact Hs.
  - exact Hs.
Qed.

Lemma graphSynced_run ops s : graphSynced s -> graphSynced (run ops s).
Proof.
  revert s. induction ops as [|op ops IH]; intros s Hs; [exact Hs|].
  apply IH. now apply graphSynced_step.
Qed.

Lemma graphSynced_pageLoad savedRooms savedSchedules savedLogs :
  graphSynced (pageLoad savedRooms savedSchedules savedLogs).
Proof. reflexivity. Qed.

(** *** What a step does to the ledger and its cached copy *)

Lemma loadSchedule_fetchedItems response s :
  loadSchedule response s
  = match fetchedItems response with
    | Some l => with_stored_schedules (Some l) (with_schedulesArray l s)
    | None =>
        match stored_schedules s with
        | Some savedSchedules => with_schedulesArray savedSchedules s
        | None => s
        end
    end.
Proof. destruct response as [[l|]|]; reflexivity. Qed.

Lemma ledger_loadRooms response s :
  schedulesArray (loadRooms response s) = schedulesArray s /\
  stored_schedules (loadRooms response s) = stored_schedules s.
Proof.
  unfold loadRooms. destruct response; [split; reflexivity|].
  destruct (stored_rooms s); split; reflexivity.
Qed.

Lemma ledger_loadLogs response s :
  schedulesArray (loadLogs response s) = schedulesArray s /\
  stored_schedules (loadLogs response s) = stored_schedules s.
Proof.
  unfold loadLogs. destruct response; [split; reflexivity|].
  destruct (stored_logs s); split; reflexivity.
Qed.

Lemma ledger_initializeSampleData now response s :
  schedulesArray (initializeSampleData now response s) = schedulesArray s /\
  stored_schedules (initializeSampleData now response s) = stored_schedules s.
Proof.
  destruct response as [reload| |]; [|split; reflexivity|split; reflexivity].
  destruct (ledger_loadRooms reload s) as [H1 H2]. split; [exact H1|exact H2].
Qed.

Lemma ledger_initializeApp now responses s :
  let s2 := loadSchedule (schedule_response responses)
              (loadRooms (rooms_response responses) s) in
  schedulesArray (initializeApp now responses s) = schedulesArray s2 /\
  stored_schedules (initializeApp now responses s) = stored_schedules s2.
Proof.
  cbn zeta. unfold initializeApp.
  set (s2 := loadSchedule _ (loadRooms _ s)).
  set (s3 := loadLogs (logs_response responses) s2).
  destruct (ledger_loadLogs (logs_response responses) s2) as [H1 H2]. fold s3 in H1, H2.
  destruct (allRooms (buildRoomsGraph s3)).
  - destruct (ledger_initializeSampleData now (reset_response responses) (buildRoomsGraph s3))
      as [H3 H4].
    split; [now rewrite H3|now rewrite H4].
  - split; [exact H1|exact H2].
Qed.

(** A step takes a ledger from the remote service, or installs the cached
    one, or appends the booking of a successful allocation, or leaves the
    ledger and its cached copy as they were. *)
Lemma ledger_step s op :
  (exists l,
      fetchedSchedule op = Some l /\
      schedulesArray (step s op) = l /\ stored_schedules (step s op) = Some l)
  \/ (exists l,
         stored_schedules s = Some l /\
         schedulesArray (step s op) = l /\ stored_schedules (step s op) = Some l)
  \/ (exists env formData node,
         snd (allocateRoom (now_request env) (fresh_booking_id env) formData s)
         = Success node (fresh_booking_id env) /\
         schedulesArray (step s op)
         = (schedulesArray s
            ++ [bookingOf formData node (fresh_booking_id env) (now_booking env)])%list /\
         stored_schedules (step s op) = Some (schedulesArray (step s op)))
  \/ (fetchedSchedule op = None /\
      schedulesArray (step s op) = schedulesArray s /\
      stored_schedules (step s op) = stored_schedules s).
Proof.
  assert (Hload : forall response s0 s',
             schedulesArray s' = schedulesArray (loadSchedule response s0) ->
             stored_schedules s' = stored_schedules (loadSchedule response s0) ->
             schedulesArray s0 = schedulesArray s ->
             stored_schedules s0 = stored_schedules s ->
             (exists l,
                 fetchedItems response = Some l /\
                 schedulesArray s' = l /\ stored_schedules s' = Some l)
             \/ (exists l,
                    stored_schedules s = Some l /\
                    schedulesArray s' = l /\ stored_schedules s' = Some l)
             \/ (fetchedItems response = None /\
                 schedulesArray s' = schedulesArray s /\
                 stored_schedules s' = stored_schedules s)).
  { intros response s0 s' H1 H2 H3 H4.
    rewrite loadSchedule_fetchedItems in H1, H2.
    destruct (fetchedItems response) as [l|].
    - left. exists l. now repeat split.
    - rewrite H4 in H1, H2. revert H1 H2.
      destruct (stored_schedules s) as [l|] eqn:E; cbn; intros H1 H2.
      + right; left. exists l. repeat split; [exact H1|]. now rewrite H2, H4.
      + right; right. repeat split; [now rewrite H1|now rewrite H2]. }
  destruct op as [now responses|now|response|response|response
                 |env formData|now newRoom|now type message|now];
    cbn [step fetchedSchedule].
  - destruct (ledger_initializeApp now responses s) as [H1 H2].
    destruct (ledger_loadRooms (rooms_response responses) s) as [H3 H4].
    destruct (Hload _ _ _ H1 H2 H3 H4) as [H|[H|H]]; tauto.
  - right. unfold initializeOfflineMode.
    destruct (stored_schedules s) as [l|] eqn:E.
    + left. exists l. split; [reflexivity|].
      destruct (stored_rooms s), (stored_logs s); cbn; now rewrite ?E.
    + right; right. split; [reflexivity|].
      destruct (stored_rooms s), (stored_logs s); cbn; now rewrite ?E.
  - do 3 right. split; [reflexivity|apply ledger_loadRooms].
  - destruct (Hload response s (loadSchedule response s)) as [H|[H|H]]; tauto.
  - do 3 right. split; [reflexivity|apply ledger_loadLogs].
  - destruct (handleAllocationSubmit_cases env formData s)
      as [[_ E]|[(_ & node & Halloc & _ & _ & _ & Hledger & Hstored)
                |(_ & _ & _ & _ & _ & Hledger & Hstored)]].
    + do 3 right. rewrite E. now repeat split.
    + right; right; left. exists env, formData, node.
      split; [exact Halloc|split; [exact Hledger|]]. now rewrite Hstored, Hledger.
    + do 3 right. now repeat split.
  - do 3 right. split; [reflexivity|]. unfold handleAddRoomSubmit.
    destruct (roomExists newRoom (allRooms s)); split; reflexivity.
  - do 3 right. now repeat split.
  - do 3 right. now repeat split.
Qed.

Lemma conflictFree_frame s s' :
  schedulesArray s' = schedulesArray s ->
  stored_schedules s' = stored_schedules s ->
  conflictFree s -> conflictFree s'.
Proof.
  unfold conflictFree. intros -> ->. tauto.
Qed.

Lemma conflictFree_step s op :
  fetchedScheduleFree op -> graphSynced s -> conflictFree s -> conflictFree (step s op).
Proof.
  intros Hop Hsync [Hfree Hcached]. unfold conflictFree.
  destruct (ledger_step s op)
    as [(l & Hl & -> & ->)
       |[(l & Hl & -> & ->)
        |[(env & formData & node & Halloc & Hledger & ->)|(_ & -> & ->)]]].
  - assert (H : conflictingPairs l = [])
      by (rewrite <- conflictsOf_conflictingPairs; now apply Hop).
    split; [exact H|]. intros l' E. now injection E as <-.
  - assert (H : conflictingPairs l = []) by now apply Hcached.
    split; [exact H|]. intros l' E. now injection E as <-.
  - assert (H : conflictingPairs (schedulesArray (step s op)) = []).
    { rewrite Hledger, append_free_booking; [exact Hfree|].
      cbn [bookingOf Booking.room Booking.date Booking.start_time Booking.end_time].
      now apply (allocated_slot_free _ _ _ _ _ _ Hsync Halloc). }
    split; [exact H|]. intros l' E. now injection E as <-.
  - now split.
Qed.

Lemma conflictFree_run ops s :
  Forall fetchedScheduleFree ops -> graphSynced s -> conflictFree s ->
  conflictFree (run ops s).
Proof.
  intros Hops. revert s.
  induction Hops as [|op ops Hop Hops IH]; intros s Hs Hf; [exact Hf|].
  apply IH; [now apply graphSynced_step|now apply conflictFree_step].
Qed.

Lemma bookingHeld_step b s op :
  keepsBooking b op -> bookingHeld b s -> bookingHeld b (step s op).
Proof.
  intros Hop [Hin (cached & Hcached & Hin')]. unfold bookingHeld.
  destruct (ledger_step s op)
    as [(l & Hl & -> & ->)
       |[(l & Hl & -> & ->)
        |[(env & formData & node & _ & Hledger & ->)|(_ & -> & ->)]]].
  - assert (H : In b l) by now apply Hop.
    split; [exact H|]. now exists l.
  - assert (H : In b l) by congruence.
    split; [exact H|]. now exists l.
  - assert (H : In b (schedulesArray (step s op)))
      by (rewrite Hledger; apply in_or_app; now left).
    split; [exact H|]. now exists (schedulesArray (step s op)).
  - split; [exact Hin|]. now exists cached.
Qed.

Lemma bookingHeld_run b ops s :
  Forall (keepsBooking b) ops -> bookingHeld b s -> bookingHeld b (run ops s).
Proof.
  intros Hops. revert s.
  induction Hops as [|op ops Hop Hops IH]; intros s Hs; [exact Hs|].
  apply IH. now apply bookingHeld_step.
Qed.

(** On a state whose graph was built from its rooms, a submission for the
    date of a booking of the ledger and an interval that overlaps it is
    never given the room_id of that booking. *)
Lemma booked_room_not_allocated env formData s b node bid :
  graphSynced s ->
  In b (schedulesArray s) ->
  Req.date formData = Booking.date b ->
  overlap (Req.start_time formData) (Req.end_time formData)
          (Booking.start_time b) (Booking.end_time b) ->
  snd (handleAllocationSubmit env formData s) = Allocated node bid ->
  Room.room_id (Node.room node) <> Room.room_id (Booking.room b).
Proof.
  intros Hsync Hin Hdate Hover Hout Hsame.
  destruct (handleAllocationSubmit_cases env formData s)
    as [[_ E]|[(_ & n & Halloc & Hout' & _)|(_ & _ & Hout' & _)]];
    [rewrite E in Hout; discriminate| |rewrite Hout' in Hout; discriminate].
  rewrite Hout' in Hout. injection Hout as -> _.
  pose proof (allocated_slot_free _ _ _ _ _ _ Hsync Halloc) as Hfree.
  rewrite checkAvailability_true_iff in Hfree.
  apply Hover. apply (Hfree b); [exact Hin|now symmetry|now symmetry].
Qed.

(** X5: no double booking through the handler while the booking is in
    the ledger.  After a submission that allocated a room on a state whose
    graph was built from its rooms, and after any further operations in
    which every schedule taken from the remote service still lists the
    booking (a schedule request that fails falls back on the cache, which
    holds it), the booking is in the ledger, and
    a submission for the same date whose interval overlaps the first one
    is never given a room with the same room_id; in particular the same
    form submitted again is not.  A schedule from the remote service that
    does not list the booking frees the room: after the sample request was
    allocated and an empty schedule was loaded, the same form gets the
    same room again. *)
Theorem resubmission_gets_another_room :
  (forall env formData s node bid ops,
      graphSynced s ->
      snd (handleAllocationSubmit env formData s) = Allocated node bid ->
      Forall (keepsBooking (bookingOf formData node bid (now_booking env))) ops ->
      let later := run ops (fst (handleAllocationSubmit env formData s)) in
      In (bookingOf formData node bid (now_booking env)) (schedulesArray later) /\
      (forall env' formData' node' bid',
          Req.date formData' = Req.date formData ->
          overlap (Req.start_time formData') (Req.end_time formData')
                  (Req.start_time formData) (Req.end_time formData) ->
          snd (handleAllocationSubmit env' formData' later) = Allocated node' bid' ->
          Room.room_id (Node.room node') <> Room.room_id (Node.room node)) /\
      (forall env' node' bid',
          snd (handleAllocationSubmit env' formData later) = Allocated node' bid' ->
          Room.room_id (Node.room node') <> Room.room_id (Node.room node))) /\
  (let first := handleAllocationSubmit sampleEnv sampleRequest sampleState in
   snd first = Allocated sampleWinner "BK1" /\
   snd (handleAllocationSubmit sampleEnv sampleRequest
          (run [OpLoadSchedule (Fetched (Some []))] (fst first)))
   = Allocated sampleWinner "BK1").
Proof.
  split; [|vm_compute; split; reflexivity].
  intros env formData s node bid ops Hsync Hfirst Hops. cbn zeta.
  destruct (handleAllocationSubmit_cases env formData s)
    as [[_ E]|[(Hvalid & n & _ & Hout & Hrooms & Hgraph & Hledger & Hstored)
              |(_ & _ & Hout & _)]];
    [rewrite E in Hfirst; discriminate| |rewrite Hout in Hfirst; discriminate].
  rewrite Hout in Hfirst. injection Hfirst as -> <-.
  set (b := bookingOf formData node (fresh_booking_id env) (now_booking env)) in *.
  set (s1 := fst (handleAllocationSubmit env formData s)) in *.
  assert (Hsync1 : graphSynced s1) by (unfold graphSynced; now rewrite Hgraph, Hrooms).
  assert (Hheld1 : bookingHeld b s1).
  { split; [rewrite Hledger; apply in_elt|].
    eexists. split; [exact Hstored|apply in_elt]. }
  pose proof (graphSynced_run ops s1 Hsync1) as Hsync2.
  pose proof (bookingHeld_run b ops s1 Hops Hheld1) as [Hin _].
  assert (Hgen : forall env' formData' node' bid',
             Req.date formData' = Req.date formData ->
             overlap (Req.start_time formData') (Req.end_time formData')
                     (Req.start_time formData) (Req.end_time formData) ->
             snd (handleAllocationSubmit env' formData' (run ops s1)) = Allocated node' bid' ->
             Room.room_id (Node.room node') <> Room.room_id (Node.room node)).
  { intros env' formData' node' bid' Hdate Hover Hsecond.
    exact (booked_room_not_allocated env' formData' (run ops s1) b node' bid'
             Hsync2 Hin Hdate Hover Hsecond). }
  split; [exact Hin|split; [exact Hgen|]].
  intros env' node' bid'. apply Hgen; [reflexivity|].
  now apply same_interval_overlaps.
Qed.

Lemma resubmission_gets_another_room_witness :
  let booking := bookingOf sampleRequest sampleWinner "BK1" "t1" in
  let ops := [OpLoadSchedule FetchFailed;
              OpAddRoom "t3" twinRoom;
              OpLoadSchedule (Fetched (Some [booking]))] in
  graphSynced sampleState /\
  snd (handleAllocationSubmit sampleEnv sampleRequest sampleState)
  = Allocated sampleWinner "BK1" /\
  Forall (keepsBooking booking) ops /\
  forall node' bid',
    snd (handleAllocationSubmit sampleEnv sampleRequest
           (run ops (fst (handleAllocationSubmit sampleEnv sampleRequest sampleState))))
    = Allocated node' bid' ->
    Room.room_id (Node.room node') <> Room.room_id (Node.room sampleWinner).
Proof.
  intros booking ops.
  assert (Hs : graphSynced sampleState) by (vm_compute; reflexivity).
  assert (H1 : snd (handleAllocationSubmit sampleEnv sampleRequest sampleState)
               = Allocated sampleWinner "BK1") by (vm_compute; reflexivity).
  assert (Hops : Forall (keepsBooking booking) ops).
  { repeat constructor; intros l E; cbn in E; try discriminate E.
    injection E as <-. left. reflexivity. }
  split; [exact Hs|split; [exact H1|split; [exact Hops|]]].
  exact (proj2 (proj2 (proj1 resubmission_gets_another_room sampleEnv sampleRequest
                         sampleState sampleWinner "BK1" ops Hs H1 Hops)) sampleEnv).
Defined.

(** X6: the graph is never stale.  From any page load, whatever the cache
    held, in every state a session reaches by any sequence of loads,
    submissions, added rooms and log operations, [roomsGraph] is the graph
    [buildRoomsGraph] makes of the current [allRooms]; so every entry sits
    under the room_id of its own room record. *)
Theorem session_graph_synced savedRooms savedSchedules savedLogs ops :
  graphSynced (run ops (pageLoad savedRooms savedSchedules savedLogs)) /\
  forall k node,
    In (k, node) (roomsGraph (run ops (pageLoad savedRooms savedSchedules savedLogs))) ->
    k = Room.room_id (Node.room node) /\
    In (Node.room node) (allRooms (run ops (pageLoad savedRooms savedSchedules savedLogs))).
Proof.
  assert (Hsync : graphSynced (run ops (pageLoad savedRooms savedSchedules savedLogs)))
    by apply graphSynced_run, graphSynced_pageLoad.
  split; [exact Hsync|].
  intros k node Hin. split; [now apply (synced_entry_key _ _ _ Hsync)|].
  rewrite Hsync in Hin.
  apply buildGraphOf_entry, lastWithId_Some in Hin as (_ & pre & post & -> & _).
  apply in_elt.
Qed.

Lemma session_graph_synced_witness :
  let ops := [OpInitializeOfflineMode "t0"; OpSubmitAllocation sampleEnv sampleRequest] in
  In ("101", sampleWinner) (roomsGraph (run ops (pageLoad None None None))) /\
  "101" = Room.room_id (Node.room sampleWinner).
Proof.
  intros ops.
  assert (H : In ("101", sampleWinner) (roomsGraph (run ops (pageLoad None None None))))
    by (vm_compute; left; reflexivity).
  split; [exact H|].
  exact (proj1 (proj2 (session_graph_synced None None None ops) "101" sampleWinner H)).
Defined.

(** X7: double bookings come from outside only.  From any page load whose
    cached ledger, if there is one, holds no conflicting pair, by any
    operations whose schedules from the remote service hold no conflicting
    pair (a schedule request may also fail and fall back on the cache),
    [detectConflicts] finds no conflict in any state the session reaches,
    in the ledger and in the cached ledger alike: the submit handler never
    adds one. *)
Theorem session_ledger_conflict_free savedRooms savedSchedules savedLogs ops :
  (forall l, savedSchedules = Some l -> conflictsOf l = []) ->
  Forall fetchedScheduleFree ops ->
  snd (detectConflicts (run ops (pageLoad savedRooms savedSchedules savedLogs))) = [] /\
  conflictFree (run ops (pageLoad savedRooms savedSchedules savedLogs)).
Proof.
  intros Hsaved Hops.
  assert (Hfree : conflictFree (run ops (pageLoad savedRooms savedSchedules savedLogs))).
  { apply conflictFree_run; [exact Hops|apply graphSynced_pageLoad|].
    split; [reflexivity|]. intros l E.
    rewrite <- conflictsOf_conflictingPairs. now apply Hsaved. }
  split; [|exact Hfree].
  unfold detectConflicts. cbn [snd]. rewrite conflictsOf_conflictingPairs.
  exact (proj1 Hfree).
Qed.

Lemma session_ledger_conflict_free_witness :
  let cached := [sampleBooking "101" "2025-01-01" "09:00" "10:00"] in
  let ops := [OpInitializeOfflineMode "t0";
              OpSubmitAllocation sampleEnv sampleRequest;
              OpLoadSchedule FetchFailed;
              OpSubmitAllocation sampleEnv sampleRequest;
              OpLoadSchedule (Fetched (Some cached));
              OpSubmitAllocation sampleEnv sampleRequest] in
  (forall l, Some cached = Some l -> conflictsOf l = []) /\
  Forall fetchedScheduleFree ops /\
  List.length (schedulesArray (run ops (pageLoad None (Some cached) None))) = 2%nat /\
  snd (detectConflicts (run ops (pageLoad None (Some cached) None))) = [].
Proof.
  intros cached ops.
  assert (Hc : forall l, Some cached = Some l -> conflictsOf l = [])
    by (intros l E; injection E as <-; vm_compute; reflexivity).
  assert (H : Forall fetchedScheduleFree ops).
  { repeat constructor; intros l E; cbn in E; try discriminate E.
    injection E as <-. vm_compute. reflexivity. }
  split; [exact Hc|split; [exact H|split; [vm_compute; reflexivity|]]].
  exact (proj1 (session_ledger_conflict_free None (Some cached) None ops Hc H)).
Defined.

Lemma logsBounded_addLog now type message s :
  logsBounded s -> logsBounded (addLog now type message s).
Proof.
  intros [Hq Hc]. split; [now apply addLog_bounded|].
  intros l Hl. cbn in Hl. injection Hl as <-.
  now apply (addLog_bounded now type message s).
Qed.

Lemma logsBounded_frame s s' :
  logsQueue s' = logsQueue s -> stored_logs s' = stored_logs s ->
  logsBounded s -> logsBounded s'.
Proof.
  unfold logsBounded, queue_bounded. intros -> ->. tauto.
Qed.

Lemma logsBounded_loadLogs response s :
  match response with
  | Fetched (Some l) => (List.length l <= 100)%nat
  | _ => True
  end ->
  logsBounded s -> logsBounded (loadLogs response s).
Proof.
  intros Hresp Hb. assert (Hb' := Hb). destruct Hb' as [Hq Hc].
  destruct response as [[l|]|]; cbn [loadLogs].
  - split; [exact Hresp|]. intros l' Hl'. cbn in Hl'. now injection Hl' as <-.
  - split; [unfold queue_bounded; cbn; lia|].
    intros l' Hl'. cbn in Hl'. injection Hl' as <-. cbn. lia.
  - destruct (stored_logs s) as [l|] eqn:E; [|exact Hb].
    split; [now apply Hc|]. intros l' Hl'. cbn in Hl'. apply Hc. congruence.
Qed.

Lemma logsBounded_step s op :
  fetchedLogsBounded op -> logsBounded s -> logsBounded (step s op).
Proof.
  intros Hop Hb.
  assert (Hrooms : forall response s0, logsBounded s0 -> logsBounded (loadRooms response s0)).
  { intros response s0. apply logsBounded_frame;
      unfold loadRooms; destruct response; try reflexivity;
        destruct (stored_rooms s0); reflexivity. }
  destruct op as [now responses|now|response|response|response
                 |env formData|now newRoom|now type message|now];
    cbn [step].
  - cbn [fetchedLogsBounded] in Hop. unfold initializeApp.
    set (s1 := loadRooms (rooms_response responses) s).
    assert (H1 : logsBounded s1) by now apply Hrooms.
    set (s2 := loadSchedule (schedule_response responses) s1).
    assert (H2 : logsBounded s2).
    { apply (logsBounded_frame s1); [| |exact H1];
        unfold s2, loadSchedule; destruct (schedule_response responses); try reflexivity;
          destruct (stored_schedules s1); reflexivity. }
    assert (H3 : logsBounded (loadLogs (logs_response responses) s2))
      by now apply logsBounded_loadLogs.
    set (s3 := loadLogs (logs_response responses) s2) in *.
    destruct (allRooms (buildRoomsGraph s3)) eqn:E; [|exact H3].
    destruct (reset_response responses) as [reload| |]; cbn [initializeSampleData].
    + apply logsBounded_addLog. apply Hrooms. exact H3.
    + exact H3.
    + apply logsBounded_addLog. exact H3.
  - unfold initializeOfflineMode.
    assert (Hsample : logsBounded (initializeSampleDataOffline now s)).
    { apply logsBounded_addLog.
      apply (logsBounded_frame s); [reflexivity|reflexivity|exact Hb]. }
    destruct (stored_rooms s) as [rooms|], (stored_schedules s) as [schedules|],
             (stored_logs s) as [logs|] eqn:El; cbv zeta.
    all: split;
      first [ exact (proj2 Hb _ El) | exact (proj1 Hb) | exact (proj1 Hsample)
            | exact (proj2 Hb) | exact (proj2 Hsample) ].
  - now apply Hrooms.
  - apply (logsBounded_frame s); [| |exact Hb];
      unfold loadSchedule; destruct response; try reflexivity;
        destruct (stored_schedules s); reflexivity.
  - now apply logsBounded_loadLogs.
  - unfold handleAllocationSubmit, handleAllocationSubmitWith.
    destruct (str_ge (Req.start_time formData) (Req.end_time formData)); [exact Hb|].
    unfold allocateRoom. rewrite suitableRooms_addLog.
    destruct (suitableRooms s formData); cbn [fst].
    + do 2 apply logsBounded_addLog. exact Hb.
    + apply logsBounded_addLog.
      apply (logsBounded_frame (addLog (now_request env) "info"
               ("Processing allocation request for " ++ Req.course_name formData) s));
        [reflexivity|reflexivity|]. now apply logsBounded_addLog.
  - unfold handleAddRoomSubmit. destruct (roomExists newRoom (allRooms s)); [exact Hb|].
    cbn [fst]. apply logsBounded_addLog.
    apply (logsBounded_frame s); [reflexivity|reflexivity|exact Hb].
  - now apply logsBounded_addLog.
  - unfold clearLogs. apply logsBounded_addLog. split.
    + unfold queue_bounded. cbn. lia.
    + intros l Hl. cbn in Hl. injection Hl as <-. cbn. lia.
Qed.

(** X8: the log bound over a whole session.  From any page load whose
    cached log queue, if there is one, has at most 100 entries, by any
    operations whose log payloads from the remote service have at most 100
    entries, the log queue and its cached copy have at most 100 entries
    in every state the session reaches; the fallback on the cache and the
    offline restore keep the bound. *)
Theorem session_logs_bounded savedRooms savedSchedules savedLogs ops :
  (forall l, savedLogs = Some l -> (List.length l <= 100)%nat) ->
  Forall fetchedLogsBounded ops ->
  logsBounded (run ops (pageLoad savedRooms savedSchedules savedLogs)).
Proof.
  intros Hsaved Hops.
  assert (H : forall s, logsBounded s -> logsBounded (run ops s)).
  { induction Hops as [|op ops Hop Hops IH]; intros s Hs; [exact Hs|].
    apply IH. now apply logsBounded_step. }
  apply H. split; [unfold queue_bounded; cbn; lia|exact Hsaved].
Qed.

Lemma session_logs_bounded_witness :
  let cached := repeat (Log.mk "info" "old" "t0") 100 in
  let ops := [OpLoadLogs FetchFailed;
              OpAddLog "t1" "info" "next";
              OpLoadLogs (Fetched (Some cached));
              OpInitializeOfflineMode "t2"] in
  (forall l, Some cached = Some l -> (List.length l <= 100)%nat) /\
  Forall fetchedLogsBounded ops /\
  logsBounded (run ops (pageLoad None None (Some cached))).
Proof.
  intros cached ops.
  assert (Hc : forall l, Some cached = Some l -> (List.length l <= 100)%nat).
  { intros l E. injection E as <-. unfold cached. rewrite repeat_length. lia. }
  assert (H : Forall fetchedLogsBounded ops).
  { constructor; [exact I|constructor; [exact I|constructor; [|repeat constructor]]].
    cbn [fetchedLogsBounded]. unfold cached. rewrite repeat_length. lia. }
  split; [exact Hc|split; [exact H|]].
  exact (session_logs_bounded None None (Some cached) ops Hc H).
Defined.

(** ** The cache *)

Lemma cacheMirrors_frame s s' :
  allRooms s' = allRooms s -> stored_rooms s' = stored_rooms s ->
  schedulesArray s' = schedulesArray s -> stored_schedules s' = stored_schedules s ->
  cacheMirrors s -> cacheMirrors s'.
Proof.
  unfold cacheMirrors. intros -> -> -> ->. tauto.
Qed.

Lemma cacheMirrors_loadRooms response s : cacheMirrors s -> cacheMirrors (loadRooms response s).
Proof.
  intros Hm. assert (Hm' := Hm). destruct Hm' as [Hr Hl].
  unfold loadRooms. destruct response as [payload|].
  - split; [reflexivity|exact Hl].
  - destruct (stored_rooms s) as [rooms|] eqn:E; [|exact Hm].
    split; [cbn; now rewrite E|exact Hl].
Qed.

Lemma cacheMirrors_loadSchedule response s :
  cacheMirrors s -> cacheMirrors (loadSchedule response s).
Proof.
  intros Hm. assert (Hm' := Hm). destruct Hm' as [Hr Hl].
  unfold loadSchedule. destruct response as [payload|].
  - split; [exact Hr|reflexivity].
  - destruct (stored_schedules s) as [schedules|] eqn:E; [|exact Hm].
    split; [exact Hr|cbn; now rewrite E].
Qed.

Lemma cacheMirrors_addLog now type message s :
  cacheMirrors s -> cacheMirrors (addLog now type message s).
Proof. now apply cacheMirrors_frame. Qed.

Lemma cacheMirrors_loadLogs response s : cacheMirrors s -> cacheMirrors (loadLogs response s).
Proof.
  apply cacheMirrors_frame; unfold loadLogs; destruct response; try reflexivity;
    destruct (stored_logs s); reflexivity.
Qed.

Lemma cacheMirrors_sampleOffline now s :
  cacheMirrors s -> cacheMirrors (initializeSampleDataOffline now s).
Proof.
  intros [_ Hl]. split; [reflexivity|exact Hl].
Qed.

Lemma cacheMirrors_step s op : cacheMirrors s -> cacheMirrors (step s op).
Proof.
  intros Hm.
  destruct op as [now responses|now|response|response|response
                 |env formData|now newRoom|now type message|now];
    cbn [step].
  - unfold initializeApp.
    set (s3 := loadLogs _ _).
    assert (H3 : cacheMirrors s3)
      by (apply cacheMirrors_loadLogs, cacheMirrors_loadSchedule, cacheMirrors_loadRooms, Hm).
    assert (H4 : cacheMirrors (buildRoomsGraph s3))
      by (apply (cacheMirrors_frame s3); try reflexivity; exact H3).
    destruct (allRooms (buildRoomsGraph s3)) eqn:E; [|exact H4].
    destruct (reset_response responses) as [reload| |]; cbn [initializeSampleData].
    + now apply cacheMirrors_addLog, cacheMirrors_loadRooms.
    + exact H4.
    + now apply cacheMirrors_sampleOffline.
  - unfold initializeOfflineMode. assert (Hm' := Hm). destruct Hm' as [Hr Hl].
    destruct (stored_rooms s) as [rooms|] eqn:Er,
             (stored_schedules s) as [schedules|] eqn:El,
             (stored_logs s) as [logs|]; cbv zeta;
      (split; [cbn; rewrite ?Er; try reflexivity|cbn; rewrite ?El; try reflexivity; exact Hl]).
  - now apply cacheMirrors_loadRooms.
  - now apply cacheMirrors_loadSchedule.
  - now apply cacheMirrors_loadLogs.
  - assert (Hm' := Hm). destruct Hm' as [Hr Hl].
    destruct (handleAllocationSubmit_cases env formData s)
      as [[_ E]|[(_ & n & _ & _ & Hrooms & _ & Hledger & Hstored)
                |(_ & _ & _ & Hrooms & _ & Hledger & Hstored)]].
    + now rewrite E.
    + split.
      * rewrite Hrooms.
        replace (stored_rooms (fst (handleAllocationSubmit env formData s)))
          with (stored_rooms s); [exact Hr|].
        unfold handleAllocationSubmit, handleAllocationSubmitWith.
        destruct (str_ge _ _); [reflexivity|].
        destruct (allocateRoom _ _ formData s) as [s1 [r b|m]] eqn:Ea;
          unfold allocateRoom in Ea; destruct (suitableRooms _ _) in Ea;
            injection Ea as <-; intros; reflexivity.
      * now rewrite Hstored, Hledger.
    + split.
      * rewrite Hrooms.
        replace (stored_rooms (fst (handleAllocationSubmit env formData s)))
          with (stored_rooms s); [exact Hr|].
        unfold handleAllocationSubmit, handleAllocationSubmitWith.
        destruct (str_ge _ _); [reflexivity|].
        destruct (allocateRoom _ _ formData s) as [s1 [r b|m]] eqn:Ea;
          unfold allocateRoom in Ea; destruct (suitableRooms _ _) in Ea;
            injection Ea as <-; intros; reflexivity.
      * now rewrite Hstored, Hledger.
  - unfold handleAddRoomSubmit. destruct (roomExists newRoom (allRooms s)); [exact Hm|].
    split; [reflexivity|exact (proj2 Hm)].
  - now apply cacheMirrors_addLog.
  - apply (cacheMirrors_frame s); try reflexivity. exact Hm.
Qed.

Lemma cacheMirrors_run ops s : cacheMirrors s -> cacheMirrors (run ops s).
Proof.
  revert s. induction ops as [|op ops IH]; intros s Hs; [exact Hs|].
  apply IH. now apply cacheMirrors_step.
Qed.

Lemma cacheMirrors_covers s : cacheMirrors s -> cacheCovers s.
Proof.
  unfold cacheMirrors, cacheCovers. intros [Hr Hl]. split.
  - destruct (stored_rooms s); [right; now rewrite Hr|now left].
  - destruct (stored_schedules s); [right; now rewrite Hl|now left].
Qed.

(** The two loaders bring the cache and the globals together. *)
Lemma cacheMirrors_loaders rooms schedules s :
  cacheCovers s -> cacheMirrors (loadSchedule schedules (loadRooms rooms s)).
Proof.
  intros [Hr Hl]. split.
  - assert (H : match stored_rooms (loadRooms rooms s) with
                | Some l => l = allRooms (loadRooms rooms s)
                | None => allRooms (loadRooms rooms s) = []
                end).
    { unfold loadRooms. destruct rooms as [payload|]; [reflexivity|].
      destruct (stored_rooms s) as [l|] eqn:E; cbn; rewrite E; [reflexivity|].
      destruct Hr as [Hr|Hr]; [exact Hr|discriminate]. }
    unfold loadSchedule. destruct schedules as [payload|]; [exact H|].
    destruct (stored_schedules (loadRooms rooms s)); exact H.
  - destruct (ledger_loadRooms rooms s) as [H1 H2].
    rewrite loadSchedule_fetchedItems.
    destruct (fetchedItems schedules) as [l|]; [reflexivity|].
    rewrite H2. destruct (stored_schedules s) as [l|] eqn:E.
    + change (stored_schedules (with_schedulesArray l (loadRooms rooms s)))
        with (stored_schedules (loadRooms rooms s)).
      rewrite H2. reflexivity.
    + rewrite H2, H1. destruct Hl as [Hl|Hl]; [exact Hl|discriminate].
Qed.

Lemma cacheMirrors_initializeApp now responses s :
  cacheCovers s -> cacheMirrors (initializeApp now responses s).
Proof.
  intros Hc. unfold initializeApp.
  pose proof (cacheMirrors_loaders (rooms_response responses)
                (schedule_response responses) s Hc) as H2.
  set (s2 := loadSchedule _ (loadRooms _ s)) in *.
  set (s3 := loadLogs (logs_response responses) s2).
  assert (H3 : cacheMirrors s3) by now apply cacheMirrors_loadLogs.
  assert (H4 : cacheMirrors (buildRoomsGraph s3))
    by (apply (cacheMirrors_frame s3); try reflexivity; exact H3).
  destruct (allRooms (buildRoomsGraph s3)) eqn:E; [|exact H4].
  destruct (reset_response responses) as [reload| |]; cbn [initializeSampleData].
  - now apply cacheMirrors_addLog, cacheMirrors_loadRooms.
  - exact H4.
  - now apply cacheMirrors_sampleOffline.
Qed.

Lemma cacheMirrors_initializeOfflineMode now s :
  cacheCovers s -> cacheMirrors (initializeOfflineMode now s).
Proof.
  intros [Hr Hl]. unfold initializeOfflineMode, cacheMirrors.
  destruct (stored_rooms s) as [rooms|] eqn:Er,
           (stored_schedules s) as [schedules|] eqn:El,
           (stored_logs s) as [logs|]; cbn; rewrite ?Er, ?El; split; try reflexivity.
  all: destruct Hl as [Hl|Hl]; [exact Hl|discriminate].
Qed.

Lemma stored_rooms_handleAllocationSubmit env formData s :
  stored_rooms (fst (handleAllocationSubmit env formData s)) = stored_rooms s.
Proof.
  unfold handleAllocationSubmit, handleAllocationSubmitWith.
  destruct (str_ge _ _); [reflexivity|].
  unfold allocateRoom. destruct (suitableRooms _ _); reflexivity.
Qed.

Lemma cacheCovers_step s op : cacheCovers s -> cacheCovers (step s op).
Proof.
  intros Hc.
  destruct op as [now responses|now|response|response|response
                 |env formData|now newRoom|now type message|now];
    cbn [step].
  - now apply cacheMirrors_covers, cacheMirrors_initializeApp.
  - now apply cacheMirrors_covers, cacheMirrors_initializeOfflineMode.
  - destruct Hc as [Hr Hl]. destruct (ledger_loadRooms response s) as [H1 H2].
    split; [|now rewrite H1, H2].
    unfold loadRooms. destruct response as [payload|]; [now right|].
    destruct (stored_rooms s) as [l|] eqn:E; [right; cbn; now rewrite E|].
    destruct Hr as [Hr|Hr]; [now left|discriminate].
  - destruct Hc as [Hr Hl]. split.
    + unfold loadSchedule. destruct response as [payload|]; [exact Hr|].
      destruct (stored_schedules s); exact Hr.
    + rewrite loadSchedule_fetchedItems.
      destruct (fetchedItems response) as [l|]; [now right|].
      destruct (stored_schedules s) as [l|] eqn:E; [right; cbn; now rewrite E|].
      destruct Hl as [Hl|Hl]; [now left|discriminate].
  - destruct Hc as [Hr Hl]. destruct (ledger_loadLogs response s) as [H1 H2].
    split; [|now rewrite H1, H2].
    unfold loadLogs. destruct response as [payload|]; [exact Hr|].
    destruct (stored_logs s); exact Hr.
  - destruct Hc as [Hr Hl]. split.
    + rewrite stored_rooms_handleAllocationSubmit.
      destruct (handleAllocationSubmit_cases env formData s)
        as [[_ E]|[(_ & n & _ & _ & Hrooms & _)|(_ & _ & _ & Hrooms & _)]];
        [now rewrite E|now rewrite Hrooms|now rewrite Hrooms].
    + destruct (handleAllocationSubmit_cases env formData s)
        as [[_ E]|[(_ & n & _ & _ & _ & _ & Hledger & Hstored)
                  |(_ & _ & _ & _ & _ & Hledger & Hstored)]].
      * now rewrite E.
      * right. now rewrite Hstored, Hledger.
      * now rewrite Hledger, Hstored.
  - unfold handleAddRoomSubmit. destruct (roomExists newRoom (allRooms s)); [exact Hc|].
    split; [now right|exact (proj2 Hc)].
  - exact Hc.
  - exact Hc.
Qed.

Lemma cacheCovers_run ops s : cacheCovers s -> cacheCovers (run ops s).
Proof.
  revert s. induction ops as [|op ops IH]; intros s Hs; [exact Hs|].
  apply IH. now apply cacheCovers_step.
Qed.

Lemma cacheMirrors_once_initialized ops s :
  cacheCovers s -> Exists initializes ops -> cacheMirrors (run ops s).
Proof.
  intros Hc Hex. revert s Hc.
  induction Hex as [op ops Hop|op ops Hex IH]; intros s Hc; cbn [run fold_left].
  - apply cacheMirrors_run.
    destruct op; cbn [initializes] in Hop; try contradiction; cbn [step].
    + now apply cacheMirrors_initializeApp.
    + now apply cacheMirrors_initializeOfflineMode.
  - apply IH. now apply cacheCovers_step.
Qed.

(** X9: the cache and the session.  From any page load, whatever the
    cache held, in every state a session reaches the rooms are either
    still empty or equal to the cached rooms, and the ledger is either
    still empty or equal to the cached ledger.  Once [initializeApp] or
    [initializeOfflineMode] has run, which is what a page load starts
    with, the cached rooms are the current rooms and the cached ledger is
    the current ledger (nothing is cached only while they are empty); from
    then on a reload whose fetch fails falls back on the cache and changes
    neither the rooms, nor the graph, nor the ledger. *)
Theorem session_cache_mirrors savedRooms savedSchedules savedLogs ops :
  let s := run ops (pageLoad savedRooms savedSchedules savedLogs) in
  cacheCovers s /\
  (Exists initializes ops ->
   cacheMirrors s /\
   allRooms (loadRooms FetchFailed s) = allRooms s /\
   roomsGraph (loadRooms FetchFailed s) = roomsGraph s /\
   schedulesArray (loadSchedule FetchFailed s) = schedulesArray s).
Proof.
  cbn zeta. set (s := run ops (pageLoad savedRooms savedSchedules savedLogs)).
  assert (Hstart : cacheCovers (pageLoad savedRooms savedSchedules savedLogs))
    by (split; now left).
  split; [now apply cacheCovers_run|].
  intros Hinit.
  assert (Hm : cacheMirrors s) by now apply cacheMirrors_once_initialized.
  assert (Hsync : graphSynced s) by apply graphSynced_run, graphSynced_pageLoad.
  split; [exact Hm|].
  destruct Hm as [Hr Hl].
  assert (Hrooms : allRooms (loadRooms FetchFailed s) = allRooms s).
  { unfold loadRooms. destruct (stored_rooms s); [|reflexivity]. cbn. exact Hr. }
  split; [exact Hrooms|split].
  - change (roomsGraph (loadRooms FetchFailed s))
      with (buildGraphOf (allRooms (loadRooms FetchFailed s))).
    rewrite Hrooms. symmetry. exact Hsync.
  - unfold loadSchedule. destruct (stored_schedules s); [|reflexivity]. cbn. exact Hl.
Qed.

Lemma session_cache_mirrors_witness :
  let cached := [sampleBooking "101" "2025-01-01" "09:00" "10:00"] in
  let ops := [OpInitializeApp "t0" (mkResponses FetchFailed FetchFailed FetchFailed ResetFailed);
              OpSubmitAllocation sampleEnv sampleRequest;
              OpAddRoom "t3" twinRoom] in
  let s := run ops (pageLoad (Some sampleRooms) (Some cached) None) in
  Exists initializes ops /\
  List.length (allRooms s) = 8%nat /\
  List.length (schedulesArray s) = 2%nat /\
  cacheMirrors s /\
  allRooms (loadRooms FetchFailed s) = allRooms s /\
  schedulesArray (loadSchedule FetchFailed s) = schedulesArray s.
Proof.
  intros cached ops s.
  assert (H : Exists initializes ops) by (apply Exists_cons_hd; exact I).
  pose proof (proj2 (session_cache_mirrors (Some sampleRooms) (Some cached) None ops) H)
    as (Hm & Hrooms & _ & Hledger).
  split; [exact H|split; [vm_compute; reflexivity|split; [vm_compute; reflexivity|]]].
  split; [exact Hm|split; [exact Hrooms|exact Hledger]].
Defined.

(** ** handleAddRoomSubmit *)

Lemma roomExists_iff newRoom rooms :
  roomExists newRoom rooms = true <->
  In (Room.room_id newRoom, Room.building newRoom) (roomKeys rooms).
Proof.
  unfold roomExists, roomKeys. rewrite existsb_exists, in_map_iff. split.
  - intros (r & Hin & Hr). apply andb_true_iff in Hr as [H1 H2].
    apply String.eqb_eq in H1, H2. exists r. split; [congruence|exact Hin].
  - intros (r & Hr & Hin). injection Hr as H1 H2. exists r. split; [exact Hin|].
    now rewrite H1, H2, !String.eqb_refl.
Qed.

(** X10: adding a room.  A room whose (room_id, building) pair is in the
    store is refused and the state stays as it was; so a store whose pairs
    are pairwise distinct keeps them distinct.  An accepted room is, after
    the rebuild, the room the graph holds under its room_id. *)
Theorem handleAddRoomSubmit_keeps_pairs_distinct now newRoom s :
  (In (Room.room_id newRoom, Room.building newRoom) (roomKeys (allRooms s)) ->
   handleAddRoomSubmit now newRoom s = (s, false)) /\
  (NoDup (roomKeys (allRooms s)) ->
   NoDup (roomKeys (allRooms (fst (handleAddRoomSubmit now newRoom s))))) /\
  (snd (handleAddRoomSubmit now newRoom s) = true ->
   exists node,
     JsMap.get (Room.room_id newRoom) (roomsGraph (fst (handleAddRoomSubmit now newRoom s)))
     = Some node /\
     Node.room node = newRoom).
Proof.
  unfold handleAddRoomSubmit.
  destruct (roomExists newRoom (allRooms s)) eqn:E.
  - split; [reflexivity|split; [tauto|discriminate]].
  - split; [|split].
    + intros Hin. apply roomExists_iff in Hin. congruence.
    + intros Hnd. cbn [fst]. cbn. unfold roomKeys. rewrite map_app.
      apply NoDup_app; [exact Hnd|repeat constructor; tauto|].
      intros x Hx [<-|[]]. apply roomExists_iff in Hx. congruence.
    + intros _. cbn [fst]. cbn.
      assert (Hlast : lastWithId (Room.room_id newRoom) (allRooms s ++ [newRoom])
                      = Some newRoom).
      { unfold lastWithId. rewrite rev_app_distr. cbn. now rewrite String.eqb_refl. }
      destruct (buildGraphOf_get_last _ _ _ Hlast) as (node & Hin & Hnode).
      exists node. split; [|exact Hnode].
      apply In_get; [apply buildGraphOf_keys_NoDup|exact Hin].
Qed.

Lemma handleAddRoomSubmit_keeps_pairs_distinct_witness :
  let twin := Room.mk "101" "Science" 35 2 noFacilities in
  snd (handleAddRoomSubmit "t0" twin sampleState) = true /\
  exists node,
    JsMap.get "101" (roomsGraph (fst (handleAddRoomSubmit "t0" twin sampleState)))
    = Some node /\
    Node.room node = twin.
Proof.
  intros twin.
  assert (H : snd (handleAddRoomSubmit "t0" twin sampleState) = true)
    by (vm_compute; reflexivity).
  split; [exact H|].
  exact (proj2 (proj2 (handleAddRoomSubmit_keeps_pairs_distinct "t0" twin sampleState)) H).
Defined.

(** ** clearLogs and the start of the application *)

(** X11: [clearLogs] restores the bound.  Whatever the queue held, also
    more than 100 entries after a load, after [clearLogs] it holds the one
    entry that records the clearing, and it stays within 100 entries under
    any run of [addLog]. *)
Theorem clearLogs_restores_bound now s es :
  logsQueue (clearLogs now s) = [Log.mk "info" "Logs cleared by user" now] /\
  stored_logs (clearLogs now s) = Some (logsQueue (clearLogs now s)) /\
  queue_bounded (addLogs es (clearLogs now s)).
Proof.
  assert (Hq : logsQueue (clearLogs now s) = [Log.mk "info" "Logs cleared by user" now])
    by reflexivity.
  split; [exact Hq|split; [reflexivity|]].
  apply addLogs_bounded. unfold queue_bounded. rewrite Hq. cbn. lia.
Qed.

Lemma allRooms_loadSchedule response s : allRooms (loadSchedule response s) = allRooms s.
Proof.
  unfold loadSchedule. destruct response; [reflexivity|].
  destruct (stored_schedules s); reflexivity.
Qed.

Lemma allRooms_loadLogs response s : allRooms (loadLogs response s) = allRooms s.
Proof.
  unfold loadLogs. destruct response; [reflexivity|].
  destruct (stored_logs s); reflexivity.
Qed.

(** X12: the application does not start on an empty store when the reset
    request fails.  After [initializeApp], whatever the other requests
    answered and whatever the cache held: if [loadRooms] left rooms in the
    store, they are the store and the graph is built from them, whatever
    the reset request would answer; if it left none and the reset request
    failed, the store holds the sample rooms.  So with a failed reset
    request the store is never empty. *)
Theorem initializeApp_store now responses s :
  let loaded := allRooms (loadRooms (rooms_response responses) s) in
  (loaded <> [] ->
   allRooms (initializeApp now responses s) = loaded /\
   roomsGraph (initializeApp now responses s) = buildGraphOf loaded) /\
  (reset_response responses = ResetFailed ->
   (loaded = [] -> allRooms (initializeApp now responses s) = sampleRooms) /\
   allRooms (initializeApp now responses s) <> []).
Proof.
  cbn zeta. unfold initializeApp.
  set (s1 := loadRooms (rooms_response responses) s).
  set (s3 := loadLogs (logs_response responses)
               (loadSchedule (schedule_response responses) s1)).
  assert (H3 : allRooms s3 = allRooms s1)
    by (unfold s3; now rewrite allRooms_loadLogs, allRooms_loadSchedule).
  change (allRooms (buildRoomsGraph s3)) with (allRooms s3).
  split.
  - intros Hne. destruct (allRooms s3) eqn:E; [congruence|].
    change (allRooms (buildRoomsGraph s3)) with (allRooms s3).
    change (roomsGraph (buildRoomsGraph s3)) with (buildGraphOf (allRooms s3)).
    rewrite E, <- H3. now split.
  - intros Hreset. rewrite Hreset.
    destruct (allRooms s3) eqn:E.
    + change (allRooms (initializeSampleData now ResetFailed (buildRoomsGraph s3)))
        with sampleRooms.
      split; [reflexivity|unfold sampleRooms; discriminate].
    + split; [intros Hnil; congruence|].
      change (allRooms (buildRoomsGraph s3)) with (allRooms s3). rewrite E. discriminate.
Qed.

Lemma initializeApp_store_witness :
  let responses := mkResponses FetchFailed FetchFailed FetchFailed ResetFailed in
  reset_response responses = ResetFailed /\
  allRooms (initializeApp "t0" responses initialState) <> [].
Proof.
  intros responses. split; [reflexivity|].
  exact (proj2 (proj2 (initializeApp_store "t0" responses initialState) eq_refl)).
Defined.

(** ** The rooms graph of an arbitrary store *)

Lemma keys_buildGraphOf_iff rooms k :
  In k (JsMap.keys (buildGraphOf rooms)) <-> In k (ids rooms).
Proof.
  assert (Hkeys : JsMap.keys (buildGraphOf rooms) = JsMap.keys (addNodes rooms JsMap.empty)).
  { unfold buildGraphOf. now rewrite <- keys_skeleton, skeleton_addEdges, keys_skeleton. }
  rewrite Hkeys. split.
  - intros Hin. destruct (get_Some_key k _ Hin) as [n Hn].
    rewrite addNodes_get in Hn.
    destruct (lastWithId k rooms) as [r|] eqn:E; [|discriminate].
    destruct (in_dec string_dec k (ids rooms)) as [H|H]; [exact H|].
    apply lastWithId_None in H. congruence.
  - intros Hin. destruct (in_dec string_dec k (JsMap.keys (addNodes rooms JsMap.empty)))
      as [H|H]; [exact H|].
    apply get_None_key in H. rewrite addNodes_get in H.
    destruct (lastWithId k rooms) as [r|] eqn:E; [discriminate|].
    apply lastWithId_None in E. contradiction.
Qed.

Lemma In_adjacentOf_pushAdjacent k0 y g k x :
  In x (adjacentOf (pushAdjacent k0 y g) k) -> In x (adjacentOf g k) \/ x = y.
Proof.
  unfold adjacentOf, pushAdjacent. rewrite get_update.
  destruct (String.eqb k k0); [|tauto].
  destruct (JsMap.get k g) as [n|]; cbn; [|tauto].
  rewrite in_app_iff. cbn. intuition.
Qed.

Lemma In_adjacentOf_connect room1 room2 g k x :
  In x (adjacentOf (connect room1 room2 g) k) ->
  In x (adjacentOf g k) \/ x = Room.room_id room1 \/ x = Room.room_id room2.
Proof.
  unfold connect.
  repeat match goal with
         | |- context [if ?c then _ else _] => destruct c
         end;
    intros H;
    repeat (apply In_adjacentOf_pushAdjacent in H as [H|H]; [|tauto]); tauto.
Qed.

Lemma adjacentOf_within_store rooms k x :
  In x (adjacentOf (buildGraphOf rooms) k) -> In x (ids rooms).
Proof.
  unfold buildGraphOf. rewrite addEdges_pairs.
  pose proof (forPairsFrom_sim
                (fun (g : RoomsGraph) (_ : unit) =>
                   forall k x, In x (adjacentOf g k) -> In x (ids rooms))
                (fun a _ b _ g => connect a b g)
                (fun (_ : Room.t) _ (_ : Room.t) _ (u : unit) => u) rooms) as Hsim.
  assert (Hstep : forall i j a b g (u : unit),
             (i < j)%nat -> nth_error rooms i = Some a -> nth_error rooms j = Some b ->
             (forall k x, In x (adjacentOf g k) -> In x (ids rooms)) ->
             forall k x, In x (adjacentOf (connect a b g) k) -> In x (ids rooms)).
  { intros i j a b g u Hij Hi Hj Hg k' x' Hin.
    apply In_adjacentOf_connect in Hin as [Hin|[->| ->]].
    - now apply (Hg k').
    - apply in_map. now apply nth_error_In with i.
    - apply in_map. now apply nth_error_In with j. }
  assert (Hinit : forall k x,
             In x (adjacentOf (addNodes rooms JsMap.empty) k) -> In x (ids rooms)).
  { intros k' x' Hin. unfold adjacentOf in Hin. rewrite addNodes_get in Hin.
    destruct (lastWithId k' rooms); destruct Hin. }
  specialize (Hsim Hstep rooms [] (addNodes rooms JsMap.empty) tt eq_refl Hinit).
  apply Hsim.
Qed.

(** X13: the graph of any store.  Whatever the rooms, also with repeated
    room_ids: the keys of the Map are pairwise distinct and are the
    room_ids of the store; an adjacency list names only room_ids of the
    store; the Map has at most as many nodes as the store has rooms, and as
    many exactly when the room_ids are pairwise distinct; with no room or a
    single room every adjacency list is empty. *)
Theorem buildRoomsGraph_any_store s :
  let g := roomsGraph (buildRoomsGraph s) in
  NoDup (JsMap.keys g) /\
  (forall k, In k (JsMap.keys g) <-> In k (ids (allRooms s))) /\
  (forall k x, In x (adjacentOf g k) -> In x (ids (allRooms s))) /\
  (List.length g <= List.length (allRooms s))%nat /\
  (List.length g = List.length (allRooms s) <-> NoDup (ids (allRooms s))) /\
  ((List.length (allRooms s) <= 1)%nat -> forall k, adjacentOf g k = []).
Proof.
  cbn zeta. change (roomsGraph (buildRoomsGraph s)) with (buildGraphOf (allRooms s)).
  set (rooms := allRooms s).
  assert (Hnd := buildGraphOf_keys_NoDup rooms).
  assert (Hlen : List.length (buildGraphOf rooms) = List.length (JsMap.keys (buildGraphOf rooms)))
    by (unfold JsMap.keys; now rewrite length_map).
  assert (Hids : List.length rooms = List.length (ids rooms))
    by (unfold ids; now rewrite length_map).
  split; [exact Hnd|]. split; [apply keys_buildGraphOf_iff|].
  split; [apply adjacentOf_within_store|]. split; [|split].
  - rewrite Hlen, Hids. apply NoDup_incl_length; [exact Hnd|].
    intros k. apply keys_buildGraphOf_iff.
  - rewrite Hlen, Hids. split.
    + intros Heq. apply (NoDup_incl_NoDup Hnd); [lia|].
      intros k. apply keys_buildGraphOf_iff.
    + intros Hd. rewrite <- keys_skeleton, (skeleton_buildGraphOf_distinct rooms Hd).
      unfold JsMap.keys, ids. now rewrite !length_map.
  - intros Hsmall k. destruct rooms as [|r [|r' rooms']]; [reflexivity| |simpl in Hsmall; lia].
    unfold adjacentOf, buildGraphOf, addEdges, addNodes, forEach. cbn.
    destruct (String.eqb (Room.room_id r) k); reflexivity.
Qed.

Lemma buildRoomsGraph_any_store_witness :
  let s := with_allRooms [Room.mk "101" "Main" 50 1 noFacilities;
                          Room.mk "101" "Science" 35 2 noFacilities] initialState in
  In "101" (ids (allRooms s)) /\ In "101" (JsMap.keys (roomsGraph (buildRoomsGraph s))).
Proof.
  intros s.
  assert (H : In "101" (ids (allRooms s))) by (left; reflexivity).
  split; [exact H|].
  exact (proj2 (proj1 (proj2 (buildRoomsGraph_any_store s)) "101") H).
Defined.

(** ** The edges and nodes of the visualizer *)

Lemma edges_link i j a b v :
  Vis.edges (Vis.link i j a b v) = (Vis.edges v ++ edgeOf i j a b)%list.
Proof.
  unfold Vis.link, edgeOf.
  destruct (sameBuilding a b); [reflexivity|].
  destruct (similarCapacity _ _); [reflexivity|]. now rewrite app_nil_r.
Qed.

Lemma edges_row i a rest :
  forall j v,
    Vis.edges (forEachFrom (fun b j v => Vis.link i j a b v) j rest v)
    = (Vis.edges v ++ rowEdges i a j rest)%list.
Proof.
  induction rest as [|b rest IH]; intros j v; cbn [forEachFrom rowEdges].
  - now rewrite app_nil_r.
  - now rewrite IH, edges_link, <- app_assoc.
Qed.

Lemma edges_pairs rooms :
  forall i v,
    Vis.edges (forPairsFrom (fun a i b j v => Vis.link i j a b v) i rooms v)
    = (Vis.edges v ++ pairEdges i rooms)%list.
Proof.
  induction rooms as [|a rest IH]; intros i v; cbn [forPairsFrom pairEdges].
  - now rewrite app_nil_r.
  - now rewrite IH, edges_row, <- app_assoc.
Qed.

Lemma edges_buildGraph rooms : Vis.edges (Vis.buildGraph rooms) = pairEdges 0 rooms.
Proof.
  now rewrite buildGraph_pairs, edges_pairs.
Qed.

Lemma In_rowEdges e i a rest :
  forall j,
    In e (rowEdges i a j rest) <->
    exists q b, nth_error rest q = Some b /\ In e (edgeOf i (j + q) a b).
Proof.
  induction rest as [|b rest IH]; intros j; cbn [rowEdges].
  - split; [intros []|]. intros (q & b & Hq & _). destruct q; discriminate.
  - rewrite in_app_iff, IH. split.
    + intros [H|(q & b' & Hq & H)].
      * exists 0%nat, b. rewrite Nat.add_0_r. now split.
      * exists (Datatypes.S q), b'. split; [exact Hq|].
        now replace (j + Datatypes.S q)%nat with (Datatypes.S j + q)%nat by lia.
    + intros (q & b' & Hq & H). destruct q as [|q].
      * left. cbn in Hq. injection Hq as <-. now rewrite Nat.add_0_r in H.
      * right. exists q, b'. split; [exact Hq|].
        now replace (Datatypes.S j + q)%nat with (j + Datatypes.S q)%nat by lia.
Qed.

Lemma In_pairEdges e rooms :
  forall i0,
    In e (pairEdges i0 rooms) <->
    exists p q a b,
      (p < q)%nat /\ nth_error rooms p = Some a /\ nth_error rooms q = Some b /\
      In e (edgeOf (i0 + p) (i0 + q) a b).
Proof.
  induction rooms as [|a rest IH]; intros i0; cbn [pairEdges].
  - split; [intros []|]. intros (p & q & a & b & _ & Hp & _). destruct p; discriminate.
  - rewrite in_app_iff, In_rowEdges, IH. split.
    + intros [(q & b & Hq & H)|(p & q & a' & b & Hpq & Hp & Hq & H)].
      * exists 0%nat, (Datatypes.S q), a, b. repeat split; [lia|exact Hq|].
        rewrite Nat.add_0_r.
        now replace (i0 + Datatypes.S q)%nat with (Datatypes.S i0 + q)%nat by lia.
      * exists (Datatypes.S p), (Datatypes.S q), a', b. repeat split; [lia|exact Hp|exact Hq|].
        now replace (i0 + Datatypes.S p)%nat with (Datatypes.S i0 + p)%nat by lia;
          replace (i0 + Datatypes.S q)%nat with (Datatypes.S i0 + q)%nat by lia.
    + intros (p & q & a' & b & Hpq & Hp & Hq & H).
      destruct q as [|q]; [lia|]. cbn in Hq. destruct p as [|p]; cbn in Hp.
      * left. injection Hp as <-. exists q, b. split; [exact Hq|].
        rewrite Nat.add_0_r in H.
        now replace (Datatypes.S i0 + q)%nat with (i0 + Datatypes.S q)%nat by lia.
      * right. exists p, q, a', b. repeat split; [lia|exact Hp|exact Hq|].
        now replace (Datatypes.S i0 + p)%nat with (i0 + Datatypes.S p)%nat by lia;
          replace (Datatypes.S i0 + q)%nat with (i0 + Datatypes.S q)%nat by lia.
Qed.

Lemma In_edgeOf e i j a b :
  In e (edgeOf i j a b) -> endpoints e = (i, j).
Proof.
  unfold edgeOf. destruct (sameBuilding a b); [intros [<-|[]]; reflexivity|].
  destruct (similarCapacity _ _); [intros [<-|[]]; reflexivity|intros []].
Qed.

Lemma NoDup_endpoints_edgeOf i j a b : NoDup (map endpoints (edgeOf i j a b)).
Proof.
  unfold edgeOf. destruct (sameBuilding a b); [repeat constructor; tauto|].
  destruct (similarCapacity _ _); repeat constructor; tauto.
Qed.

Lemma NoDup_endpoints_row i a rest :
  forall j, NoDup (map endpoints (rowEdges i a j rest)).
Proof.
  induction rest as [|b rest IH]; intros j; cbn [rowEdges map]; [constructor|].
  rewrite map_app. apply NoDup_app; [apply NoDup_endpoints_edgeOf|apply IH|].
  intros x Hx Hx'.
  apply in_map_iff in Hx as (e & <- & He). apply In_edgeOf in He.
  apply in_map_iff in Hx' as (e' & He' & Hin).
  apply In_rowEdges in Hin as (q & b' & _ & Hin). apply In_edgeOf in Hin.
  rewrite He, Hin in He'. injection He' as H. lia.
Qed.

Lemma NoDup_endpoints_pairs rooms :
  forall i, NoDup (map endpoints (pairEdges i rooms)).
Proof.
  induction rooms as [|a rest IH]; intros i; cbn [pairEdges map]; [constructor|].
  rewrite map_app. apply NoDup_app; [apply NoDup_endpoints_row|apply IH|].
  intros x Hx Hx'.
  apply in_map_iff in Hx as (e & <- & He).
  apply In_rowEdges in He as (q & b & _ & He). apply In_edgeOf in He.
  apply in_map_iff in Hx' as (e' & He' & Hin).
  apply In_pairEdges in Hin as (p & q' & a' & b' & _ & _ & _ & Hin). apply In_edgeOf in Hin.
  rewrite He, Hin in He'. injection He' as H _. lia.
Qed.

(** X14: the edges [buildGraph] draws.  For any room list an edge is in
    [edges] exactly when it joins two positions [i < j] of the list and
    either the two rooms share the building, and the edge is of type
    'building' with weight 2, or they do not and pass the capacity test,
    and the edge is of type 'capacity' with weight 1; no two edges join the
    same pair of positions, and without rooms or with one room there is no
    edge. *)
Theorem buildGraph_edges rooms :
  (forall e,
      In e (Vis.edges (Vis.buildGraph rooms)) <->
      exists i j a b,
        (i < j)%nat /\ nth_error rooms i = Some a /\ nth_error rooms j = Some b /\
        ((Room.building a = Room.building b /\ e = Vis.mkEdge i j Vis.ByBuilding 2) \/
         (Room.building a <> Room.building b /\
          similarCapacity (Room.capacity a) (Room.capacity b) = true /\
          e = Vis.mkEdge i j Vis.ByCapacity 1))) /\
  NoDup (map endpoints (Vis.edges (Vis.buildGraph rooms))) /\
  ((List.length rooms <= 1)%nat -> Vis.edges (Vis.buildGraph rooms) = []).
Proof.
  rewrite edges_buildGraph. split; [|split].
  - intros e. rewrite In_pairEdges. cbn [Nat.add].
    assert (Hedge : forall i j a b,
               In e (edgeOf i j a b) <->
               ((Room.building a = Room.building b /\ e = Vis.mkEdge i j Vis.ByBuilding 2) \/
                (Room.building a <> Room.building b /\
                 similarCapacity (Room.capacity a) (Room.capacity b) = true /\
                 e = Vis.mkEdge i j Vis.ByCapacity 1))).
    { intros i j a b. unfold edgeOf, sameBuilding.
      destruct (String.eqb_spec (Room.building a) (Room.building b)) as [Hb|Hb].
      - cbn. split; [intros [<-|[]]; left; now split|].
        intros [[_ ->]|[H _]]; [now left|contradiction].
      - destruct (similarCapacity _ _); cbn.
        + split; [intros [<-|[]]; right; repeat split; assumption|].
          intros [[H _]|(_ & _ & ->)]; [contradiction|now left].
        + split; [tauto|]. intros [[H _]|(_ & H & _)]; [contradiction|discriminate]. }
    split; intros (i & j & a & b & Hij & Hi & Hj & H); exists i, j, a, b;
      repeat split; try assumption; now apply Hedge.
  - apply NoDup_endpoints_pairs.
  - intros Hsmall. destruct rooms as [|r [|r' rooms']]; [reflexivity|reflexivity|].
    simpl in Hsmall. lia.
Qed.

Lemma buildGraph_edges_witness :
  nth_error sampleRooms 0 = Some (Room.mk "101" "Main" 50 1
                                          (Facilities.mk true false true true true false)) /\
  In (Vis.mkEdge 0 1 Vis.ByBuilding 2) (Vis.edges (Vis.buildGraph sampleRooms)).
Proof.
  split; [reflexivity|].
  apply (proj2 (proj1 (buildGraph_edges sampleRooms) (Vis.mkEdge 0 1 Vis.ByBuilding 2))).
  exists 0%nat, 1%nat, (Room.mk "101" "Main" 50 1 (Facilities.mk true false true true true false)),
    (Room.mk "102" "Main" 30 1 (Facilities.mk true false true true false true)).
  repeat split; [lia|left; split; reflexivity].
Defined.

Lemma nodeData_pushAt i x ns : map nodeData (Vis.pushAt i x ns) = map nodeData ns.
Proof.
  unfold Vis.pushAt. revert i. induction ns as [|n ns IH]; intros i; [now destruct i|].
  destruct i as [|i]; cbn; [reflexivity|now rewrite IH].
Qed.

Lemma nodeData_link i j a b v :
  map nodeData (Vis.nodes (Vis.link i j a b v)) = map nodeData (Vis.nodes v).
Proof.
  unfold Vis.link.
  repeat match goal with
         | |- context [if ?c then _ else _] => destruct c
         end; cbn [Vis.nodes]; rewrite ?nodeData_pushAt; reflexivity.
Qed.

(** X15: the nodes [buildGraph] makes.  For any room list, also with
    repeated room_ids, the visualizer has one node per room, in the order
    of the list, each with its room's identifier, building, capacity and
    facilities; the Map of [buildRoomsGraph] has that many nodes only when
    the room_ids are pairwise distinct. *)
Theorem buildGraph_nodes rooms :
  map nodeData (Vis.nodes (Vis.buildGraph rooms)) = map roomData rooms /\
  List.length (Vis.nodes (Vis.buildGraph rooms)) = List.length rooms /\
  (List.length (buildGraphOf rooms) <= List.length (Vis.nodes (Vis.buildGraph rooms)))%nat /\
  (List.length (buildGraphOf rooms) = List.length (Vis.nodes (Vis.buildGraph rooms))
   <-> NoDup (ids rooms)).
Proof.
  assert (Hdata : map nodeData (Vis.nodes (Vis.buildGraph rooms)) = map roomData rooms).
  { rewrite buildGraph_pairs.
    apply (forPairsFrom_invariant
             (fun v => map nodeData (Vis.nodes v) = map roomData rooms)).
    - intros a i b j v Hv. now rewrite nodeData_link.
    - cbn [Vis.nodes]. rewrite map_map. reflexivity. }
  assert (Hlen : List.length (Vis.nodes (Vis.buildGraph rooms)) = List.length rooms).
  { rewrite <- (length_map nodeData), Hdata. apply length_map. }
  assert (Hnd := buildGraphOf_keys_NoDup rooms).
  assert (Hg : List.length (buildGraphOf rooms) = List.length (JsMap.keys (buildGraphOf rooms)))
    by (unfold JsMap.keys; now rewrite length_map).
  assert (Hids : List.length rooms = List.length (ids rooms))
    by (unfold ids; now rewrite length_map).
  split; [exact Hdata|split; [exact Hlen|]]. rewrite Hlen, Hg, Hids. split.
  - apply NoDup_incl_length; [exact Hnd|]. intros k. apply keys_buildGraphOf_iff.
  - split.
    + intros Heq. apply (NoDup_incl_NoDup Hnd); [lia|].
      intros k. apply keys_buildGraphOf_iff.
    + intros Hd. rewrite <- keys_skeleton, (skeleton_buildGraphOf_distinct rooms Hd).
      unfold JsMap.keys, ids. now rewrite !length_map.
Qed.

Lemma vis_node_adjacency rooms i a :
  NoDup (ids rooms) -> nth_error rooms i = Some a ->
  exists n, nth_error (Vis.nodes (Vis.buildGraph rooms)) i = Some n /\
            Vis.id n = Room.room_id a /\
            Vis.adjacentRooms n = neighbours a rooms.
Proof.
  intros Hnd Hi.
  assert (Hin : In a rooms) by now apply nth_error_In with i.
  assert (Hget := buildGraphOf_node rooms a Hnd Hin).
  assert (Hpos : nth_error (buildGraphOf rooms) i
                 = Some (Room.room_id a, Node.mk a (neighbours a rooms))).
  { assert (H : nth_error (skeleton (buildGraphOf rooms)) i = Some (Room.room_id a, a))
      by (rewrite (skeleton_buildGraphOf_distinct rooms Hnd), nth_error_map, Hi; reflexivity).
    unfold skeleton in H. rewrite nth_error_map in H.
    destruct (nth_error (buildGraphOf rooms) i) as [[k n]|] eqn:E; [|discriminate].
    cbn in H. injection H as -> Hroom.
    apply nth_error_In, In_get in E; [|apply buildGraphOf_keys_NoDup].
    rewrite Hget in E. now injection E as <-. }
  assert (Hv : nth_error (viewOfNodes (Vis.nodes (Vis.buildGraph rooms))) i
               = Some (Room.room_id a, neighbours a rooms)).
  { rewrite <- (builders_view rooms Hnd). unfold viewOfGraph.
    now rewrite nth_error_map, Hpos. }
  unfold viewOfNodes in Hv. rewrite nth_error_map in Hv.
  destruct (nth_error (Vis.nodes (Vis.buildGraph rooms)) i) as [n|]; [|discriminate].
  cbn in Hv. injection Hv as Hid Hadj. now exists n.
Qed.

Lemma edgeOf_nonempty i j a b :
  (exists e, In e (edgeOf i j a b)) <-> linked a b = true.
Proof.
  unfold edgeOf, linked.
  destruct (sameBuilding a b); cbn [orb].
  - split; [reflexivity|]. intros _. eexists. now left.
  - destruct (similarCapacity _ _).
    + split; [reflexivity|]. intros _. eexists. now left.
    + split; [intros [e []]|discriminate].
Qed.

(** X16: edges and adjacency lists tell the same.  For a room list with
    pairwise distinct room_ids, the visualizer draws an edge between the
    positions [i < j] exactly when the node at [i] lists the room at [j]
    and the node at [j] lists the room at [i]. *)
Theorem buildGraph_edge_iff_adjacent rooms i j a b :
  NoDup (ids rooms) ->
  (i < j)%nat ->
  nth_error rooms i = Some a ->
  nth_error rooms j = Some b ->
  ((exists e, In e (Vis.edges (Vis.buildGraph rooms)) /\ endpoints e = (i, j)) <->
   (exists ni nj,
       nth_error (Vis.nodes (Vis.buildGraph rooms)) i = Some ni /\
       nth_error (Vis.nodes (Vis.buildGraph rooms)) j = Some nj /\
       In (Room.room_id b) (Vis.adjacentRooms ni) /\
       In (Room.room_id a) (Vis.adjacentRooms nj))).
Proof.
  intros Hnd Hij Hi Hj.
  destruct (vis_node_adjacency rooms i a Hnd Hi) as (ni & Hni & _ & Hadji).
  destruct (vis_node_adjacency rooms j b Hnd Hj) as (nj & Hnj & _ & Hadjj).
  assert (Hina : In a rooms) by now apply nth_error_In with i.
  assert (Hinb : In b rooms) by now apply nth_error_In with j.
  assert (Hne : Room.room_id a <> Room.room_id b).
  { intros E.
    assert (Hlt : (i < List.length (ids rooms))%nat).
    { unfold ids. rewrite length_map. apply nth_error_Some. congruence. }
    pose proof (proj1 (NoDup_nth_error (ids rooms)) Hnd i j Hlt) as H.
    unfold ids in H. rewrite !nth_error_map, Hi, Hj in H. cbn in H.
    assert (i = j) by (apply H; now rewrite E). lia. }
  assert (Hlinked : linked a b = true <->
                    In (Room.room_id b) (neighbours a rooms) /\
                    In (Room.room_id a) (neighbours b rooms)).
  { rewrite !In_neighbours. split.
    - intros Hl. split.
      + exists b. repeat split; try assumption. now apply not_eq_sym.
      + exists a. repeat split; try assumption. now rewrite linked_sym.
    - intros [(b' & Hb' & Hid & _ & Hl) _].
      assert (b' = b) by (apply (NoDup_map_inj Room.room_id rooms); assumption).
      now subst b'. }
  rewrite edges_buildGraph. split.
  - intros (e & He & Hends).
    apply In_pairEdges in He as (p & q & a' & b' & _ & Hp & Hq & He). cbn [Nat.add] in He.
    pose proof (In_edgeOf _ _ _ _ _ He) as Hpq. rewrite Hends in Hpq.
    injection Hpq as -> ->.
    assert (a' = a) by congruence. assert (b' = b) by congruence. subst a' b'.
    assert (Hl : linked a b = true)
      by (apply (proj1 (edgeOf_nonempty p q a b)); now exists e).
    apply Hlinked in Hl as [H1 H2].
    exists ni, nj. rewrite Hadji, Hadjj. now repeat split.
  - intros (ni' & nj' & Hni' & Hnj' & H1 & H2).
    rewrite Hni in Hni'. rewrite Hnj in Hnj'. injection Hni' as <-. injection Hnj' as <-.
    rewrite Hadji in H1. rewrite Hadjj in H2.
    assert (Hl : linked a b = true) by (apply Hlinked; now split).
    apply (proj2 (edgeOf_nonempty i j a b)) in Hl as [e He]. exists e. split.
    + apply In_pairEdges. exists i, j, a, b. now repeat split.
    + now apply In_edgeOf in He.
Qed.

Lemma buildGraph_edge_iff_adjacent_witness :
  NoDup (ids threeRooms) /\
  (exists e, In e (Vis.edges (Vis.buildGraph threeRooms)) /\ endpoints e = (1%nat, 2%nat)).
Proof.
  assert (Hnd : NoDup (ids threeRooms)).
  { repeat (constructor;
            [simpl; intros H;
             repeat (destruct H as [H|H]; [discriminate H|]); exact H|]).
    constructor. }
  split; [exact Hnd|].
  apply (proj2 (buildGraph_edge_iff_adjacent threeRooms 1 2
                  (Room.mk "B" "South" 60 1 noFacilities)
                  (Room.mk "C" "West" 50 1 noFacilities)
                  Hnd ltac:(lia) eq_refl eq_refl)).
  exists (Vis.mkNode "B" "South" 60 noFacilities ["C"]),
    (Vis.mkNode "C" "West" 50 noFacilities ["B"]).
  repeat split; solve [vm_compute; reflexivity | left; reflexivity].
Defined.

(** ** The figures of the dashboard *)

Lemma setOf_from (l : list string) :
  forall acc,
    NoDup acc ->
    let r := fold_left (fun acc x => if existsb (String.eqb x) acc then acc
                                     else (acc ++ [x])%list) l acc in
    NoDup r /\ forall x, In x r <-> In x acc \/ In x l.
Proof.
  induction l as [|y l IH]; intros acc Hnd; cbn zeta; cbn [fold_left].
  - split; [exact Hnd|]. intros x. cbn. tauto.
  - destruct (existsb (String.eqb y) acc) eqn:E.
    + destruct (IH acc Hnd) as [H1 H2]. split; [exact H1|].
      intros x. rewrite H2. apply existsb_eqb_In in E. cbn. split; [tauto|].
      intros [H|[<-|H]]; tauto.
    + assert (Hnot : ~ In y acc).
      { intros Hin. apply existsb_eqb_In in Hin. congruence. }
      destruct (IH (acc ++ [y])%list) as [H1 H2].
      { apply NoDup_app; [exact Hnd|repeat constructor; tauto|].
        intros x Hx [<-|[]]. contradiction. }
      split; [exact H1|]. intros x. rewrite H2, in_app_iff. cbn. tauto.
Qed.

Lemma setOf_spec (l : list string) :
  NoDup (setOf l) /\ forall x, In x (setOf l) <-> In x l.
Proof.
  destruct (setOf_from l [] (NoDup_nil _)) as [H1 H2]. split; [exact H1|].
  intros x. unfold setOf. rewrite H2. cbn. tauto.
Qed.

(** X17: the figures of the dashboard.  The number of rooms with bookings
    counts each booked room_id once and is at most the number of bookings;
    when every booked room_id is a room_id of the store it is at most the
    number of rooms, so the utilization quotient is at most one.  The
    recent allocations are the last bookings of the ledger, newest first,
    five at most; after [addLog] the new entry heads the system
    activity. *)
Theorem updateDashboard_figures s :
  (rooms_with_bookings (updateDashboard s) <= total_bookings (updateDashboard s))%nat /\
  ((forall b, In b (schedulesArray s) ->
              In (Room.room_id (Booking.room b)) (ids (allRooms s))) ->
   (rooms_with_bookings (updateDashboard s) <= total_rooms (updateDashboard s))%nat) /\
  recent_allocations (updateDashboard s) = firstn 5 (rev (schedulesArray s)) /\
  (List.length (recent_allocations (updateDashboard s)) <= 5)%nat /\
  (forall now type message,
      hd_error (system_activity (updateDashboard (addLog now type message s)))
      = Some (Log.mk type message now)).
Proof.
  cbn [updateDashboard rooms_with_bookings total_bookings total_rooms
       recent_allocations system_activity].
  unfold roomsWithBookings, recentAllocations, sliceLast, recentLogs.
  set (booked := map (fun b => Room.room_id (Booking.room b)) (schedulesArray s)).
  destruct (setOf_spec booked) as [Hnd Hin].
  split; [|split; [|split; [|split]]].
  - replace (List.length (schedulesArray s)) with (List.length booked)
      by (unfold booked; apply length_map).
    apply NoDup_incl_length; [exact Hnd|]. intros x. apply Hin.
  - intros Hall.
    replace (List.length (allRooms s)) with (List.length (ids (allRooms s)))
      by (unfold ids; apply length_map).
    apply NoDup_incl_length; [exact Hnd|]. intros x Hx. apply Hin in Hx.
    unfold booked in Hx. apply in_map_iff in Hx as (b & <- & Hb). now apply Hall.
  - symmetry. apply firstn_rev.
  - rewrite <- firstn_rev, length_firstn. lia.
  - intros now type message. rewrite logsQueue_addLog.
    destruct (100 <=? List.length (logsQueue s))%nat; reflexivity.
Qed.

Lemma updateDashboard_figures_witness :
  (forall b, In b (schedulesArray bookedState) ->
             In (Room.room_id (Booking.room b)) (ids (allRooms bookedState))) /\
  (rooms_with_bookings (updateDashboard bookedState)
   <= total_rooms (updateDashboard bookedState))%nat.
Proof.
  assert (H : forall b, In b (schedulesArray bookedState) ->
                        In (Room.room_id (Booking.room b)) (ids (allRooms bookedState))).
  { intros b [<-|[]]. left. reflexivity. }
  split; [exact H|].
  exact (proj1 (proj2 (updateDashboard_figures bookedState)) H).
Defined.

(** ** The capacity test and the order of the ledger *)

(** X18: the capacity test in plain terms.  Two positive capacities pass
    it exactly when three times the larger is at most four times the
    smaller; the order of the two rooms does not matter; and when the
    larger capacity is zero the division has no finite quotient and the
    test fails. *)
Theorem similarCapacity_three_quarters c1 c2 :
  (0 < c1 -> 0 < c2 ->
   (similarCapacity c1 c2 = true <-> 3 * Z.max c1 c2 <= 4 * Z.min c1 c2)) /\
  similarCapacity c1 c2 = similarCapacity c2 c1 /\
  (Z.max c1 c2 = 0 -> similarCapacity c1 c2 = false).
Proof.
  split; [|split].
  - intros H1 H2. unfold similarCapacity, quotient_le_quarter.
    destruct (Z.compare_spec (Z.max c1 c2) 0) as [H|H|H]; [lia|lia|].
    rewrite Z.leb_le. lia.
  - apply similarCapacity_sym.
  - intros H. unfold similarCapacity, quotient_le_quarter. now rewrite H.
Qed.

Lemma similarCapacity_three_quarters_witness :
  0 < 40 /\ 0 < 30 /\ similarCapacity 40 30 = true.
Proof.
  split; [lia|split; [lia|]].
  apply (proj2 (proj1 (similarCapacity_three_quarters 40 30) ltac:(lia) ltac:(lia))).
  vm_compute. discriminate.
Defined.

From Stdlib Require Import Permutation.

Lemma conflicting_sym b1 b2 : conflicting b1 b2 = conflicting b2 b1.
Proof.
  unfold conflicting, sameRoomAndDate, overlapping.
  rewrite (String.eqb_sym (Room.room_id (Booking.room b1))).
  rewrite (String.eqb_sym (Booking.date b1)).
  now rewrite (orb_comm (str_le (Booking.end_time b1) (Booking.start_time b2))).
Qed.

Lemma length_filter_Permutation {A : Type} (p : A -> bool) (l l' : list A) :
  Permutation l l' -> List.length (filter p l) = List.length (filter p l').
Proof.
  intros H. induction H as [|x l l' H IH|x y l|l l' l'' H1 IH1 H2 IH2]; cbn.
  - reflexivity.
  - destruct (p x); cbn; now rewrite IH.
  - destruct (p x), (p y); reflexivity.
  - now rewrite IH1.
Qed.

Lemma length_conflictingPairs_cons b l :
  List.length (conflictingPairs (b :: l))
  = (List.length (filter (conflicting b) l) + List.length (conflictingPairs l))%nat.
Proof.
  cbn [conflictingPairs]. now rewrite length_app, length_map.
Qed.

(** X19: the number of conflicts does not depend on the order of the
    ledger.  Two ledgers holding the same records in different orders give
    [detectConflicts] results of the same length, the figure the dashboard
    shows. *)
Theorem conflict_count_order_independent s s' :
  Permutation (schedulesArray s) (schedulesArray s') ->
  conflicts_count (updateDashboard s) = conflicts_count (updateDashboard s').
Proof.
  cbn [updateDashboard conflicts_count]. unfold detectConflicts. cbn [snd].
  rewrite !conflictsOf_conflictingPairs.
  generalize (schedulesArray s) (schedulesArray s'). intros l l' H.
  induction H as [|x l l' H IH|x y l|l l' l'' H1 IH1 H2 IH2].
  - reflexivity.
  - rewrite !length_conflictingPairs_cons, IH.
    now rewrite (length_filter_Permutation _ _ _ H).
  - rewrite !length_conflictingPairs_cons. cbn [filter].
    rewrite (conflicting_sym y x).
    destruct (conflicting x y); cbn [List.length]; lia.
  - now rewrite IH1.
Qed.

Lemma conflict_count_order_independent_witness :
  let b1 := sampleBooking "101" "2025-01-01" "09:00" "10:00" in
  let b2 := sampleBooking "101" "2025-01-01" "09:30" "10:30" in
  Permutation (schedulesArray (with_schedulesArray [b1; b2] initialState))
              (schedulesArray (with_schedulesArray [b2; b1] initialState)) /\
  conflicts_count (updateDashboard (with_schedulesArray [b1; b2] initialState))
  = conflicts_count (updateDashboard (with_schedulesArray [b2; b1] initialState)).
Proof.
  intros b1 b2.
  assert (H : Permutation (schedulesArray (with_schedulesArray [b1; b2] initialState))
                          (schedulesArray (with_schedulesArray [b2; b1] initialState)))
    by apply perm_swap.
  split; [exact H|]. exact (conflict_count_order_independent _ _ H).
Defined.
